(** * Nano Banana image-generation backend: a shallow embedding of backend/app.py

    The development follows the layout of the Python module:
    - [PyStr]: the operations of Python's [str] the module relies on
      (a [str] is a sequence of Unicode code points);
    - [Re]: a backtracking matcher for the fragment of [re] used by the
      reference-image pattern;
    - [Json]: decoded JSON documents and the dynamically typed operations the
      response parser applies to them;
    - the request handlers ([generate_image], [get_task_status], [set_api_key],
      [check_api_key], [verify_api_key]) and the background job
      [_execute_generation], written in a small state-and-exception monad over
      the in-memory task table.

    Library functions that live outside the repository (the JSON decoder, the
    lenient UTF-8 decoder, [repr], the Unicode alphanumeric table) are section
    variables. *)

From Stdlib Require Import ZArith NArith List String Ascii Bool Lia DecimalString.
From Stdlib Require Import Floats.SpecFloat.
From stdpp Require Import base option list gmap.
Import ListNotations.

Local Open Scope Z_scope.

(** A Python [str]: its code points, in order. *)
Abbreviation pystr := (list N) (only parsing).
(** A Python [bytes] object. *)
Abbreviation pybytes := (list Byte.byte) (only parsing).

(* ================================================================== *)
(** ** Python strings *)
(* ================================================================== *)

Module PyStr.

Definition of_bytes (s : string) : list N :=
  map N_of_ascii (list_ascii_of_string s).

(** Strict UTF-8 decoding of a literal of this file (the Chinese messages of
    the source are written as UTF-8 literals). *)
Fixpoint utf8_decode (bs : list N) : pystr :=
  match bs with
  | [] => []
  | b0 :: t0 =>
    if (b0 <? 128)%N then b0 :: utf8_decode t0
    else match t0 with
    | [] => []
    | b1 :: t1 =>
      if (b0 <? 224)%N then ((b0 - 192) * 64 + (b1 - 128))%N :: utf8_decode t1
      else match t1 with
      | [] => []
      | b2 :: t2 =>
        if (b0 <? 240)%N
        then ((b0 - 224) * 4096 + (b1 - 128) * 64 + (b2 - 128))%N :: utf8_decode t2
        else match t2 with
        | [] => []
        | b3 :: t3 =>
          ((b0 - 240) * 262144 + (b1 - 128) * 4096 + (b2 - 128) * 64 + (b3 - 128))%N
            :: utf8_decode t3
        end
      end
    end
  end.

Definition lit (s : string) : pystr := utf8_decode (of_bytes s).

(** [str(n)] for an [int]. *)
Definition of_Z (z : Z) : pystr := of_bytes (NilZero.string_of_int (Z.to_int z)).

(** [s.startswith(p)] *)
Fixpoint startswith (p s : pystr) : bool :=
  match p, s with
  | [], _ => true
  | _ :: _, [] => false
  | a :: p', b :: s' => (a =? b)%N && startswith p' s'
  end.

(** [Py_UNICODE_ISSPACE]: the characters [str.strip()] removes. *)
Definition isspace (c : N) : bool :=
  ((9 <=? c) && (c <=? 13) || (28 <=? c) && (c <=? 32) || (c =? 133) || (c =? 160)
   || (c =? 5760) || (8192 <=? c) && (c <=? 8202) || (c =? 8232) || (c =? 8233)
   || (c =? 8239) || (c =? 8287) || (c =? 12288))%N.

Fixpoint lstrip (s : pystr) : pystr :=
  match s with
  | c :: t => if isspace c then lstrip t else s
  | [] => []
  end.

Definition rstrip (s : pystr) : pystr := rev (lstrip (rev s)).

(** [s.strip()] *)
Definition strip (s : pystr) : pystr := rstrip (lstrip s).

(** Truth value of a [str]: non-empty. *)
Definition truthy (s : pystr) : bool :=
  match s with [] => false | _ => true end.

(** [s[:k]] for [k >= 0]. *)
Definition slice_to (k : nat) (s : pystr) : pystr := take k s.

(** [s[-k:]] for [k > 0]: the last [k] characters, the whole string when it
    is shorter. *)
Definition slice_last (k : nat) (s : pystr) : pystr := drop (length s - k)%nat s.

(** [sep.join(parts)] *)
Fixpoint join (sep : pystr) (parts : list pystr) : pystr :=
  match parts with
  | [] => []
  | [p] => p
  | p :: rest => p ++ sep ++ join sep rest
  end.

(** [needle in hay]: substring test. *)
Fixpoint contains (needle hay : pystr) : bool :=
  startswith needle hay ||
  match hay with
  | [] => false
  | _ :: t => contains needle t
  end.

(** Declarative reading of the substring relation. *)
Definition substring (needle hay : pystr) : Prop :=
  exists pre post, hay = pre ++ needle ++ post.

(** The longest prefix of [s] made of characters of the class [p], and what
    follows it. *)
Fixpoint take_while (p : N -> bool) (s : pystr) : pystr :=
  match s with
  | c :: t => if p c then c :: take_while p t else []
  | [] => []
  end.

Fixpoint drop_while (p : N -> bool) (s : pystr) : pystr :=
  match s with
  | c :: t => if p c then drop_while p t else s
  | [] => []
  end.

(** [s] without the prefix [p], when it starts with it. *)
Fixpoint strip_prefix (p s : pystr) : option pystr :=
  match p, s with
  | [], _ => Some s
  | _ :: _, [] => None
  | a :: p', b :: s' => if (a =? b)%N then strip_prefix p' s' else None
  end.

Definition is_ascii_alnum (c : N) : bool :=
  ((48 <=? c) && (c <=? 57) || (65 <=? c) && (c <=? 90) || (97 <=? c) && (c <=? 122))%N.

End PyStr.

Definition str (s : string) : pystr := PyStr.lit s.

(** Literals are compared as written and unfolded only by evaluation. *)
#[global] Opaque str.

(* ================================================================== *)
(** ** The fragment of [re] used by the module *)
(* ================================================================== *)

Module Re.

(** Patterns: literals, one-character classes, greedy [+] on a class,
    concatenation and capturing groups. *)
Inductive regex : Type :=
| Lit (c : N)
| Class (p : N -> bool)
| Plus (p : N -> bool)
| Seq (r1 r2 : regex)
| Group (r : regex)
| Eps.

(** Greedy [c+]: consume as many characters of the class as possible, then
    give characters back one at a time until the continuation succeeds. *)
Fixpoint plus_greedy {R} (p : N -> bool) (s : pystr) (k : pystr -> option R) : option R :=
  match s with
  | c :: t =>
    if p c then
      match plus_greedy p t k with
      | Some r => Some r
      | None => k t
      end
    else None
  | [] => None
  end.

(** Backtracking matcher in continuation-passing style. [caps] collects the
    text of the groups closed so far, in closing order. *)
Fixpoint run {R} (r : regex) (s : pystr) (caps : list pystr)
    (k : pystr -> list pystr -> option R) : option R :=
  match r with
  | Lit c =>
    match s with
    | x :: t => if (x =? c)%N then k t caps else None
    | [] => None
    end
  | Class p =>
    match s with
    | x :: t => if p x then k t caps else None
    | [] => None
    end
  | Plus p => plus_greedy p s (fun rest => k rest caps)
  | Seq r1 r2 => run r1 s caps (fun s' caps' => run r2 s' caps' k)
  | Group r1 =>
    run r1 s caps
        (fun s' caps' => k s' (caps' ++ [take (length s - length s')%nat s]))
  | Eps => k s caps
  end.

(** [re.match(r, s)]: anchored at the start, free at the end; the result is
    the list of groups. *)
Definition rmatch (r : regex) (s : pystr) : option (list pystr) :=
  run r s [] (fun _ caps => Some caps).

Fixpoint lits (s : pystr) : regex :=
  match s with
  | [] => Eps
  | c :: t => Seq (Lit c) (lits t)
  end.

(** [.] without [re.DOTALL]: anything but a newline. *)
Definition dot (c : N) : bool := negb (c =? 10)%N.

End Re.

(* ================================================================== *)
(** ** Exceptions and decoded JSON documents *)
(* ================================================================== *)

(** An exception as the module sees it: [type(e).__name__] and [str(e)];
    FastAPI's [HTTPException] keeps its status code and detail. *)
Inductive py_exc : Type :=
| Exc (type_name message : pystr)
| HTTPException (status_code : Z) (detail : pystr).

Definition exc_type_name (e : py_exc) : pystr :=
  match e with
  | Exc t _ => t
  | HTTPException _ _ => str "HTTPException"
  end.

Definition exc_str (e : py_exc) : pystr :=
  match e with
  | Exc _ m => m
  | HTTPException c d => PyStr.of_Z c ++ str ": " ++ d
  end.

(** The outcome of a fallible computation. *)
Inductive res (A : Type) : Type :=
| Ok (a : A)
| Raise (e : py_exc).
Arguments Ok {A} a.
Arguments Raise {A} e.

Definition res_bind {A B} (r : res A) (k : A -> res B) : res B :=
  match r with
  | Ok a => k a
  | Raise e => Raise e
  end.

#[global] Instance res_ret : MRet res := fun _ a => Ok a.
#[global] Instance res_mbind : MBind res := fun _ _ k r => res_bind r k.

Module Json.

#[local] Set Warnings "-register-all".

(** What [json.loads] returns: [None], [bool], [int], [float], [str], [list]
    and [dict] (a [dict] keeps its keys in document order). *)
Inductive json : Type :=
| JNull
| JBool (b : bool)
| JInt (z : Z)
| JFloat (f : spec_float)
| JStr (s : pystr)
| JArr (items : list json)
| JObj (fields : list (pystr * json)).

Definition type_name (v : json) : pystr :=
  match v with
  | JNull => str "NoneType"
  | JBool _ => str "bool"
  | JInt _ => str "int"
  | JFloat _ => str "float"
  | JStr _ => str "str"
  | JArr _ => str "list"
  | JObj _ => str "dict"
  end.

(** [bool(v)] *)
Definition truthy (v : json) : bool :=
  match v with
  | JNull => false
  | JBool b => b
  | JInt z => negb (z =? 0)
  | JFloat (S754_zero _) => false
  | JFloat _ => true
  | JStr s => PyStr.truthy s
  | JArr [] => false
  | JArr _ => true
  | JObj [] => false
  | JObj _ => true
  end.

Fixpoint lookup (key : pystr) (fields : list (pystr * json)) : option json :=
  match fields with
  | [] => None
  | (k, v) :: rest => if decide (k = key) then Some v else lookup key rest
  end.

Definition attribute_error (v : json) (attr : pystr) : py_exc :=
  Exc (str "AttributeError")
      (str "'" ++ type_name v ++ str "' object has no attribute '" ++ attr ++ str "'").

Definition type_error (msg : pystr) : py_exc := Exc (str "TypeError") msg.

Definition not_subscriptable (v : json) : py_exc :=
  type_error (str "'" ++ type_name v ++ str "' object is not subscriptable").

(** [v.get(key, default)]: only a [dict] has the method. *)
Definition get (v : json) (key : pystr) (default : json) : res json :=
  match v with
  | JObj fields => Ok (from_option id default (lookup key fields))
  | _ => Raise (attribute_error v (str "get"))
  end.

(** [v[0]] *)
Definition index0 (v : json) : res json :=
  match v with
  | JArr (x :: _) => Ok x
  | JArr [] => Raise (Exc (str "IndexError") (str "list index out of range"))
  | JStr (c :: _) => Ok (JStr [c])
  | JStr [] => Raise (Exc (str "IndexError") (str "string index out of range"))
  | JObj _ => Raise (Exc (str "KeyError") (str "0"))
  | _ => Raise (not_subscriptable v)
  end.

(** [for x in v]: the elements of a list, the characters of a string, the
    keys of a dict. *)
Definition iter (v : json) : res (list json) :=
  match v with
  | JArr items => Ok items
  | JStr s => Ok (map (fun c => JStr [c]) s)
  | JObj fields => Ok (map (fun kv => JStr (fst kv)) fields)
  | _ => Raise (type_error (str "'" ++ type_name v ++ str "' object is not iterable"))
  end.

Definition is_str (key : pystr) (v : json) : bool :=
  match v with
  | JStr s => bool_decide (s = key)
  | _ => false
  end.

(** [key in v] for a string [key]: key of a dict, substring of a string,
    element of a list. *)
Definition contains (key : pystr) (v : json) : res bool :=
  match v with
  | JObj fields => Ok (bool_decide (is_Some (lookup key fields)))
  | JStr s => Ok (PyStr.contains key s)
  | JArr items => Ok (existsb (is_str key) items)
  | _ => Raise (type_error (str "argument of type '" ++ type_name v ++ str "' is not iterable"))
  end.

(** [len(v)] (only whether it raises matters to the module). *)
Definition len (v : json) : res Z :=
  match v with
  | JStr s => Ok (Z.of_nat (length s))
  | JArr items => Ok (Z.of_nat (length items))
  | JObj fields => Ok (Z.of_nat (length fields))
  | _ => Raise (type_error (str "object of type '" ++ type_name v ++ str "' has no len()"))
  end.

(** [v[:k]] *)
Definition slice_to (k : nat) (v : json) : res json :=
  match v with
  | JStr s => Ok (JStr (take k s))
  | JArr items => Ok (JArr (take k items))
  | JObj _ => Raise (type_error (str "unhashable type: 'slice'"))
  | _ => Raise (not_subscriptable v)
  end.

(** [sep.join(items)]: every item has to be a [str]. *)
Fixpoint join_strs (i : Z) (items : list json) : res (list pystr) :=
  match items with
  | [] => Ok []
  | JStr s :: rest =>
    match join_strs (i + 1) rest with
    | Ok l => Ok (s :: l)
    | Raise e => Raise e
    end
  | v :: _ =>
    Raise (type_error (str "sequence item " ++ PyStr.of_Z i ++ str ": expected str instance, "
                       ++ type_name v ++ str " found"))
  end.

Definition join (sep : pystr) (items : list json) : res pystr :=
  match join_strs 0 items with
  | Ok l => Ok (PyStr.join sep l)
  | Raise e => Raise e
  end.

End Json.
Import Json.

(* ================================================================== *)
(** ** Data model *)
(* ================================================================== *)

(** Wire payload of the provider: [{"contents": [{"parts": [...]}]}], a part
    being [{"text": t}] or [{"inlineData": {"mimeType": m, "data": d}}]. *)
Inductive part : Type :=
| TextPart (text : pystr)
| InlineData (mimeType data : pystr).

Record content : Type := Content { parts : list part }.
Record payload : Type := Payload { contents : list content }.

Module GenerateRequest.
Record t : Type := Build {
  prompt : pystr;
  aspect_ratio : option pystr;
  model : pystr;
  reference_images : option (list pystr);
  image_size : option pystr
}.
End GenerateRequest.

Module ApiKeyRequest.
Record t : Type := Build { api_key : pystr }.
End ApiKeyRequest.

Inductive job_status : Type := processing | completed | failed.

(** One entry of the [tasks] dict. [thinking] is the key that only a
    successful run with accompanying text adds. *)
Record task : Type := Task {
  status : job_status;
  progress : Z;
  result_url : option pystr;
  result_base64 : option pystr;
  error : option pystr;
  created_at : pystr;
  prompt : pystr;
  model : pystr;
  thinking : option pystr
}.

Definition set_status (v : job_status) (t : task) : task :=
  Task v (progress t) (result_url t) (result_base64 t) (error t) (created_at t)
       (prompt t) (model t) (thinking t).
Definition set_progress (v : Z) (t : task) : task :=
  Task (status t) v (result_url t) (result_base64 t) (error t) (created_at t)
       (prompt t) (model t) (thinking t).
Definition set_result_base64 (v : pystr) (t : task) : task :=
  Task (status t) (progress t) (result_url t) (Some v) (error t) (created_at t)
       (prompt t) (model t) (thinking t).
Definition set_error (v : pystr) (t : task) : task :=
  Task (status t) (progress t) (result_url t) (result_base64 t) (Some v) (created_at t)
       (prompt t) (model t) (thinking t).
Definition set_thinking (v : pystr) (t : task) : task :=
  Task (status t) (progress t) (result_url t) (result_base64 t) (error t) (created_at t)
       (prompt t) (model t) (Some v).

Module TaskStatusResponse.
Record t : Type := Build {
  task_id : pystr;
  status : job_status;
  progress : Z;
  result_url : option pystr;
  result_base64 : option pystr;
  error : option pystr;
  created_at : pystr;
  model : option pystr
}.
End TaskStatusResponse.

(** The arguments of one [_execute_generation] coroutine handed to
    [asyncio.create_task]. *)
Record job : Type := Job {
  job_task_id : pystr;
  job_model_name : pystr;
  job_payload : payload;
  job_headers : list (pystr * pystr)
}.

(** The process state: the two module globals, the key file, the coroutines
    scheduled so far, and two histories kept for the statements below: the
    endpoints contacted, and the task table as it stood each time the
    background job was suspended on the network (what a poll arriving at that
    moment reads). *)
Record world : Type := World {
  user_api_key : pystr;
  api_key_file : option pystr;
  tasks : gmap pystr task;
  scheduled : list job;
  requests : list pystr;
  observable : list (gmap pystr task)
}.

Definition with_key (k : pystr) (w : world) : world :=
  World k (api_key_file w) (tasks w) (scheduled w) (requests w) (observable w).
Definition with_key_file (k : pystr) (w : world) : world :=
  World (user_api_key w) (Some k) (tasks w) (scheduled w) (requests w) (observable w).
Definition with_tasks (m : gmap pystr task) (w : world) : world :=
  World (user_api_key w) (api_key_file w) m (scheduled w) (requests w) (observable w).
Definition with_scheduled (j : job) (w : world) : world :=
  World (user_api_key w) (api_key_file w) (tasks w) (scheduled w ++ [j]) (requests w)
        (observable w).
Definition with_request (url : pystr) (w : world) : world :=
  World (user_api_key w) (api_key_file w) (tasks w) (scheduled w) (requests w ++ [url])
        (observable w).
Definition with_observation (w : world) : world :=
  World (user_api_key w) (api_key_file w) (tasks w) (scheduled w) (requests w)
        (observable w ++ [tasks w]).

(* ================================================================== *)
(** ** State and exceptions *)
(* ================================================================== *)

Definition M (A : Type) : Type := world -> res A * world.

#[global] Instance M_ret : MRet M := fun _ a w => (Ok a, w).
#[global] Instance M_bind : MBind M := fun _ _ k m w =>
  match m w with
  | (Ok a, w') => k a w'
  | (Raise e, w') => (Raise e, w')
  end.

Definition raise {A} (e : py_exc) : M A := fun w => (Raise e, w).
Definition lift {A} (r : res A) : M A := fun w => (r, w).
Definition gets {A} (f : world -> A) : M A := fun w => (Ok (f w), w).
Definition modify (f : world -> world) : M unit := fun w => (Ok tt, f w).

(** [try: body  except Exception as e: handler e] *)
Definition try_except {A} (body : M A) (handler : py_exc -> M A) : M A := fun w =>
  match body w with
  | (Ok a, w') => (Ok a, w')
  | (Raise e, w') => handler e w'
  end.

(** [async with ...: body]: [on_exit] runs however the body leaves. *)
Definition with_exit {A} (body : M A) (on_exit : world -> world) : M A := fun w =>
  match body w with
  | (r, w') => (r, on_exit w')
  end.

(** A point where the coroutine awaits the network; the event loop may serve
    a poll here. *)
Definition suspend : M unit := modify with_observation.

(** What the network does with one streamed POST. *)
Inductive stream_end : Type :=
| EndOfStream
| Broken (e : py_exc).

Inductive net_outcome : Type :=
| ConnectFailed (e : py_exc)
| Response (status_code : Z) (chunks : list pybytes) (ending : stream_end).

(** What the network does with one plain POST. *)
Inductive post_outcome : Type :=
| PostFailed (e : py_exc)
| PostResponse (status_code : Z) (text : pystr).

Inductive loop_ctl : Type :=
| LoopContinue (last_error : pystr)
| LoopReturn.

Inductive loop_end : Type :=
| Returned
| Exhausted (last_error : option pystr).

(* ================================================================== *)
(** ** Floating point of the progress estimate *)
(* ================================================================== *)

Definition prec64 : Z := 53.
Definition emax64 : Z := 1024.

(** An [int] as an unrounded dyadic. *)
Definition exact_int (z : Z) : spec_float :=
  match z with
  | Z0 => S754_zero false
  | Zpos p => S754_finite false p 0
  | Zneg p => S754_finite true p 0
  end.

(** [float(z)] *)
Definition float_of_int (z : Z) : spec_float := binary_normalize prec64 emax64 z 0 false.

(** [a / b] on two [int]s: the quotient rounded once to binary64. *)
Definition int_truediv (a b : Z) : res spec_float :=
  if b =? 0 then Raise (Exc (str "ZeroDivisionError") (str "division by zero"))
  else match SFdiv prec64 emax64 (exact_int a) (exact_int b) with
       | S754_infinity _ =>
         Raise (Exc (str "OverflowError") (str "integer division result too large for a float"))
       | q => Ok q
       end.

(** [x * k] for a [float] and an [int]. *)
Definition float_mul_int (x : spec_float) (k : Z) : spec_float :=
  SFmul prec64 emax64 x (float_of_int k).

(** [int(x)]: truncation toward zero. *)
Definition int_of_float (x : spec_float) : res Z :=
  match x with
  | S754_zero _ => Ok 0
  | S754_finite s m e =>
    let v := Z.shiftl (Zpos m) e in Ok (if s then - v else v)
  | S754_infinity _ =>
    Raise (Exc (str "OverflowError") (str "cannot convert float infinity to integer"))
  | S754_nan =>
    Raise (Exc (str "ValueError") (str "cannot convert float NaN to integer"))
  end.

(** [min(30 + int(n / 50000 * 60), 90)] *)
Definition progress_estimate (n : Z) : res Z :=
  q ← int_truediv n 50000;
  v ← int_of_float (float_mul_int q 60);
  mret (Z.min (30 + v) 90).

(** The same estimate in exact integer arithmetic. *)
Definition progress_formula (n : Z) : Z := Z.min (30 + n * 60 / 50000) 90.

(** Agreement of the two on one byte count, and on all counts below a bound
    (checked by evaluation for the counts that do not reach the cap). *)
Definition estimate_agrees (n : Z) : bool :=
  match progress_estimate n with
  | Ok p => p =? progress_formula n
  | Raise _ => false
  end.

Definition agrees_step (st : bool * Z) : bool * Z :=
  (fst st && estimate_agrees (snd st), snd st + 1).

Definition agrees_below (k : positive) : bool := fst (Pos.iter agrees_step (true, 0) k).

(** The largest size of a [bytes] object. *)
Definition PY_SSIZE_T_MAX : Z := 2 ^ 63 - 1.

(** [a + b] on [bytes]: CPython refuses a result longer than
    [PY_SSIZE_T_MAX]. *)
Definition bytes_concat (a b : pybytes) : res pybytes :=
  if PY_SSIZE_T_MAX <? Z.of_nat (length a) + Z.of_nat (length b)
  then Raise (Exc (str "MemoryError") [])
  else Ok (a ++ b).

(* ================================================================== *)
(** ** The application *)
(* ================================================================== *)

Definition GOOGLE_API_HOSTS : list pystr :=
  [ str "https://api.zzz-api.top/google";
    str "https://api.zhizengzeng.com/google" ].

Definition MODELS : list (pystr * pystr) :=
  [ (str "nano-banana", str "gemini-2.5-flash-image");
    (str "nano-banana-pro", str "gemini-3-pro-image-preview") ].

Fixpoint dict_get (d : list (pystr * pystr)) (key default : pystr) : pystr :=
  match d with
  | [] => default
  | (k, v) :: rest => if decide (k = key) then v else dict_get rest key default
  end.

Record generate_response : Type := GenerateResponse {
  gr_task_id : pystr;
  gr_status : job_status;
  gr_model : pystr;
  gr_message : pystr
}.

Record check_key_response : Type := CheckKeyResponse {
  has_key : bool;
  masked_key : pystr
}.

Record set_key_response : Type := SetKeyResponse {
  success : bool;
  sk_message : pystr
}.

Record verify_response : Type := VerifyResponse {
  valid : bool;
  message : pystr
}.

(** [a or b] on an optional string. *)
Definition py_or (a : option pystr) (b : pystr) : pystr :=
  match a with
  | Some s => if PyStr.truthy s then s else b
  | None => b
  end.

Section Backend.

(** [Py_UNICODE_ISALNUM] outside ASCII (the Unicode character database). *)
Variable unicode_alnum : N -> bool.
(** [json.loads(content.decode("utf-8"))] *)
Variable json_loads : pybytes -> res json.
(** [chunk.decode("utf-8", errors="ignore")] *)
Variable decode_ignore : pybytes -> pystr.
(** [repr(v)] of a decoded value. *)
Variable repr : json -> pystr.
(** The network: what happens to the [k]-th request of the process, sent to
    the given URL, for [client.stream] and for [client.post]. *)
Variable net_stream : nat -> pystr -> net_outcome.
Variable net_post : nat -> pystr -> post_outcome.

(** *** Request builder *)

(** [\w] in a [str] pattern. *)
Definition word_char (c : N) : bool :=
  if (c <? 128)%N then PyStr.is_ascii_alnum c || (c =? 95)%N else unicode_alnum c.

(** [r"data:(image/\w+);base64,(.+)"] *)
Definition DATA_URL_RE : Re.regex :=
  Re.Seq (Re.lits (str "data:"))
    (Re.Seq (Re.Group (Re.Seq (Re.lits (str "image/")) (Re.Plus word_char)))
       (Re.Seq (Re.lits (str ";base64,"))
          (Re.Group (Re.Plus Re.dot)))).

(** [match.group(n)] *)
Definition group (n : nat) (m : list pystr) : pystr := List.nth (n - 1) m [].

(** The part one reference image contributes, if any. *)
Definition reference_part (img_data : pystr) : option part :=
  if PyStr.startswith (str "data:") img_data then
    match Re.rmatch DATA_URL_RE img_data with
    | Some m => Some (InlineData (group 1 m) (group 2 m))
    | None => None
    end
  else None.

(** The loop [for img_data in request.reference_images: ... parts.insert(0, ...)]. *)
Definition add_reference_images (images : list pystr) (parts : list part) : list part :=
  fold_left (fun parts img_data =>
               match reference_part img_data with
               | Some p => p :: parts
               | None => parts
               end) images parts.

Definition build_payload (request : GenerateRequest.t) : payload :=
  let parts := [TextPart (GenerateRequest.prompt request)] in
  let parts :=
    match GenerateRequest.reference_images request with
    | Some ((_ :: _) as images) => add_reference_images images parts
    | _ => parts
    end in
  Payload [Content parts].

(** *** POST /api/generate *)

Definition generate_image (request : GenerateRequest.t) (uuid4 now : pystr)
  : M generate_response :=
  key ← gets user_api_key;
  if negb (PyStr.truthy key) then
    raise (HTTPException 400 (str "请先设置API密钥"))
  else if negb (PyStr.truthy (PyStr.strip (GenerateRequest.prompt request))) then
    raise (HTTPException 400 (str "提示词不能为空"))
  else
    let task_id := uuid4 in
    let model_name :=
      dict_get MODELS (GenerateRequest.model request)
               (dict_get MODELS (str "nano-banana-pro") []) in
    let payload := build_payload request in
    let headers := [ (str "Content-Type", str "application/json");
                     (str "x-goog-api-key", key);
                     (str "Connection", str "keep-alive") ] in
    modify (fun w =>
      with_tasks (<[task_id := Task processing 10 None None None now
                                    (GenerateRequest.prompt request) model_name None]>
                    (tasks w)) w) ;;
    modify (with_scheduled (Job task_id model_name payload headers)) ;;
    mret (GenerateResponse task_id processing model_name
            (str "任务已提交，请轮询获取结果")).

(** *** The background job *)

(** [tasks[task_id][field] = value] *)
Definition update_task (task_id : pystr) (f : task -> task) : M unit := fun w =>
  match tasks w !! task_id with
  | Some t => (Ok tt, with_tasks (<[task_id := f t]> (tasks w)) w)
  | None => (Raise (Exc (str "KeyError") (repr (JStr task_id))), w)
  end.

(** [client.stream("POST", endpoint, ...)] *)
Definition client_stream (endpoint : pystr) : M net_outcome := fun w =>
  (Ok (net_stream (length (requests w)) endpoint), with_request endpoint w).

(** [str(v)], as an f-string formats it. *)
Definition py_str (v : json) : pystr :=
  match v with
  | JStr s => s
  | _ => repr v
  end.

(** [v[key]] for a string key. *)
Definition getitem (v : json) (key : pystr) : res json :=
  match v with
  | JObj fields =>
    match Json.lookup key fields with
    | Some x => Ok x
    | None => Raise (Exc (str "KeyError") (repr (JStr key)))
    end
  | JStr _ => Raise (Json.type_error (str "string indices must be integers, not 'str'"))
  | JArr _ => Raise (Json.type_error (str "list indices must be integers or slices, not str"))
  | _ => Raise (Json.not_subscriptable v)
  end.

(** The error body of a non-200 response, decoded chunk by chunk. *)
Fixpoint read_error_body (chunks : list pybytes) (ending : stream_end) (error_text : pystr)
  : M pystr :=
  suspend ;;
  match chunks with
  | [] =>
    match ending with
    | EndOfStream => mret error_text
    | Broken e => raise e
    end
  | chunk :: rest => read_error_body rest ending (error_text ++ decode_ignore chunk)
  end.

(** The body of a 200 response; the progress is rewritten after every chunk. *)
Fixpoint read_body (task_id : pystr) (chunks : list pybytes) (ending : stream_end)
    (content : pybytes) : M pybytes :=
  suspend ;;
  match chunks with
  | [] =>
    match ending with
    | EndOfStream => mret content
    | Broken e => raise e
    end
  | chunk :: rest =>
    content ← lift (bytes_concat content chunk);
    progress ← lift (progress_estimate (Z.of_nat (length content)));
    update_task task_id (set_progress progress) ;;
    read_body task_id rest ending content
  end.

(** The loop over the parts of the first candidate. *)
Fixpoint scan_parts (content_parts : list json) (image_data : option pystr)
    (text_response : list json) : res (option pystr * list json) :=
  match content_parts with
  | [] => Ok (image_data, text_response)
  | part :: rest =>
    has_inline ← Json.contains (str "inlineData") part;
    if has_inline : bool then
      inline_data ← getitem part (str "inlineData");
      mime_type ← Json.get inline_data (str "mimeType") (JStr (str "image/png"));
      base64_data ← Json.get inline_data (str "data") (JStr []);
      let image_data :=
        str "data:" ++ py_str mime_type ++ str ";base64," ++ py_str base64_data in
      _ ← Json.len base64_data;
      scan_parts rest (Some image_data) text_response
    else
      has_text ← Json.contains (str "text") part;
      if has_text : bool then
        text ← getitem part (str "text");
        scan_parts rest image_data (text_response ++ [text])
      else scan_parts rest image_data text_response
  end.

(** Truth value of [image_data]: [None] and the empty string are false. *)
Definition image_found (image_data : option pystr) : option pystr :=
  match image_data with
  | Some img => if PyStr.truthy img then Some img else None
  | None => None
  end.

(** What the parser concludes from a decoded document, before anything is
    written to the task: an image (with the text parts met on the way) or the
    reason why there is none. *)
Inductive verdict : Type :=
| Image (image : pystr) (text_response : list json)
| NoImage (last_error : pystr).

(** The response parser, from [candidates = data.get("candidates", [])] to the
    test [if image_data:] and the [else] branch below it. *)
Definition classify (data : json) : res verdict :=
  candidates ← Json.get data (str "candidates") (JArr []);
  if negb (Json.truthy candidates) then
    prompt_feedback ← Json.get data (str "promptFeedback") (JObj []);
    block_reason ← Json.get prompt_feedback (str "blockReason") (JStr []);
    if Json.truthy block_reason then
      mret (NoImage (str "内容被安全策略阻止: " ++ py_str block_reason))
    else
      mret (NoImage (str "未生成任何结果 (响应: " ++ take 200 (py_str data) ++ str ")"))
  else
    candidate ← Json.index0 candidates;
    content_obj ← Json.get candidate (str "content") (JObj []);
    parts_value ← Json.get content_obj (str "parts") (JArr []);
    content_parts ← Json.iter parts_value;
    scanned ← scan_parts content_parts None [];
    let '(image_data, text_response) := scanned in
    match image_found image_data with
    | Some image => mret (Image image text_response)
    | None =>
      let last_error := str "响应中没有图像数据" in
      match text_response with
      | first :: _ =>
        preview ← Json.slice_to 100 first;
        mret (NoImage (last_error ++ str " (模型回复: " ++ py_str preview ++ str "...)"))
      | [] => mret (NoImage last_error)
      end
    end.

(** [thinking = "\n".join(text_response)], only when there is text. *)
Definition join_thinking (text_response : list json) : res (option pystr) :=
  match text_response with
  | _ :: _ => joined ← Json.join [10%N] text_response; mret (Some joined)
  | [] => mret None
  end.

(** Everything after the body of a 200 response has been read. *)
Definition parse_response (task_id : pystr) (content : pybytes) : M loop_ctl :=
  data ← lift (json_loads content);
  v ← lift (classify data);
  match v with
  | Image image text_response =>
    update_task task_id (set_status completed) ;;
    update_task task_id (set_progress 100) ;;
    update_task task_id (set_result_base64 image) ;;
    thinking ← lift (join_thinking text_response);
    match thinking with
    | Some joined => update_task task_id (set_thinking joined)
    | None => mret tt
    end ;;
    mret LoopReturn
  | NoImage last_error => mret (LoopContinue last_error)
  end.

(** [f"{host}/v1beta/models/{model_name}:generateContent"] *)
Definition generation_endpoint (host model_name : pystr) : pystr :=
  host ++ str "/v1beta/models/" ++ model_name ++ str ":generateContent".

(** [f"{type(e).__name__}: {str(e)}"] *)
Definition format_exception (e : py_exc) : pystr :=
  exc_type_name e ++ str ": " ++ exc_str e.

(** [f"API错误 ({response.status_code}): {error_text[:300]}"] *)
Definition format_api_error (status_code : Z) (error_text : pystr) : pystr :=
  str "API错误 (" ++ PyStr.of_Z status_code ++ str "): " ++ take 300 error_text.

(** One iteration of [for host in GOOGLE_API_HOSTS]. *)
Definition attempt (task_id model_name : pystr) (pl : payload)
    (headers : list (pystr * pystr)) (host : pystr) : M loop_ctl :=
  let endpoint := generation_endpoint host model_name in
  try_except
    (update_task task_id (set_progress 30) ;;
     with_exit
       (response ← client_stream endpoint;
        suspend ;;
        match response with
        | ConnectFailed e => raise e
        | Response status_code chunks ending =>
          if negb (status_code =? 200) then
            error_text ← read_error_body chunks ending [];
            mret (LoopContinue (format_api_error status_code error_text))
          else
            content ← read_body task_id chunks ending [];
            update_task task_id (set_progress 95) ;;
            parse_response task_id content
        end)
       with_observation)
    (fun e => mret (LoopContinue (format_exception e))).

Fixpoint try_hosts (task_id model_name : pystr) (pl : payload)
    (headers : list (pystr * pystr)) (hosts : list pystr) (last_error : option pystr)
  : M loop_end :=
  match hosts with
  | [] => mret (Exhausted last_error)
  | host :: rest =>
    ctl ← attempt task_id model_name pl headers host;
    match ctl with
    | LoopReturn => mret Returned
    | LoopContinue e => try_hosts task_id model_name pl headers rest (Some e)
    end
  end.

(** [_execute_generation] over a given endpoint list. *)
Definition execute_generation_over (hosts : list pystr) (task_id model_name : pystr)
    (pl : payload) (headers : list (pystr * pystr)) : M unit :=
  fin ← try_hosts task_id model_name pl headers hosts None;
  match fin with
  | Returned => mret tt
  | Exhausted last_error =>
    update_task task_id (set_status failed) ;;
    update_task task_id (set_error (py_or last_error (str "所有主机都失败")))
  end.

Definition _execute_generation : pystr -> pystr -> payload -> list (pystr * pystr) -> M unit :=
  execute_generation_over GOOGLE_API_HOSTS.

(** *** GET /api/task/{task_id}, DELETE /api/task/{task_id} *)

Definition get_task_status (task_id : pystr) : M TaskStatusResponse.t :=
  ts ← gets tasks;
  match ts !! task_id with
  | None => raise (HTTPException 404 (str "任务不存在"))
  | Some task =>
    mret (TaskStatusResponse.Build task_id (status task) (progress task) (result_url task)
            (result_base64 task) (error task) (created_at task) (Some (model task)))
  end.

Definition delete_task (task_id : pystr) : M pystr :=
  ts ← gets tasks;
  match ts !! task_id with
  | None => raise (HTTPException 404 (str "任务不存在"))
  | Some _ =>
    modify (fun w => with_tasks (delete task_id (tasks w)) w) ;;
    mret (str "任务已删除")
  end.

(** *** Credential management *)

(** How [_save_api_key] can fail. [open(API_KEY_FILE, "w")] either raises and
    leaves the file alone, or truncates the file; once the file is open, an
    exception of [f.write] or of the close that ends the [with] block leaves
    the truncated file behind, empty (the key stays in the buffer until the
    close flushes it). *)
Inductive io_failure : Type :=
| OpenFailed (e : py_exc)
| WriteFailed (e : py_exc).

(** [io_error]: the failure of opening or writing the key file, if any. *)
Definition _save_api_key (key : pystr) (io_error : option io_failure) : M unit :=
  match io_error with
  | Some (OpenFailed e) => raise e
  | Some (WriteFailed e) => modify (with_key_file []) ;; raise e
  | None => modify (with_key_file key)
  end.

Definition set_api_key (request : ApiKeyRequest.t) (io_error : option io_failure)
  : M set_key_response :=
  modify (with_key (ApiKeyRequest.api_key request)) ;;
  _save_api_key (ApiKeyRequest.api_key request) io_error ;;
  mret (SetKeyResponse true (str "API密钥已设置并保存")).

Definition mask (key : pystr) : pystr :=
  if 12 <? Z.of_nat (length key)
  then PyStr.slice_to 8 key ++ str "..." ++ PyStr.slice_last 4 key
  else str "***".

Definition check_api_key : M check_key_response :=
  key ← gets user_api_key;
  let has_key := PyStr.truthy key in
  let masked_key := if PyStr.truthy key then mask key else [] in
  mret (CheckKeyResponse has_key masked_key).

(** [client.post(test_endpoint, ...)] *)
Definition client_post (endpoint : pystr) : M post_outcome := fun w =>
  (Ok (net_post (length (requests w)) endpoint), with_request endpoint w).

Definition verify_api_key (request : ApiKeyRequest.t) : M verify_response :=
  match GOOGLE_API_HOSTS !! 0%nat with
  | None => raise (Exc (str "IndexError") (str "list index out of range"))
  | Some host =>
    let test_endpoint := host ++ str "/v1beta/models/gemini-2.0-flash:generateContent" in
    try_except
      (response ← client_post test_endpoint;
       match response with
       | PostFailed e => raise e
       | PostResponse status_code text =>
         if status_code =? 200 then
           mret (VerifyResponse true (str "API密钥有效"))
         else if (status_code =? 401) || (status_code =? 403) then
           mret (VerifyResponse false (str "API密钥无效或已过期"))
         else
           mret (VerifyResponse false (str "验证失败: " ++ take 200 text))
       end)
      (fun e => mret (VerifyResponse false (str "网络错误: " ++ exc_str e)))
  end.

(* ================================================================== *)
(** ** Vocabulary of the statements *)
(* ================================================================== *)

(** *** Reference images *)

(** [s] reads data:image/<word characters>;base64,<payload>, the payload
    running up to the first line break or the end of the string, as [.+]
    consumes it. *)
Definition image_data_url (s mime data : pystr) : Prop :=
  exists subtype rest,
    s = str "data:" ++ mime ++ str ";base64," ++ data ++ rest
    /\ mime = str "image/" ++ subtype
    /\ subtype <> [] /\ Forall (fun c => word_char c = true) subtype
    /\ data <> [] /\ Forall (fun c => Re.dot c = true) data
    /\ (rest = [] \/ exists r, rest = 10%N :: r).

(** The two groups of the pattern, computed without backtracking. *)
Definition parse_data_url (s : pystr) : option (pystr * pystr) :=
  after_prefix ← PyStr.strip_prefix (str "data:image/") s;
  let subtype := PyStr.take_while word_char after_prefix in
  if PyStr.truthy subtype then
    after_marker ← PyStr.strip_prefix (str ";base64,")
                     (PyStr.drop_while word_char after_prefix);
    let data := PyStr.take_while Re.dot after_marker in
    if PyStr.truthy data then Some (str "image/" ++ subtype, data) else None
  else None.

Definition is_inline (p : part) : Prop :=
  match p with
  | InlineData _ _ => True
  | TextPart _ => False
  end.

(** *** One endpoint attempt, seen from outside *)

(** What the two read loops return, without the task table. *)
Fixpoint error_body (chunks : list pybytes) (ending : stream_end) (error_text : pystr)
  : res pystr :=
  match chunks with
  | [] =>
    match ending with
    | EndOfStream => Ok error_text
    | Broken e => Raise e
    end
  | chunk :: rest => error_body rest ending (error_text ++ decode_ignore chunk)
  end.

Fixpoint body_content (chunks : list pybytes) (ending : stream_end) (content : pybytes)
  : res pybytes :=
  match chunks with
  | [] =>
    match ending with
    | EndOfStream => Ok content
    | Broken e => Raise e
    end
  | chunk :: rest =>
    match bytes_concat content chunk with
    | Ok content' => body_content rest ending content'
    | Raise e => Raise e
    end
  end.

(** The progress written after each chunk that could be appended. *)
Fixpoint stream_progress (chunks : list pybytes) (content : pybytes) : list Z :=
  match chunks with
  | [] => []
  | chunk :: rest =>
    match bytes_concat content chunk with
    | Ok content' =>
      progress_formula (Z.of_nat (length content')) :: stream_progress rest content'
    | Raise _ => []
    end
  end.

(** How an attempt ends: with the image (and the joined text, if any), or
    with the reason recorded in [last_error]. *)
Inductive attempt_outcome : Type :=
| Succeeds (image : pystr) (thinking : option pystr)
| Fails (last_error : pystr).

(** Decoding and classification of a complete body. *)
Definition body_verdict (content : pybytes) : res verdict :=
  data ← json_loads content;
  classify data.

Definition attempt_result (o : net_outcome) : res attempt_outcome :=
  match o with
  | ConnectFailed e => Raise e
  | Response status_code chunks ending =>
    if negb (status_code =? 200) then
      error_text ← error_body chunks ending [];
      mret (Fails (format_api_error status_code error_text))
    else
      content ← body_content chunks ending [];
      v ← body_verdict content;
      match v with
      | Image image text_response =>
        thinking ← join_thinking text_response;
        mret (Succeeds image thinking)
      | NoImage last_error => mret (Fails last_error)
      end
  end.

(** The classification of a response; an exception anywhere in the attempt
    is a failure whose reason is the formatted exception. *)
Definition response_outcome (o : net_outcome) : attempt_outcome :=
  match attempt_result o with
  | Ok r => r
  | Raise e => Fails (format_exception e)
  end.

Definition attempt_fails (o : net_outcome) : Prop :=
  exists last_error, response_outcome o = Fails last_error.

(** The image the parser found in a 200 response, whether or not the attempt
    went on to succeed. *)
Definition found_image (o : net_outcome) : option pystr :=
  match o with
  | ConnectFailed _ => None
  | Response status_code chunks ending =>
    if negb (status_code =? 200) then None
    else match body_content chunks ending [] ≫= body_verdict with
         | Ok (Image image _) => Some image
         | _ => None
         end
  end.

Definition ctl_of (r : attempt_outcome) : loop_ctl :=
  match r with
  | Succeeds _ _ => LoopReturn
  | Fails last_error => LoopContinue last_error
  end.

(** *** The job, seen by a poller *)

(** The answer to a poll that arrives when the task table is [ts]. *)
Definition poll (task_id : pystr) (w : world) (ts : gmap pystr task)
  : res TaskStatusResponse.t :=
  fst (get_task_status task_id (with_tasks ts w)).

(** The answers a poller can get during and after a run that ends in [w]:
    one per suspension of the job, then the final table. *)
Definition polls (task_id : pystr) (w : world) : list (res TaskStatusResponse.t) :=
  map (poll task_id w) (observable w ++ [tasks w]).

Definition polled_progress (task_id : pystr) (w : world) : list Z :=
  omap (fun r => match r with
                 | Ok resp => Some (TaskStatusResponse.progress resp)
                 | Raise _ => None
                 end) (polls task_id w).

Definition nondecreasing (l : list Z) : Prop :=
  forall (i j : nat) (a b : Z), (i <= j)%nat -> l !! i = Some a -> l !! j = Some b -> a <= b.

(** *** Bookkeeping for the proofs *)

(** The world after a stretch of the job that left the record [t'], contacted
    [reqs] and was suspended on the snapshots [snaps] of the record. *)
Definition evolve (task_id : pystr) (w : world) (t' : task) (reqs : list pystr)
    (snaps : list task) : world :=
  World (user_api_key w) (api_key_file w) (<[task_id := t']> (tasks w)) (scheduled w)
        (requests w ++ reqs)
        (observable w ++ map (fun tk => <[task_id := tk]> (tasks w)) snaps).

(** [m], started when the record is [t] and [k] requests have been sent,
    ends with [r], leaving the record [t']. *)
Definition runs {A} (task_id : pystr) (k : nat) (m : M A) (t : task) (r : res A)
    (t' : task) (reqs : list pystr) (snaps : list task) : Prop :=
  forall w, tasks w !! task_id = Some t -> length (requests w) = k ->
            m w = (r, evolve task_id w t' reqs snaps).

(** The fields the job never writes. *)
Definition same_request (t t' : task) : Prop :=
  created_at t' = created_at t /\ prompt t' = prompt t /\ model t' = model t
  /\ result_url t' = result_url t.


(* ================================================================== *)
(** ** The remaining handlers *)
(* ================================================================== *)

(** *** The key file at start-up *)

(** Text read with [open(path, "r")]: universal newlines turns "\r\n" and a
    lone "\r" into "\n". *)
Fixpoint universal_newlines (s : pystr) : pystr :=
  match s with
  | [] => []
  | c :: rest =>
    if (c =? 13)%N then
      10%N :: match rest with
              | [] => []
              | d :: rest' =>
                if (d =? 10)%N then universal_newlines rest' else universal_newlines rest
              end
    else c :: universal_newlines rest
  end.

(** [_load_api_key()]. [file] is the text held by the key file when the file
    exists (as [_save_api_key] wrote it, where the line separator is "\n"),
    [env] the value of NANOBANANA_API_KEY when it is set. *)
Definition _load_api_key (file : option pystr) (env : option pystr) : pystr :=
  match file with
  | Some written => PyStr.strip (universal_newlines written)
  | None => default [] env
  end.

(** The module globals when the process starts: [user_api_key =
    _load_api_key()] and [tasks = {}]. *)
Definition initial_world (file : option pystr) (env : option pystr) : world :=
  World (_load_api_key file env) file ∅ [] [] [].

(** *** POST /api/upload-reference *)

(** [base64.b64encode(content).decode("utf-8")] *)
Definition b64_char (i : N) : N :=
  (if i <? 26 then 65 + i
   else if i <? 52 then 97 + (i - 26)
   else if i <? 62 then 48 + (i - 52)
   else if i =? 62 then 43 else 47)%N.

Fixpoint b64_groups (bs : list N) : pystr :=
  match bs with
  | [] => []
  | [a] => [b64_char (a / 4); b64_char (a mod 4 * 16); 61; 61]%N
  | [a; b] =>
    [b64_char (a / 4); b64_char (a mod 4 * 16 + b / 16); b64_char (b mod 16 * 4); 61]%N
  | a :: b :: c :: rest =>
    [b64_char (a / 4); b64_char (a mod 4 * 16 + b / 16);
     b64_char (b mod 16 * 4 + c / 64); b64_char (c mod 64)]%N ++ b64_groups rest
  end.

Definition b64encode (content : pybytes) : pystr := b64_groups (map Byte.to_N content).

(** The fields of [UploadFile] the handler reads. *)
Record upload_file : Type := UploadFile {
  filename : option pystr;
  content_type : option pystr;
  file_content : pybytes
}.

Record upload_response : Type := UploadResponse {
  up_filename : option pystr;
  up_content_type : pystr;
  up_size : Z;
  up_base64 : pystr
}.

Definition upload_reference_image (file : upload_file) : res upload_response :=
  match content_type file with
  | None =>
    Raise (Json.attribute_error JNull (str "startswith"))
  | Some ctype =>
    if negb (PyStr.startswith (str "image/") ctype) then
      Raise (HTTPException 400 (str "只支持图片文件"))
    else
      let content := file_content file in
      if 10 * 1024 * 1024 <? Z.of_nat (length content) then
        Raise (HTTPException 400 (str "文件大小不能超过10MB"))
      else
        let base64_data := b64encode content in
        Ok (UploadResponse (filename file) ctype (Z.of_nat (length content))
                           (str "data:" ++ ctype ++ str ";base64," ++ base64_data))
  end.

(** *** GET /api/tasks *)

(** [a < b] on [str]: lexicographic on code points. *)
Fixpoint str_lt (a b : pystr) : bool :=
  match a, b with
  | _, [] => false
  | [], _ :: _ => true
  | x :: a', y :: b' =>
    if (x <? y)%N then true else if (y <? x)%N then false else str_lt a' b'
  end.

(** [sorted(items, key=..., reverse=True)]: the sort is stable, so entries
    with equal keys keep the order they had. *)
Fixpoint insert_by_key_desc {A} (key : A -> pystr) (x : A) (l : list A) : list A :=
  match l with
  | [] => [x]
  | y :: rest =>
    if str_lt (key x) (key y) then y :: insert_by_key_desc key x rest else x :: l
  end.

Definition sorted_reverse {A} (key : A -> pystr) (items : list A) : list A :=
  fold_right (insert_by_key_desc key) [] items.

(** [a] may stand before [b] in a list sorted with [reverse=True]: its key
    is not the smaller one. *)
Definition not_older {A} (key : A -> pystr) (a b : A) : Prop :=
  str_lt (key a) (key b) = false.

Fixpoint descending {A} (key : A -> pystr) (l : list A) : Prop :=
  match l with
  | [] => True
  | x :: rest => Forall (not_older key x) rest /\ descending key rest
  end.

(** [l[:stop]] for an [int] stop of either sign. *)
Definition slice_stop {A} (stop : Z) (l : list A) : list A :=
  if 0 <=? stop then take (Z.to_nat stop) l
  else take (length l - Z.to_nat (- stop)) l.

Record task_summary : Type := TaskSummary {
  ts_task_id : pystr;
  ts_status : job_status;
  ts_progress : Z;
  ts_result_url : option pystr;
  ts_prompt : pystr;
  ts_created_at : pystr
}.

Definition summary_of (item : pystr * task) : task_summary :=
  TaskSummary (fst item) (status (snd item)) (progress (snd item)) (result_url (snd item))
              (PyStr.slice_to 50 (prompt (snd item))) (created_at (snd item)).

(** [list_tasks(limit)]. [items] is [tasks.items()]: the entries of the
    table in the order of their insertion, which the finite map of [world]
    does not record. *)
Definition list_tasks (items : list (pystr * task)) (limit : Z) : list task_summary :=
  let sorted_tasks := slice_stop limit (sorted_reverse (fun x => created_at (snd x)) items) in
  map summary_of sorted_tasks.

(** *** The single-page front end *)

(** [s.endswith(suffix)] *)
Definition endswith (suffix s : pystr) : bool := PyStr.startswith (rev suffix) (rev s).

(** [os.path.join(a, b)] of [posixpath]. *)
Definition path_join (a b : pystr) : pystr :=
  if PyStr.startswith (str "/") b then b
  else if negb (PyStr.truthy a) || endswith (str "/") a then a ++ b
  else a ++ str "/" ++ b.

(** [serve_spa(full_path)]: the path handed to [FileResponse]. [isfile] is
    [os.path.isfile] on the machine the service runs on. *)
Definition serve_spa (FRONTEND_DIR : pystr) (isfile : pystr -> bool) (full_path : pystr)
  : res pystr :=
  if PyStr.startswith (str "api") full_path then
    Raise (HTTPException 404 (str "Not Found"))
  else
    let file_path := path_join FRONTEND_DIR full_path in
    if isfile file_path then Ok file_path
    else Ok (path_join FRONTEND_DIR (str "index.html")).

(** *** Endpoints that deliver no body *)

(** The endpoint cannot be reached, or answers with a status other than
    200. *)
Definition refused (o : net_outcome) : Prop :=
  match o with
  | ConnectFailed _ => True
  | Response status_code _ _ => status_code <> 200
  end.

(** *** A scheduled job, when the event loop runs it *)

Definition run_job (j : job) : M unit :=
  _execute_generation (job_task_id j) (job_model_name j) (job_payload j) (job_headers j).
(** *** Credential *)

(** The round trip as the specification words it: after [set_api_key] the
    check reports a key, the mask of a secret longer than 12 characters is
    first 8 + "..." + last 4 and does not contain the secret, and a shorter
    secret is shown as the placeholder. *)
Definition credential_round_trip_claim (secret : pystr) : Prop :=
  forall (io_error : option io_failure) (w : world),
    let w1 := snd (set_api_key (ApiKeyRequest.Build secret) io_error w) in
    exists masked,
      fst (check_api_key w1) = Ok (CheckKeyResponse true masked)
      /\ ((12 < length secret)%nat ->
          masked = take 8 secret ++ str "..." ++ PyStr.slice_last 4 secret
          /\ ~ PyStr.substring secret masked)
      /\ ((length secret <= 12)%nat -> masked = str "***").

(** The URL [verify_api_key] probes: the first entry of the endpoint list. *)
Definition probe_endpoint : pystr :=
  default [] (head GOOGLE_API_HOSTS) ++ str "/v1beta/models/gemini-2.0-flash:generateContent".

(** *** Submission *)

(** The record [generate_image] creates. *)
Definition submitted_task (request : GenerateRequest.t) (now model_name : pystr) : task :=
  Task processing 10 None None None now (GenerateRequest.prompt request) model_name None.

(** *** The record after a successful attempt *)

(** The three writes of the success branch, and [thinking] when there is
    text. *)
Definition completed_with (image : pystr) (joined : option pystr) (t : task) : task :=
  let t' := set_result_base64 image (set_progress 100 (set_status completed t)) in
  match joined with
  | Some j => set_thinking j t'
  | None => t'
  end.

(** What the loop over the endpoints returns and how many endpoints it
    contacts, read off the classification of the responses; [k] requests were
    sent before. *)
Fixpoint loop_result (model_name : pystr) (k : nat) (hosts : list pystr)
    (last_error : option pystr) : loop_end :=
  match hosts with
  | [] => Exhausted last_error
  | host :: rest =>
    match response_outcome (net_stream k (generation_endpoint host model_name)) with
    | Succeeds _ _ => Returned
    | Fails e => loop_result model_name (S k) rest (Some e)
    end
  end.

Fixpoint attempted (model_name : pystr) (k : nat) (hosts : list pystr) : nat :=
  match hosts with
  | [] => 0
  | host :: rest =>
    match response_outcome (net_stream k (generation_endpoint host model_name)) with
    | Succeeds _ _ => 1
    | Fails _ => S (attempted model_name (S k) rest)
    end
  end.

(** The progress values seen during one attempt: they start at 30, stay
    within 30..100 and never go down. *)
Definition attempt_trace_ok (seg : list Z) : Prop :=
  head seg = Some 30 /\ Forall (fun p => 30 <= p <= 100) seg /\ nondecreasing seg.

(** *** Inline parts of a response *)

(** The data URL built from a part that has the key [inlineData]. *)
Definition inline_image (part : json) : res pystr :=
  inline_data ← getitem part (str "inlineData");
  mime_type ← Json.get inline_data (str "mimeType") (JStr (str "image/png"));
  base64_data ← Json.get inline_data (str "data") (JStr []);
  _ ← Json.len base64_data;
  mret (str "data:" ++ py_str mime_type ++ str ";base64," ++ py_str base64_data).

(** A response document with one candidate holding the given parts. *)
Definition single_candidate (content_parts : list json) : json :=
  JObj [(str "candidates",
         JArr [JObj [(str "content", JObj [(str "parts", JArr content_parts)])]])].

(** [data] is a response whose first candidate holds the parts
    [content_parts]: an object with a non-empty list under "candidates", the
    first element of which is an object with an object under "content" that
    has a list under "parts". The other keys of the three objects, and the
    candidates after the first, are free. *)
Definition first_candidate_parts (data : json) (content_parts : list json) : Prop :=
  exists fields candidate_fields others content_fields,
    data = JObj fields
    /\ Json.lookup (str "candidates") fields = Some (JArr (JObj candidate_fields :: others))
    /\ Json.lookup (str "content") candidate_fields = Some (JObj content_fields)
    /\ Json.lookup (str "parts") content_fields = Some (JArr content_parts).

(** *** The task record along a run *)

(** What [parse_response] returns and the record it leaves. When joining the
    text raises, the three writes of the success branch have already been
    made. *)
Definition parse_outcome (content : pybytes) : res loop_ctl :=
  v ← body_verdict content;
  match v with
  | Image image text_response =>
    _ ← join_thinking text_response;
    mret LoopReturn
  | NoImage last_error => mret (LoopContinue last_error)
  end.

Definition parse_task (content : pybytes) (t : task) : task :=
  match body_verdict content with
  | Ok (Image image text_response) =>
    completed_with image
      (match join_thinking text_response with
       | Ok joined => joined
       | Raise _ => None
       end) t
  | _ => t
  end.

(** The record one attempt leaves, and the snapshots of the record at the
    suspensions of the attempt: after the request is sent, before each read,
    and on leaving the [async with] blocks. *)
Definition attempt_task (o : net_outcome) (t : task) : task :=
  let t30 := set_progress 30 t in
  match o with
  | ConnectFailed _ => t30
  | Response status_code chunks ending =>
    if negb (status_code =? 200) then t30
    else match body_content chunks ending [] with
         | Ok content => parse_task content (set_progress 95 t30)
         | Raise _ => set_progress (List.last (30 :: stream_progress chunks []) 30) t30
         end
  end.

Definition read_snaps (o : net_outcome) (t30 : task) : list task :=
  match o with
  | ConnectFailed _ => []
  | Response status_code chunks ending =>
    if negb (status_code =? 200) then repeat t30 (S (length chunks))
    else map (fun p => set_progress p t30) (30 :: stream_progress chunks [])
  end.

Definition attempt_snaps (o : net_outcome) (t : task) : list task :=
  let t30 := set_progress 30 t in
  t30 :: read_snaps o t30 ++ [attempt_task o t].

(** The record after the loop over the endpoints, and the snapshots of each
    attempt made. *)
Fixpoint loop_task (model_name : pystr) (k : nat) (hosts : list pystr) (t : task) : task :=
  match hosts with
  | [] => t
  | host :: rest =>
    let o := net_stream k (generation_endpoint host model_name) in
    match response_outcome o with
    | Succeeds _ _ => attempt_task o t
    | Fails _ => loop_task model_name (S k) rest (attempt_task o t)
    end
  end.

Fixpoint loop_segments (model_name : pystr) (k : nat) (hosts : list pystr) (t : task)
  : list (list task) :=
  match hosts with
  | [] => []
  | host :: rest =>
    let o := net_stream k (generation_endpoint host model_name) in
    attempt_snaps o t ::
    match response_outcome o with
    | Succeeds _ _ => []
    | Fails _ => loop_segments model_name (S k) rest (attempt_task o t)
    end
  end.

(** The record when [_execute_generation] is over. *)
Definition final_task (model_name : pystr) (k : nat) (hosts : list pystr) (t : task) : task :=
  let t' := loop_task model_name k hosts t in
  match loop_result model_name k hosts None with
  | Returned => t'
  | Exhausted last_error =>
    set_error (py_or last_error (str "所有主机都失败")) (set_status failed t')
  end.

(** A list that never goes down and starts at or above [lo]. *)
Fixpoint ascending (lo : Z) (l : list Z) : Prop :=
  match l with
  | [] => True
  | x :: rest => lo <= x /\ ascending x rest
  end.

(** The answer [get_task_status] builds from a record. *)
Definition snapshot_of (task_id : pystr) (t : task) : TaskStatusResponse.t :=
  TaskStatusResponse.Build task_id (status t) (progress t) (result_url t)
    (result_base64 t) (error t) (created_at t) (Some (model t)).

(** The progress values polls could read before a run started. *)
Definition seen_before (task_id : pystr) (w : world) : list Z :=
  omap (fun ts : gmap pystr task => progress <$> ts !! task_id) (observable w).

(** One round of the loop over the parts. *)
Definition scan_step (part : json) (image_data : option pystr) (text_response : list json)
  : res (option pystr * list json) :=
  has_inline ← Json.contains (str "inlineData") part;
  if has_inline : bool then
    image ← inline_image part;
    mret (Some image, text_response)
  else
    has_text ← Json.contains (str "text") part;
    if has_text : bool then
      text ← getitem part (str "text");
      mret (image_data, text_response ++ [text])
    else mret (image_data, text_response).


(** *** The progress invariant as the specification words it *)

(** For a finished run [w']: the progress read by the polls never goes down,
    and the final progress is 100 exactly when the job is completed. *)
Definition progress_claim (task_id : pystr) (w' : world) : Prop :=
  nondecreasing (polled_progress task_id w')
  /\ forall t', tasks w' !! task_id = Some t' ->
                (progress t' = 100 <-> status t' = completed).

(* ================================================================== *)
(** ** A small platform for the examples *)
(* ================================================================== *)

(** The examples run the handlers on a platform cut down to what they
    exchange: ASCII text, a handful of response bodies, and mirrors that each
    answer in one fixed way. *)

(** No alphanumeric character beyond ASCII is needed. *)
Definition example_alnum (c : N) : bool := false.

(** Lenient decoding of ASCII bytes. *)
Definition example_decode (chunk : pybytes) : pystr := map Byte.to_N chunk.

(** [repr] of a decoded value; the strings of the examples need no escape
    and no float occurs in them. *)
Fixpoint example_repr (v : json) : pystr :=
  match v with
  | JNull => str "None"
  | JBool b => if b then str "True" else str "False"
  | JInt z => PyStr.of_Z z
  | JFloat _ => str "nan"
  | JStr s => str "'" ++ s ++ str "'"
  | JArr items => str "[" ++ PyStr.join (str ", ") (map example_repr items) ++ str "]"
  | JObj fields =>
    str "{"
    ++ PyStr.join (str ", ")
         (map (fun kv => match kv with
                         | (k, x) => str "'" ++ k ++ str "': " ++ example_repr x
                         end) fields)
    ++ str "}"
  end.

(** A body, written with ['] where JSON has the double quote. *)
Definition body (s : string) : pybytes :=
  map (fun b => if Byte.eqb b Byte.x27 then Byte.x22 else b) (list_byte_of_string s).

Definition body_image : pybytes :=
  body "{'candidates': [{'content': {'parts': [{'inlineData': {'mimeType': 'image/png', 'data': 'QUJD'}}]}}]}".

Definition body_text : pybytes :=
  body "{'candidates': [{'content': {'parts': [{'text': 'I cannot draw that.'}]}}]}".

Definition body_two_images : pybytes :=
  body "{'candidates': [{'content': {'parts': [{'inlineData': {'mimeType': 'image/png', 'data': 'QUJD'}}, {'text': 'second try'}, {'inlineData': {'mimeType': 'image/jpeg', 'data': 'REVG'}}, {'text': 'done'}]}}]}".

Definition body_empty_image : pybytes :=
  body "{'candidates': [{'content': {'parts': [{'inlineData': {'mimeType': 'image/webp'}}]}}]}".

Definition body_blocked : pybytes :=
  body "{'promptFeedback': {'blockReason': 'SAFETY'}}".

Definition inline_part (mime : pystr) (data : list (pystr * json)) : json :=
  JObj [(str "inlineData", JObj ((str "mimeType", JStr mime) :: data))].

Definition text_part (text : pystr) : json := JObj [(str "text", JStr text)].

Definition example_documents : list (pybytes * json) :=
  [ (body_image,
     single_candidate [inline_part (str "image/png") [(str "data", JStr (str "QUJD"))]]);
    (body_text, single_candidate [text_part (str "I cannot draw that.")]);
    (body_two_images,
     single_candidate
       [inline_part (str "image/png") [(str "data", JStr (str "QUJD"))];
        text_part (str "second try");
        inline_part (str "image/jpeg") [(str "data", JStr (str "REVG"))];
        text_part (str "done")]);
    (body_empty_image, single_candidate [inline_part (str "image/webp") []]);
    (body_blocked,
     JObj [(str "promptFeedback", JObj [(str "blockReason", JStr (str "SAFETY"))])]) ].

Fixpoint bytes_eqb (a b : pybytes) : bool :=
  match a, b with
  | [], [] => true
  | x :: a', y :: b' => Byte.eqb x y && bytes_eqb a' b'
  | _, _ => false
  end.

(** The decoder on the bodies above; it rejects everything else. *)
Definition example_json_loads (content : pybytes) : res json :=
  match find (fun entry => bytes_eqb content (fst entry)) example_documents with
  | Some entry => Ok (snd entry)
  | None =>
    Raise (Exc (str "JSONDecodeError") (str "Expecting value: line 1 column 1 (char 0)"))
  end.

(** Mirrors, each with one behaviour: the name of the host says which. *)
Definition mirror (name : string) : pystr := str "https://" ++ str name ++ str ".example".

Definition padding (n : Z) : pybytes := repeat Byte.x20 (Z.to_nat n).

Definition served_by (name : string) (url : pystr) : bool :=
  PyStr.startswith (mirror name) url.

Definition example_stream (k : nat) (url : pystr) : net_outcome :=
  if served_by "image" url then
    Response 200 [take 40 body_image; drop 40 body_image] EndOfStream
  else if served_by "text" url then Response 200 [body_text] EndOfStream
  else if served_by "two-images" url then Response 200 [body_two_images] EndOfStream
  else if served_by "empty-image" url then Response 200 [body_empty_image] EndOfStream
  else if served_by "blocked" url then Response 200 [body_blocked] EndOfStream
  else if served_by "busy" url then
    Response 503 [list_byte_of_string "Service "; list_byte_of_string "Unavailable"]
             EndOfStream
  else if served_by "stalled" url then
    Response 200 [padding 20000; padding 40000]
             (Broken (Exc (str "ReadTimeout") (str "The read operation timed out")))
  else ConnectFailed (Exc (str "ConnectError") (str "All connection attempts failed")).

Definition example_post (k : nat) (url : pystr) : post_outcome :=
  PostResponse 200 (str "{}").

Definition example_task : task :=
  Task processing 10 None None None (str "2025-01-01T00:00:00") (str "a banana")
       (str "gemini-3-pro-image-preview") None.

Definition example_world : world :=
  World (str "AIzaSyExampleKey0123456789") None {[ str "job-1" := example_task ]} [] [] [].

Definition example_request : GenerateRequest.t :=
  GenerateRequest.Build (str "a banana") None (str "nano-banana-pro")
    (Some [str "data:image/png;base64,QUJD"; str "data:image/jpeg;base64,REVG"]) None.

Definition example_headers : list (pystr * pystr) :=
  [(str "Content-Type", str "application/json")].

Definition example_upload : upload_file :=
  UploadFile (Some (str "banana.png")) (Some (str "image/png")) (list_byte_of_string "ABC").

Definition two_candidates : list (pystr * json) :=
  [ (str "promptFeedback", JObj [(str "blockReason", JStr (str "SAFETY"))]);
    (str "candidates",
     JArr [ JObj [(str "content", JObj [(str "parts", JArr [text_part (str "no")])])];
            JObj [(str "content",
                   JObj [(str "parts",
                          JArr [inline_part (str "image/png")
                                            [(str "data", JStr (str "QUJD"))]])])] ]) ].

(** A body whose text part holds a number, and a platform that serves it. *)
Definition body_number_text : pybytes :=
  body "{'candidates': [{'content': {'parts': [{'inlineData': {'mimeType': 'image/png', 'data': 'QUJD'}}, {'text': 5}]}}]}".

Definition number_text_json_loads (content : pybytes) : res json :=
  if bytes_eqb content body_number_text then
    Ok (single_candidate
          [inline_part (str "image/png") [(str "data", JStr (str "QUJD"))];
           JObj [(str "text", JInt 5)]])
  else example_json_loads content.

Definition number_text_stream (k : nat) (url : pystr) : net_outcome :=
  if served_by "number-text" url then Response 200 [body_number_text] EndOfStream
  else example_stream k url.

(** *** The request builder as the specification words it *)

(** A well-formed image data URL (RFC 2397):
    data:image/<subtype>;base64,<payload>, the subtype a media-type name
    (RFC 6838: letters, digits and ! # $ & - ^ _ . +) and the payload a
    non-empty Base64 text. *)
Definition subtype_char (c : N) : bool :=
  PyStr.is_ascii_alnum c
  || existsb (N.eqb c) [33; 35; 36; 38; 45; 94; 95; 46; 43]%N.

Definition base64_char (c : N) : bool :=
  PyStr.is_ascii_alnum c || existsb (N.eqb c) [43; 47; 61]%N.

Definition well_formed_image_data_url (s mime data : pystr) : Prop :=
  exists subtype,
    s = str "data:" ++ mime ++ str ";base64," ++ data
    /\ mime = str "image/" ++ subtype
    /\ subtype <> [] /\ Forall (fun c => subtype_char c = true) subtype
    /\ data <> [] /\ Forall (fun c => base64_char c = true) data.

(** Two well-formed reference images [A; B] and the prompt T give the parts
    [B inline; A inline; T]. *)
Definition request_builder_claim : Prop :=
  forall (request : GenerateRequest.t) (A B mimeA dataA mimeB dataB : pystr),
    GenerateRequest.reference_images request = Some [A; B] ->
    well_formed_image_data_url A mimeA dataA ->
    well_formed_image_data_url B mimeB dataB ->
    build_payload request =
    Payload [Content [InlineData mimeB dataB; InlineData mimeA dataA;
                      TextPart (GenerateRequest.prompt request)]].

(** An SVG and a PNG. *)
Definition svg_request : GenerateRequest.t :=
  GenerateRequest.Build (str "a banana") None (str "nano-banana-pro")
    (Some [str "data:image/svg+xml;base64,PHN2Zy8+"; str "data:image/png;base64,QUJD"])
    None.

(** A response as the service sends it, with a role, a finish reason and
    usage data; and a response whose inline part has no [data] and whose
    text part holds a number. *)
Definition body_full : pybytes :=
  body "{'candidates': [{'content': {'role': 'model', 'parts': [{'inlineData': {'mimeType': 'image/png', 'data': 'QUJD'}}, {'text': 'second try'}, {'inlineData': {'mimeType': 'image/jpeg', 'data': 'REVG'}}, {'text': 'done'}]}, 'finishReason': 'STOP', 'index': 0}], 'usageMetadata': {'totalTokenCount': 7}, 'modelVersion': 'gemini-3-pro-image-preview'}".

Definition full_parts : list json :=
  [inline_part (str "image/png") [(str "data", JStr (str "QUJD"))];
   text_part (str "second try");
   inline_part (str "image/jpeg") [(str "data", JStr (str "REVG"))];
   text_part (str "done")].

Definition full_document : json :=
  JObj [ (str "candidates",
          JArr [JObj [ (str "content",
                        JObj [(str "role", JStr (str "model"));
                              (str "parts", JArr full_parts)]);
                       (str "finishReason", JStr (str "STOP"));
                       (str "index", JInt 0) ]]);
         (str "usageMetadata", JObj [(str "totalTokenCount", JInt 7)]);
         (str "modelVersion", JStr (str "gemini-3-pro-image-preview")) ].

Definition body_no_data_number_text : pybytes :=
  body "{'candidates': [{'content': {'parts': [{'inlineData': {'mimeType': 'image/webp'}}, {'text': 5}]}}]}".

Definition extended_json_loads (content : pybytes) : res json :=
  if bytes_eqb content body_full then Ok full_document
  else if bytes_eqb content body_no_data_number_text then
    Ok (single_candidate [inline_part (str "image/webp") []; JObj [(str "text", JInt 5)]])
  else number_text_json_loads content.

Definition extended_stream (k : nat) (url : pystr) : net_outcome :=
  if served_by "full" url then Response 200 [body_full] EndOfStream
  else number_text_stream k url.

(** The two endpoints of the service: the first answers with an image and
    a number as text, the second with two images; and a service both
    endpoints of which answer with an inline part without [data] and a
    number as text. *)
Definition number_then_images_stream (k : nat) (url : pystr) : net_outcome :=
  match k with
  | O => Response 200 [body_number_text] EndOfStream
  | S _ => Response 200 [body_two_images] EndOfStream
  end.

Definition no_data_stream (k : nat) (url : pystr) : net_outcome :=
  Response 200 [body_no_data_number_text] EndOfStream.
(* ================================================================== *)
(** ** The progress estimate in binary64 *)
(* ================================================================== *)

Lemma digits2_pos_bounds (p : positive) :
  2 ^ (Zpos (digits2_pos p) - 1) <= Zpos p < 2 ^ Zpos (digits2_pos p).
Proof.
  induction p as [p IH | p IH |]; simpl digits2_pos.
  - rewrite Pos2Z.inj_succ. replace (Z.succ (Zpos (digits2_pos p)) - 1) with (Zpos (digits2_pos p)) by lia.
    rewrite Z.pow_succ_r by lia.
    assert (2 ^ Zpos (digits2_pos p) = 2 * 2 ^ (Zpos (digits2_pos p) - 1)) as E.
    { rewrite <- Z.pow_succ_r by lia. f_equal. lia. }
    lia.
  - rewrite Pos2Z.inj_succ. replace (Z.succ (Zpos (digits2_pos p)) - 1) with (Zpos (digits2_pos p)) by lia.
    rewrite Z.pow_succ_r by lia.
    assert (2 ^ Zpos (digits2_pos p) = 2 * 2 ^ (Zpos (digits2_pos p) - 1)) as E.
    { rewrite <- Z.pow_succ_r by lia. f_equal. lia. }
    lia.
  - simpl. lia.
Qed.

Lemma Zdigits2_unique (p : positive) (k : Z) :
  2 ^ (k - 1) <= Zpos p < 2 ^ k -> Zdigits2 (Zpos p) = k.
Proof.
  intros [Hlo Hhi]. simpl.
  pose proof (digits2_pos_bounds p) as [Dlo Dhi].
  set (d := Zpos (digits2_pos p)) in *.
  assert (0 < k) as Hk.
  { destruct (Z.le_gt_cases k 0) as [Hk0|]; [|lia].
    assert (2 ^ k <= 1); [|lia].
    destruct (Z.eq_dec k 0) as [->|]; [simpl; lia | rewrite Z.pow_neg_r; lia]. }
  destruct (Z.lt_trichotomy d k) as [H | [H | H]]; [|done|].
  - assert (2 ^ d <= 2 ^ (k - 1)) by (apply Z.pow_le_mono_r; lia). lia.
  - assert (2 ^ k <= 2 ^ (d - 1)) by (apply Z.pow_le_mono_r; lia). lia.
Qed.

Lemma shr_1_m (r : shr_record) :
  0 <= shr_m r -> shr_m (shr_1 r) = shr_m r / 2.
Proof.
  destruct r as [m rb sb]; cbn [shr_m]. intros Hm.
  destruct m as [|[p|p|]|p]; cbn [shr_1 shr_m]; [reflexivity| | |reflexivity|lia].
  - apply Z.div_unique with (r := 1); lia.
  - apply Z.div_unique with (r := 0); lia.
Qed.

Lemma iter_shr_1_m (k : positive) : forall r,
  0 <= shr_m r -> shr_m (SpecFloat.iter_pos shr_1 k r) = shr_m r / 2 ^ Zpos k.
Proof.
  assert (forall r, 0 <= shr_m r -> 0 <= shr_m (shr_1 r)) as Hnn.
  { intros r Hr. rewrite shr_1_m by done. apply Z.div_pos; lia. }
  induction k as [k IH | k IH |]; intros r Hr; cbn [SpecFloat.iter_pos].
  - rewrite IH, IH, shr_1_m; auto.
    + rewrite !Z.div_div by (try apply Z.pow_pos_nonneg; lia).
      f_equal. rewrite Pos2Z.inj_xI. rewrite <- Z.pow_add_r by lia.
      rewrite <- (Z.pow_1_r 2) at 1. rewrite <- Z.pow_add_r by lia. f_equal. lia.
    + rewrite IH by auto. apply Z.div_pos; [auto | apply Z.pow_pos_nonneg; lia].
  - rewrite IH, IH; auto.
    + rewrite !Z.div_div by (try apply Z.pow_pos_nonneg; lia).
      f_equal. rewrite Pos2Z.inj_xO. rewrite <- Z.pow_add_r by lia. f_equal. lia.
    + rewrite IH by auto. apply Z.div_pos; [auto | apply Z.pow_pos_nonneg; lia].
  - rewrite shr_1_m by done. done.
Qed.

Lemma shr_record_of_loc_m m l : shr_m (shr_record_of_loc m l) = m.
Proof. destruct l as [|[]]; reflexivity. Qed.

Lemma shr_fexp_normal (p : positive) (e : Z) (l : location) :
  let d := Zpos (digits2_pos p) in
  53 <= d -> -1074 <= d + e - 53 ->
  exists mrs, shr_fexp 53 1024 (Zpos p) e l = (mrs, e + (d - 53))
              /\ shr_m mrs = Zpos p / 2 ^ (d - 53).
Proof.
  intros d Hd He. unfold shr_fexp. cbn [Zdigits2]. fold d.
  assert (fexp 53 1024 (d + e) = d + e - 53) as ->. { unfold fexp, emin. lia. }
  replace (d + e - 53 - e) with (d - 53) by lia.
  unfold shr. destruct (d - 53) as [|k|k] eqn:Hk; try lia.
  - eexists; split; [f_equal; lia|]. rewrite shr_record_of_loc_m. cbn. rewrite Z.div_1_r. done.
  - eexists; split; [reflexivity|].
    rewrite iter_shr_1_m, shr_record_of_loc_m; [done|]. rewrite shr_record_of_loc_m; lia.
Qed.

Lemma round_nearest_even_bounds m l : m <= round_nearest_even m l <= m + 1.
Proof. unfold round_nearest_even. destruct l as [|[]]; try destruct (Z.even m); lia. Qed.

Lemma pow2_split (a b : Z) : 0 <= a -> 0 <= b -> 2 ^ (a + b) = 2 ^ a * 2 ^ b.
Proof. intros. apply Z.pow_add_r; lia. Qed.

Lemma top_bits (p : positive) :
  let d := Zpos (digits2_pos p) in
  53 <= d -> 2 ^ 52 <= Zpos p / 2 ^ (d - 53) < 2 ^ 53.
Proof.
  intros d Hd. pose proof (digits2_pos_bounds p) as [Lo Hi]. fold d in Lo, Hi.
  assert (0 < 2 ^ (d - 53)) by (apply Z.pow_pos_nonneg; lia).
  assert (2 ^ d = 2 ^ (d - 53) * 2 ^ 53) as E1.
  { rewrite <- Z.pow_add_r by lia. f_equal. lia. }
  assert (2 ^ (d - 1) = 2 ^ (d - 53) * 2 ^ 52) as E2.
  { rewrite <- Z.pow_add_r by lia. f_equal. lia. }
  split.
  - apply Z.div_le_lower_bound; lia.
  - apply Z.div_lt_upper_bound; lia.
Qed.

Lemma binary_round_aux_normal (p : positive) (ex : Z) (lx : location) :
  let d := Zpos (digits2_pos p) in
  53 <= d -> -1074 <= d + ex - 53 -> d + ex - 53 + 1 <= 971 ->
  exists (m : positive) (j : Z),
    binary_round_aux 53 1024 false (Zpos p) ex lx = S754_finite false m (ex + (d - 53) + j)
    /\ 0 <= j <= 1 /\ 2 ^ 52 <= Zpos m < 2 ^ 53
    /\ Zpos p / 2 ^ (d - 53) <= Zpos m * 2 ^ j.
Proof.
  intros d Hd Hlo Hhi. unfold binary_round_aux.
  destruct (shr_fexp_normal p ex lx Hd Hlo) as (mrs & -> & Hm). fold d in Hm |- *.
  pose proof (top_bits p Hd) as Htop. fold d in Htop. rewrite <- Hm in Htop.
  pose proof (round_nearest_even_bounds (shr_m mrs) (loc_of_shr_record mrs)) as Hr.
  set (m1 := round_nearest_even (shr_m mrs) (loc_of_shr_record mrs)) in *.
  destruct m1 as [|p1|p1] eqn:E1; try lia.
  destruct (Z.lt_ge_cases (Zpos p1) (2 ^ 53)) as [Hlt | Hge].
  - assert (Zpos (digits2_pos p1) = 53) as D1.
    { apply (Zdigits2_unique p1 53). lia. }
    destruct (shr_fexp_normal p1 (ex + (d - 53)) loc_Exact) as (mrs2 & -> & Hm2);
      [lia | lia |].
    rewrite D1 in Hm2 |- *. replace (53 - 53) with 0 in * by lia.
    change (2 ^ 0) with 1 in Hm2. rewrite Z.div_1_r in Hm2. rewrite Hm2.
    exists p1, 0. replace (1024 - 53) with 971 by lia.
    destruct (Z.leb_spec (ex + (d - 53) + 0) 971); [|lia].
    repeat split; try lia.
  - assert (Zpos p1 = 2 ^ 53) as Ep by lia.
    assert (Zpos (digits2_pos p1) = 54) as D1.
    { apply (Zdigits2_unique p1 54). rewrite Ep. change (54 - 1) with 53. split; [lia|].
      apply Z.pow_lt_mono_r; lia. }
    destruct (shr_fexp_normal p1 (ex + (d - 53)) loc_Exact) as (mrs2 & -> & Hm2);
      [lia | lia |].
    rewrite D1 in Hm2 |- *. replace (54 - 53) with 1 in * by lia.
    rewrite Ep in Hm2. change (2 ^ 53 / 2 ^ 1) with (2 ^ 52) in Hm2. rewrite Hm2.
    change (2 ^ 52) with (Zpos (Pos.pow 2 52)).
    exists (Pos.pow 2 52), 1. replace (1024 - 53) with 971 by lia.
    destruct (Z.leb_spec (ex + (d - 53) + 1) 971); [|lia].
    change (Zpos (Pos.pow 2 52)) with (2 ^ 52).
    repeat split; try lia.
Qed.

Lemma div_eucl_eq (a b : Z) : Z.div_eucl a b = (a / b, a mod b).
Proof. unfold Z.div, Z.modulo. destruct (Z.div_eucl a b). reflexivity. Qed.

Lemma digits_of_length (p : positive) :
  50000 <= Zpos p < 2 ^ 63 -> 16 <= Zpos (digits2_pos p) <= 63.
Proof.
  intros [Lo Hi]. pose proof (digits2_pos_bounds p) as [DLo DHi].
  set (d := Zpos (digits2_pos p)) in *. split.
  - destruct (Z.lt_ge_cases d 16) as [H|]; [|lia].
    assert (2 ^ d <= 2 ^ 15) by (apply Z.pow_le_mono_r; lia).
    change (2 ^ 15) with 32768 in *. lia.
  - destruct (Z.lt_ge_cases 63 d) as [H|]; [|lia].
    assert (2 ^ 63 <= 2 ^ (d - 1)) by (apply Z.pow_le_mono_r; lia). lia.
Qed.

Lemma SFdiv_core_50000 (p : positive) :
  let d := Zpos (digits2_pos p) in
  16 <= d <= 63 ->
  SFdiv_core_binary 53 1024 (Zpos p) 0 50000 0 =
  (Zpos p * 2 ^ (69 - d) / 50000, d - 69,
   new_location 50000 ((Zpos p * 2 ^ (69 - d)) mod 50000)).
Proof.
  intros d Hd. unfold SFdiv_core_binary.
  change (Zdigits2 (Zpos p)) with d. change (Zdigits2 50000) with 16.
  assert (Z.min (fexp 53 1024 (d + 0 - (16 + 0))) (0 - 0) = d - 69) as ->.
  { unfold fexp, emin. lia. }
  replace (0 - 0 - (d - 69)) with (69 - d) by lia.
  destruct (69 - d) as [|s|s] eqn:Hs; try lia.
  rewrite Z.shiftl_mul_pow2 by lia. rewrite div_eucl_eq. reflexivity.
Qed.

Lemma truediv_ge_one (p : positive) :
  50000 <= Zpos p < 2 ^ 63 ->
  exists (m : positive) (e : Z),
    SFdiv 53 1024 (S754_finite false p 0) (S754_finite false 50000 0) = S754_finite false m e
    /\ 2 ^ 52 <= Zpos m < 2 ^ 53 /\ -53 <= e <= -4 /\ 2 ^ (- e) <= Zpos m.
Proof.
  intros Hp. pose proof (digits_of_length p Hp) as Hd.
  unfold SFdiv. rewrite SFdiv_core_50000 by done.
  set (d := Zpos (digits2_pos p)) in *.
  set (s := 69 - d) in *.
  assert (0 < 2 ^ s) as Hs by (apply Z.pow_pos_nonneg; lia).
  pose proof (digits2_pos_bounds p) as [DLo DHi]. fold d in DLo, DHi.
  set (q := Zpos p * 2 ^ s / 50000).
  assert (2 ^ s <= q) as Hq1.
  { apply Z.div_le_lower_bound; nia. }
  assert (2 ^ 52 <= q) as Hq2.
  { apply Z.div_le_lower_bound; [lia|].
    assert (2 ^ 68 = 2 ^ (d - 1) * 2 ^ s) as E.
    { rewrite <- Z.pow_add_r by lia. f_equal. lia. }
    assert (50000 * 2 ^ 52 <= 2 ^ 68) by (vm_compute; discriminate).
    nia. }
  assert (q < 2 ^ 54) as Hq3.
  { apply Z.div_lt_upper_bound; [lia|].
    assert (2 ^ 69 = 2 ^ d * 2 ^ s) as E.
    { rewrite <- Z.pow_add_r by lia. f_equal. lia. }
    assert (2 ^ 69 <= 50000 * 2 ^ 54) by (vm_compute; discriminate).
    nia. }
  destruct q as [|pq|pq] eqn:Eq; try lia.
  assert (53 <= Zpos (digits2_pos pq) <= 54) as Hdq.
  { pose proof (digits2_pos_bounds pq) as [QLo QHi]. set (dq := Zpos (digits2_pos pq)) in *.
    split.
    - destruct (Z.lt_ge_cases dq 53) as [H|]; [|lia].
      assert (2 ^ dq <= 2 ^ 52) by (apply Z.pow_le_mono_r; lia). lia.
    - destruct (Z.lt_ge_cases 54 dq) as [H|]; [|lia].
      assert (2 ^ 54 <= 2 ^ (dq - 1)) by (apply Z.pow_le_mono_r; lia). lia. }
  cbn [xorb].
  destruct (binary_round_aux_normal pq (d - 69)
              (new_location 50000 ((Zpos p * 2 ^ s) mod 50000)))
    as (m & j & -> & Hj & Hm & Hle); [lia | lia | lia |].
  set (dq := Zpos (digits2_pos pq)) in *.
  exists m, (d - 69 + (dq - 53) + j). split; [reflexivity|]. split; [done|]. split; [lia|].
  replace (- (d - 69 + (dq - 53) + j)) with (s - (dq - 53) - j) by lia.
  assert (2 ^ (s - (dq - 53)) <= Zpos pq / 2 ^ (dq - 53)) as Hdiv.
  { apply Z.div_le_lower_bound; [apply Z.pow_pos_nonneg; lia|].
    rewrite <- Z.pow_add_r by lia. replace (dq - 53 + (s - (dq - 53))) with s by lia. done. }
  assert (2 ^ (s - (dq - 53)) = 2 ^ (s - (dq - 53) - j) * 2 ^ j) as E.
  { rewrite <- Z.pow_add_r by lia. f_equal. lia. }
  assert (0 < 2 ^ j) by (apply Z.pow_pos_nonneg; lia).
  nia.
Qed.

Lemma mul60_ge_60 (m : positive) (e : Z) :
  2 ^ 52 <= Zpos m < 2 ^ 53 -> -53 <= e <= -4 -> 2 ^ (- e) <= Zpos m ->
  exists (m2 : positive) (e2 : Z),
    float_mul_int (S754_finite false m e) 60 = S754_finite false m2 e2
    /\ 60 <= Z.shiftl (Zpos m2) e2.
Proof.
  intros Hm He Hone. unfold float_mul_int.
  change (float_of_int 60) with (S754_finite false 8444249301319680 (-47)).
  unfold prec64, emax64, SFmul. cbn [xorb].
  set (P := (m * 8444249301319680)%positive).
  assert (Zpos P = Zpos m * (15 * 2 ^ 49)) as EP by (unfold P; rewrite Pos2Z.inj_mul; reflexivity).
  assert (105 <= Zpos (digits2_pos P) <= 106) as HdP.
  { pose proof (digits2_pos_bounds P) as [PLo PHi]. set (dP := Zpos (digits2_pos P)) in *.
    assert (2 ^ 104 <= Zpos P) as L1.
    { rewrite EP. change (2 ^ 104) with (2 ^ 52 * (8 * 2 ^ 49)). nia. }
    assert (Zpos P < 2 ^ 106) as L2.
    { rewrite EP. change (2 ^ 106) with (2 ^ 53 * (16 * 2 ^ 49)). nia. }
    split.
    - destruct (Z.lt_ge_cases dP 105) as [H|]; [|lia].
      assert (2 ^ dP <= 2 ^ 104) by (apply Z.pow_le_mono_r; lia). lia.
    - destruct (Z.lt_ge_cases 106 dP) as [H|]; [|lia].
      assert (2 ^ 106 <= 2 ^ (dP - 1)) by (apply Z.pow_le_mono_r; lia). lia. }
  destruct (binary_round_aux_normal P (e + -47) loc_Exact)
    as (m2 & j & -> & Hj & Hm2 & Hle); [lia | lia | lia |].
  set (K := Zpos (digits2_pos P) - 53) in *.
  exists m2, (e + -47 + K + j). split; [reflexivity|].
  set (t := - e + 49 - K).
  assert (0 <= t) by (unfold t; lia).
  assert (15 * 2 ^ t <= Zpos P / 2 ^ K) as Hdiv.
  { apply Z.div_le_lower_bound; [apply Z.pow_pos_nonneg; lia|].
    rewrite EP.
    assert (2 ^ K * 2 ^ t = 2 ^ (- e) * 2 ^ 49) as E.
    { rewrite <- !Z.pow_add_r by lia. f_equal. unfold t. lia. }
    nia. }
  assert (0 < 2 ^ j) by (apply Z.pow_pos_nonneg; lia).
  destruct (Z.le_gt_cases 0 (e + -47 + K + j)) as [Hpos | Hneg].
  - rewrite Z.shiftl_mul_pow2 by done.
    assert (0 < 2 ^ (e + -47 + K + j)) by (apply Z.pow_pos_nonneg; lia).
    change (2 ^ 52) with 4503599627370496 in Hm2. nia.
  - rewrite Z.shiftl_div_pow2 by lia.
    replace (- (e + -47 + K + j)) with (t - 2 - j) by (unfold t; lia).
    apply Z.div_le_lower_bound; [apply Z.pow_pos_nonneg; unfold t; lia|].
    assert (2 ^ t = 2 ^ (t - 2 - j) * (4 * 2 ^ j)) as E.
    { change 4 with (2 ^ 2). rewrite <- !Z.pow_add_r by (unfold t; lia). f_equal. lia. }
    assert (0 < 2 ^ (t - 2 - j)) by (apply Z.pow_pos_nonneg; unfold t; lia).
    nia.
Qed.

Lemma progress_estimate_large (n : Z) :
  50000 <= n < 2 ^ 63 -> progress_estimate n = Ok 90.
Proof.
  intros Hn. destruct n as [|p|p]; try lia.
  destruct (truediv_ge_one p Hn) as (m & e & Hdiv & Hm & He & Hone).
  destruct (mul60_ge_60 m e Hm He Hone) as (m2 & e2 & Hmul & Hge).
  unfold progress_estimate, int_truediv. cbn [Z.eqb exact_int].
  unfold prec64, emax64. rewrite Hdiv. cbn [mbind res_mbind res_bind].
  rewrite Hmul. cbn [int_of_float mbind res_mbind res_bind mret res_ret].
  f_equal. lia.
Qed.

Lemma agrees_iter_spec (k : positive) :
  snd (Pos.iter agrees_step (true, 0) k) = Zpos k /\
  (fst (Pos.iter agrees_step (true, 0) k) = true ->
   forall n, 0 <= n < Zpos k -> estimate_agrees n = true).
Proof.
  induction k as [|k [IH1 IH2]] using Pos.peano_ind.
  - split; [done|]. intros H n Hn. assert (n = 0) as -> by lia. exact H.
  - rewrite Pos.iter_succ. unfold agrees_step at 1. cbn [fst snd]. rewrite IH1.
    split; [lia|]. intros H n Hn. apply andb_true_iff in H as [H1 H2].
    destruct (Z.eq_dec n (Zpos k)) as [->|].
    + rewrite IH1 in H2. exact H2.
    + apply IH2; [done|lia].
Qed.

Lemma agrees_below_spec (k : positive) (n : Z) :
  agrees_below k = true -> 0 <= n < Zpos k -> estimate_agrees n = true.
Proof. intros H. apply (proj2 (agrees_iter_spec k)). exact H. Qed.

Lemma progress_estimate_small_all : agrees_below 50000 = true.
Proof. vm_compute. reflexivity. Qed.

Lemma progress_estimate_exact (n : Z) :
  0 <= n < 2 ^ 63 -> progress_estimate n = Ok (progress_formula n).
Proof.
  intros Hn. destruct (Z.lt_ge_cases n 50000) as [Hs | Hl].
  - assert (estimate_agrees n = true) as H.
    { apply (agrees_below_spec 50000); [exact progress_estimate_small_all | lia]. }
    unfold estimate_agrees in H. destruct (progress_estimate n); [|discriminate H].
    f_equal. apply Z.eqb_eq. exact H.
  - rewrite progress_estimate_large by lia. f_equal. unfold progress_formula.
    assert (60 <= n * 60 / 50000) by (apply Z.div_le_lower_bound; lia). lia.
Qed.

(* ================================================================== *)
(** ** Running the monad *)
(* ================================================================== *)

Lemma bind_unfold {A B} (m : M A) (k : A -> M B) (w : world) :
  (m ≫= k) w =
  match m w with
  | (Ok a, w') => k a w'
  | (Raise e, w') => (Raise e, w')
  end.
Proof. reflexivity. Qed.

Lemma bind_ok {A B} (m : M A) (k : A -> M B) (w w' : world) (a : A) :
  m w = (Ok a, w') -> (m ≫= k) w = k a w'.
Proof. intros H. rewrite bind_unfold, H. reflexivity. Qed.

Lemma bind_raise {A B} (m : M A) (k : A -> M B) (w w' : world) (e : py_exc) :
  m w = (Raise e, w') -> (m ≫= k) w = (Raise e, w').
Proof. intros H. rewrite bind_unfold, H. reflexivity. Qed.

(* ================================================================== *)
(** ** Strings and the reference-image pattern *)
(* ================================================================== *)

Lemma str_data_image : str "data:image/" = str "data:" ++ str "image/".
Proof. vm_compute. reflexivity. Qed.

Lemma str_base64_marker : str ";base64," = 59%N :: str "base64,".
Proof. vm_compute. reflexivity. Qed.

Lemma str_dots : str "..." = [46; 46; 46]%N.
Proof. vm_compute. reflexivity. Qed.

Lemma strip_prefix_spec (p s r : pystr) :
  PyStr.strip_prefix p s = Some r <-> s = p ++ r.
Proof.
  revert s. induction p as [|a p IH]; intros s; cbn.
  - split; [intros [= ->]; reflexivity | intros ->; reflexivity].
  - destruct s as [|b s]; [split; [discriminate | intros [=]]|].
    destruct (N.eqb_spec a b) as [-> | Hne].
    + rewrite IH. split; [intros ->; reflexivity | intros [= ->]; reflexivity].
    + split; [discriminate | intros [= Heq _]; congruence].
Qed.

Lemma strip_prefix_app (p q s : pystr) :
  PyStr.strip_prefix (p ++ q) s = PyStr.strip_prefix p s ≫= PyStr.strip_prefix q.
Proof.
  revert s. induction p as [|a p IH]; intros s; cbn; [reflexivity|].
  destruct s as [|b s]; [reflexivity|]. destruct (a =? b)%N; [apply IH | reflexivity].
Qed.

Lemma startswith_strip_prefix (p s : pystr) :
  PyStr.startswith p s = true <-> is_Some (PyStr.strip_prefix p s).
Proof.
  revert s. induction p as [|a p IH]; intros s; cbn.
  - split; [eauto | reflexivity].
  - destruct s as [|b s]; [split; [discriminate | intros [? [=]]]|].
    destruct (a =? b)%N; cbn; [apply IH | split; [discriminate | intros [? [=]]]].
Qed.

Lemma take_drop_while (p : N -> bool) (s : pystr) :
  s = PyStr.take_while p s ++ PyStr.drop_while p s.
Proof.
  induction s as [|c s IH]; cbn; [reflexivity|].
  destruct (p c); cbn; [f_equal; exact IH | reflexivity].
Qed.

Lemma take_while_Forall (p : N -> bool) (s : pystr) :
  Forall (fun c => p c = true) (PyStr.take_while p s).
Proof.
  induction s as [|c s IH]; cbn; [constructor|].
  destruct (p c) eqn:E; [constructor; assumption | constructor].
Qed.

Lemma drop_while_head (p : N -> bool) (s : pystr) :
  PyStr.drop_while p s = [] \/
  exists c t, PyStr.drop_while p s = c :: t /\ p c = false.
Proof.
  induction s as [|c s IH]; cbn; [left; reflexivity|].
  destruct (p c) eqn:E; [exact IH | right; eauto].
Qed.

(** The split into a maximal run of the class and the rest is unique. *)
Lemma take_while_unique (p : N -> bool) (a b : pystr) :
  Forall (fun c => p c = true) a ->
  (b = [] \/ exists c t, b = c :: t /\ p c = false) ->
  PyStr.take_while p (a ++ b) = a /\ PyStr.drop_while p (a ++ b) = b.
Proof.
  intros Ha Hb. induction Ha as [|c a Hc Ha IH]; cbn.
  - destruct Hb as [-> | (c & t & -> & Hc)]; cbn; [done|]. rewrite Hc. done.
  - rewrite Hc. destruct IH as [-> ->]. done.
Qed.

Lemma run_lits {R} (l s : pystr) (caps : list pystr)
    (k : pystr -> list pystr -> option R) :
  Re.run (Re.lits l) s caps k =
  match PyStr.strip_prefix l s with
  | Some r => k r caps
  | None => None
  end.
Proof.
  revert s. induction l as [|a l IH]; intros s; cbn; [reflexivity|].
  destruct s as [|b s]; [reflexivity|].
  rewrite (N.eqb_sym b a). destruct (a =? b)%N; [apply IH | reflexivity].
Qed.

(** [c+] followed by something that cannot start with a character of the
    class: the run is maximal, nothing is given back. *)
Lemma plus_greedy_committed {R} (p : N -> bool) (s : pystr) (k : pystr -> option R) :
  (forall c t, p c = true -> k (c :: t) = None) ->
  Re.plus_greedy p s k =
  if PyStr.truthy (PyStr.take_while p s) then k (PyStr.drop_while p s) else None.
Proof.
  intros Hk. induction s as [|c s IH]; cbn; [reflexivity|].
  destruct (p c) eqn:Hc; cbn; [|reflexivity].
  rewrite IH. destruct s as [|c' s']; cbn; [reflexivity|].
  destruct (p c') eqn:Hc'; cbn; [|reflexivity].
  rewrite (Hk c' s' Hc'). destruct (k (PyStr.drop_while p s')); reflexivity.
Qed.

(** [c+] at the end of the pattern: the run is maximal. *)
Lemma plus_greedy_last {R} (p : N -> bool) (s : pystr) (g : pystr -> R) :
  Re.plus_greedy p s (fun rest => Some (g rest)) =
  if PyStr.truthy (PyStr.take_while p s) then Some (g (PyStr.drop_while p s)) else None.
Proof.
  induction s as [|c s IH]; cbn; [reflexivity|].
  destruct (p c) eqn:Hc; cbn; [|reflexivity].
  rewrite IH. destruct s as [|c' s']; cbn; [reflexivity|].
  destruct (p c') eqn:Hc'; cbn; reflexivity.
Qed.

Lemma take_consumed (a b : pystr) :
  take (length (a ++ b) - length b) (a ++ b) = a.
Proof.
  rewrite length_app. replace (length a + length b - length b)%nat with (length a) by lia.
  apply take_app_length.
Qed.

Lemma truthy_nonempty (s : pystr) : PyStr.truthy s = true <-> s <> [].
Proof. destruct s; cbn; split; congruence. Qed.

(** The backtracking matcher on the pattern of the source agrees with the
    direct parser. *)
Lemma rmatch_data_url (s : pystr) :
  Re.rmatch DATA_URL_RE s = (fun md => [fst md; snd md]) <$> parse_data_url s.
Proof.
  unfold Re.rmatch, DATA_URL_RE, parse_data_url.
  rewrite str_data_image, strip_prefix_app.
  cbn [Re.run]. rewrite run_lits.
  destruct (PyStr.strip_prefix (str "data:") s) as [s1|]; [|reflexivity].
  cbn [mbind option_bind]. rewrite run_lits.
  destruct (PyStr.strip_prefix (str "image/") s1) as [sa|] eqn:Es1; [|reflexivity].
  apply strip_prefix_spec in Es1. cbn [mbind option_bind].
  rewrite plus_greedy_committed.
  2:{ intros c t Hc. rewrite run_lits.
      destruct (PyStr.strip_prefix (str ";base64,") (c :: t)) eqn:E; [|reflexivity].
      exfalso. rewrite str_base64_marker in E. cbn [PyStr.strip_prefix] in E.
      destruct (N.eqb_spec 59 c) as [<-|]; [|discriminate].
      unfold word_char in Hc. cbn in Hc. discriminate. }
  destruct (PyStr.truthy (PyStr.take_while word_char sa)) eqn:Hw; [|reflexivity].
  rewrite run_lits.
  destruct (PyStr.strip_prefix (str ";base64,") (PyStr.drop_while word_char sa))
    as [s3|] eqn:Es3; [|reflexivity].
  cbn [mbind option_bind Re.run].
  rewrite (plus_greedy_last Re.dot s3).
  destruct (PyStr.truthy (PyStr.take_while Re.dot s3)) eqn:Hd; [|reflexivity].
  cbn [fmap option_fmap option_map fst snd]. f_equal. cbn [app]. f_equal.
  - pose proof (take_drop_while word_char sa) as Hsa.
    set (tw := PyStr.take_while word_char sa) in *.
    set (dw := PyStr.drop_while word_char sa) in *. clearbody tw dw.
    subst s1 sa. rewrite app_assoc. apply take_consumed.
  - f_equal. pose proof (take_drop_while Re.dot s3) as Hs3.
    set (td := PyStr.take_while Re.dot s3) in *.
    set (dd := PyStr.drop_while Re.dot s3) in *. clearbody td dd.
    subst s3. apply take_consumed.
Qed.

Lemma semicolon_not_word : word_char 59 = false.
Proof. reflexivity. Qed.

Lemma dot_false (c : N) : Re.dot c = false -> c = 10%N.
Proof. unfold Re.dot. destruct (N.eqb_spec c 10); [done | discriminate]. Qed.

(** The direct parser accepts exactly the strings of the declared shape. *)
Lemma parse_data_url_spec (s mime data : pystr) :
  parse_data_url s = Some (mime, data) <-> image_data_url s mime data.
Proof.
  unfold parse_data_url, image_data_url. split.
  - destruct (PyStr.strip_prefix (str "data:image/") s) as [ap|] eqn:E1; [|discriminate].
    apply strip_prefix_spec in E1. cbn [mbind option_bind].
    destruct (PyStr.truthy (PyStr.take_while word_char ap)) eqn:Hw; [|discriminate].
    destruct (PyStr.strip_prefix (str ";base64,") (PyStr.drop_while word_char ap))
      as [am|] eqn:E2; [|discriminate].
    apply strip_prefix_spec in E2. cbn [mbind option_bind].
    destruct (PyStr.truthy (PyStr.take_while Re.dot am)) eqn:Hd; [|discriminate].
    intros [= <- <-].
    exists (PyStr.take_while word_char ap), (PyStr.drop_while Re.dot am).
    repeat split.
    + rewrite E1. rewrite (take_drop_while word_char ap) at 1. rewrite E2.
      rewrite (take_drop_while Re.dot am) at 1.
      rewrite str_data_image, <- !app_assoc. reflexivity.
    + apply truthy_nonempty. exact Hw.
    + apply take_while_Forall.
    + apply truthy_nonempty. exact Hd.
    + apply take_while_Forall.
    + destruct (drop_while_head Re.dot am) as [-> | (c & t & -> & Hc)]; [left; done|].
      right. apply dot_false in Hc. subst c. eauto.
  - intros (subtype & rest & -> & -> & Hne & Hw & Hdne & Hd & Hrest).
    assert (PyStr.strip_prefix (str "data:image/")
              (str "data:" ++ (str "image/" ++ subtype) ++ str ";base64," ++ data ++ rest)
            = Some (subtype ++ str ";base64," ++ data ++ rest)) as ->.
    { apply strip_prefix_spec. rewrite str_data_image, <- !app_assoc. reflexivity. }
    cbn [mbind option_bind].
    destruct (take_while_unique word_char subtype (str ";base64," ++ data ++ rest) Hw)
      as [-> ->].
    { right. exists 59%N, (str "base64," ++ data ++ rest).
      split; [rewrite str_base64_marker; reflexivity | apply semicolon_not_word]. }
    apply truthy_nonempty in Hne. rewrite Hne.
    assert (PyStr.strip_prefix (str ";base64,") (str ";base64," ++ data ++ rest)
            = Some (data ++ rest)) as -> by (apply strip_prefix_spec; reflexivity).
    cbn [mbind option_bind].
    destruct (take_while_unique Re.dot data rest Hd) as [-> _].
    { destruct Hrest as [-> | [r ->]]; [left; done | right; eauto]. }
    apply truthy_nonempty in Hdne. rewrite Hdne. reflexivity.
Qed.

Lemma reference_part_parse (s : pystr) :
  reference_part s = (fun md => InlineData (fst md) (snd md)) <$> parse_data_url s.
Proof.
  unfold reference_part. rewrite rmatch_data_url.
  destruct (PyStr.startswith (str "data:") s) eqn:Hsw.
  - destruct (parse_data_url s) as [[m d]|]; reflexivity.
  - destruct (parse_data_url s) as [[m d]|] eqn:Hp; [|reflexivity].
    exfalso. unfold parse_data_url in Hp. rewrite str_data_image, strip_prefix_app in Hp.
    destruct (PyStr.strip_prefix (str "data:") s) eqn:E; [|discriminate].
    assert (PyStr.startswith (str "data:") s = true) as Ht.
    { apply startswith_strip_prefix. rewrite E. eauto. }
    congruence.
Qed.

Lemma reference_part_spec (s : pystr) (p : part) :
  reference_part s = Some p <->
  exists mime data, p = InlineData mime data /\ image_data_url s mime data.
Proof.
  rewrite reference_part_parse. split.
  - destruct (parse_data_url s) as [[m d]|] eqn:Hp; [|discriminate].
    intros [= <-]. exists m, d. split; [reflexivity|]. apply parse_data_url_spec. exact Hp.
  - intros (m & d & -> & H). apply parse_data_url_spec in H. rewrite H. reflexivity.
Qed.

Lemma add_reference_images_rev (images : list pystr) (ps : list part) :
  add_reference_images images ps = rev (omap reference_part images) ++ ps.
Proof.
  unfold add_reference_images. revert ps.
  induction images as [|img images IH]; intros ps; cbn; [reflexivity|].
  rewrite IH. destruct (reference_part img); cbn; [|reflexivity].
  rewrite <- app_assoc. reflexivity.
Qed.

Lemma build_payload_parts (request : GenerateRequest.t) :
  build_payload request =
  Payload [Content (rev (omap reference_part
                           (default [] (GenerateRequest.reference_images request)))
                    ++ [TextPart (GenerateRequest.prompt request)])].
Proof.
  unfold build_payload.
  destruct (GenerateRequest.reference_images request) as [[|img images]|];
    unfold default; cbn [id]; [reflexivity | | reflexivity].
  rewrite add_reference_images_rev. reflexivity.
Qed.

Lemma reference_part_inline (s : pystr) (p : part) :
  reference_part s = Some p -> is_inline p.
Proof. intros H. apply reference_part_spec in H as (m & d & -> & _). exact I. Qed.

(** The text part is always there and always last. *)
Lemma text_part_last (request : GenerateRequest.t) :
  exists front,
    build_payload request =
    Payload [Content (front ++ [TextPart (GenerateRequest.prompt request)])]
    /\ Forall is_inline front.
Proof.
  eexists. split; [apply build_payload_parts|].
  apply Forall_rev. apply Forall_forall. intros p Hp.
  apply list_elem_of_omap in Hp as (s & _ & Hs). eapply reference_part_inline; eauto.
Qed.

(** C2, amended. Reference images [A; B], both of the shape
    data:image/<word characters>;base64,<payload>, and the prompt T give the
    parts [B inline; A inline; T as text]: the images in reverse order of
    supply, the text last. *)
Theorem request_builder_reverses_images
    (request : GenerateRequest.t) (A B mimeA dataA mimeB dataB : pystr) :
  GenerateRequest.reference_images request = Some [A; B] ->
  image_data_url A mimeA dataA ->
  image_data_url B mimeB dataB ->
  build_payload request =
  Payload [Content [InlineData mimeB dataB; InlineData mimeA dataA;
                    TextPart (GenerateRequest.prompt request)]].
Proof.
  intros Hrefs HA HB. rewrite build_payload_parts, Hrefs.
  unfold default. cbn -[reference_part str].
  assert (reference_part A = Some (InlineData mimeA dataA)) as ->
    by (apply reference_part_spec; eauto).
  assert (reference_part B = Some (InlineData mimeB dataB)) as ->
    by (apply reference_part_spec; eauto).
  reflexivity.
Qed.

(** C8. A reference-image string contributes an inline part exactly when it
    has the shape data:image/<word characters>;base64,<payload>; the
    remaining strings leave no trace in the parts (no error, no placeholder):
    among them an image/svg+xml data-URL and every string that does not start
    with "data:". *)
Theorem reference_image_kept_iff_pattern :
  (forall (s : pystr) (p : part),
     reference_part s = Some p <->
     exists mime data, p = InlineData mime data /\ image_data_url s mime data)
  /\ (forall (images : list pystr) (ps : list part),
        add_reference_images images ps = rev (omap reference_part images) ++ ps)
  /\ (forall request : GenerateRequest.t,
        build_payload request =
        Payload [Content (rev (omap reference_part
                                (default [] (GenerateRequest.reference_images request)))
                          ++ [TextPart (GenerateRequest.prompt request)])])
  /\ reference_part (str "data:image/svg+xml;base64,AAAA") = None
  /\ (forall s : pystr, PyStr.startswith (str "data:") s = false -> reference_part s = None).
Proof.
  split; [exact reference_part_spec|].
  split; [exact add_reference_images_rev|].
  split; [exact build_payload_parts|].
  split; [vm_compute; reflexivity|].
  intros s Hs. unfold reference_part. rewrite Hs. reflexivity.
Qed.

(* ================================================================== *)
(** ** Submission *)
(* ================================================================== *)

Lemma lstrip_head (s : pystr) :
  PyStr.lstrip s = [] \/
  exists c t, PyStr.lstrip s = c :: t /\ PyStr.isspace c = false.
Proof.
  induction s as [|c s IH]; cbn; [left; reflexivity|].
  destruct (PyStr.isspace c) eqn:E; [exact IH | right; eauto].
Qed.

Lemma lstrip_nil_iff (s : pystr) :
  PyStr.lstrip s = [] <-> Forall (fun c => PyStr.isspace c = true) s.
Proof.
  induction s as [|c s IH]; cbn; [split; [constructor | reflexivity]|].
  destruct (PyStr.isspace c) eqn:E.
  - rewrite IH. split; [intros H; constructor; assumption | intros H; inversion H; assumption].
  - split; [discriminate | intros H; inversion H; congruence].
Qed.

(** [prompt.strip()] is empty exactly for a prompt made of whitespace. *)
Lemma strip_nil_iff (s : pystr) :
  PyStr.strip s = [] <-> Forall (fun c => PyStr.isspace c = true) s.
Proof.
  unfold PyStr.strip, PyStr.rstrip. split.
  - intros H. apply (f_equal (@rev N)) in H. rewrite rev_involutive in H. cbn in H.
    apply lstrip_nil_iff in H. apply Forall_rev in H. rewrite rev_involutive in H.
    destruct (lstrip_head s) as [E | (c & t & E & Hc)]; [apply lstrip_nil_iff; exact E|].
    rewrite E in H. inversion H; congruence.
  - intros H. apply lstrip_nil_iff in H. rewrite H. reflexivity.
Qed.

(** An accepted submission creates the record and schedules the job with the
    built payload. *)
Lemma generate_image_accepts (request : GenerateRequest.t) (uuid4 now : pystr) (w : world) :
  user_api_key w <> [] ->
  PyStr.strip (GenerateRequest.prompt request) <> [] ->
  exists model_name headers,
    generate_image request uuid4 now w =
    (Ok (GenerateResponse uuid4 processing model_name (str "任务已提交，请轮询获取结果")),
     World (user_api_key w) (api_key_file w)
           (<[uuid4 := submitted_task request now model_name]> (tasks w))
           (scheduled w ++ [Job uuid4 model_name (build_payload request) headers])
           (requests w) (observable w)).
Proof.
  intros Hk Hp. apply truthy_nonempty in Hk, Hp.
  unfold generate_image. rewrite bind_unfold. unfold gets. cbv beta iota.
  rewrite Hk, Hp. cbn [negb]. eexists _, _. reflexivity.
Qed.

(** C5. A submission with an empty or whitespace-only prompt, and a
    submission made while no credential is set, is rejected with a validation
    error (HTTP 400) and leaves the process state, the task table included,
    as it was. *)
Theorem invalid_submission_rejected
    (request : GenerateRequest.t) (uuid4 now : pystr) (w : world) :
  user_api_key w = [] \/
  Forall (fun c => PyStr.isspace c = true) (GenerateRequest.prompt request) ->
  exists detail,
    generate_image request uuid4 now w = (Raise (HTTPException 400 detail), w).
Proof.
  intros H. unfold generate_image. rewrite bind_unfold. unfold gets. cbv beta iota.
  destruct (PyStr.truthy (user_api_key w)) eqn:Hk; cbn [negb].
  - destruct H as [H | H]; [rewrite H in Hk; discriminate|].
    apply strip_nil_iff in H. rewrite H. cbn [PyStr.truthy negb]. eexists. reflexivity.
  - eexists. reflexivity.
Qed.
(* ================================================================== *)
(** ** Credential *)
(* ================================================================== *)

Lemma set_api_key_stores (request : ApiKeyRequest.t) (io_error : option io_failure) (w : world) :
  user_api_key (snd (set_api_key request io_error w)) = ApiKeyRequest.api_key request.
Proof. unfold set_api_key. destruct io_error as [[e|e]|]; reflexivity. Qed.

Lemma check_api_key_run (w : world) :
  check_api_key w =
  (Ok (CheckKeyResponse (PyStr.truthy (user_api_key w))
         (if PyStr.truthy (user_api_key w) then mask (user_api_key w) else [])), w).
Proof. reflexivity. Qed.

Lemma mask_long (key : pystr) :
  (12 < length key)%nat ->
  mask key = take 8 key ++ str "..." ++ PyStr.slice_last 4 key.
Proof.
  intros H. unfold mask. destruct (Z.ltb_spec 12 (Z.of_nat (length key))); [reflexivity | lia].
Qed.

Lemma mask_short (key : pystr) : (length key <= 12)%nat -> mask key = str "***".
Proof.
  intros H. unfold mask. destruct (Z.ltb_spec 12 (Z.of_nat (length key))); [lia | reflexivity].
Qed.

Lemma mask_long_length (key : pystr) :
  (12 < length key)%nat -> length (mask key) = 15%nat.
Proof.
  intros H. rewrite mask_long by done. unfold PyStr.slice_last.
  rewrite str_dots, !length_app, length_take, length_drop. cbn [length]. lia.
Qed.

(** The character in the middle of the mask is one of its dots. *)
Lemma mask_long_dot (key : pystr) :
  (12 < length key)%nat -> mask key !! 8%nat = Some 46%N.
Proof.
  intros H. rewrite mask_long by done. rewrite str_dots.
  rewrite lookup_app_r by (rewrite length_take; lia).
  rewrite length_take. replace (8 - 8 `min` length key)%nat with 0%nat by lia. reflexivity.
Qed.

Lemma mask_hides_long_secret (key : pystr) :
  (15 < length key)%nat -> ~ PyStr.substring key (mask key).
Proof.
  intros H (pre & post & E). apply (f_equal length) in E.
  rewrite mask_long_length in E by lia. rewrite !length_app in E. lia.
Qed.

Lemma mask_hides_dotless_secret (key : pystr) :
  (12 < length key)%nat -> 46%N ∉ key -> ~ PyStr.substring key (mask key).
Proof.
  intros H Hdot (pre & post & E).
  pose proof (mask_long_dot key H) as Hd.
  pose proof (mask_long_length key H) as Hl.
  rewrite E in Hd, Hl. rewrite !length_app in Hl.
  rewrite lookup_app_r in Hd by lia. rewrite lookup_app_l in Hd by lia.
  apply Hdot. eapply list_elem_of_lookup_2. exact Hd.
Qed.

(** C6, amended. For every non-empty secret, [set_api_key] followed by
    [check_api_key] reports a key; a secret longer than 12 characters is
    shown as first 8 + "..." + last 4, and this mask does not contain the
    secret when the secret is longer than 15 characters or has no '.' in it;
    a secret of 12 characters or less is shown as "***". *)
Theorem credential_round_trip
    (secret : pystr) (io_error : option io_failure) (w : world) :
  secret <> [] ->
  let w1 := snd (set_api_key (ApiKeyRequest.Build secret) io_error w) in
  exists masked,
    check_api_key w1 = (Ok (CheckKeyResponse true masked), w1)
    /\ ((12 < length secret)%nat ->
        masked = take 8 secret ++ str "..." ++ PyStr.slice_last 4 secret
        /\ ((15 < length secret)%nat \/ 46%N ∉ secret -> ~ PyStr.substring secret masked))
    /\ ((length secret <= 12)%nat -> masked = str "***").
Proof.
  intros Hne w1. exists (mask secret).
  assert (user_api_key w1 = secret) as Hk by apply set_api_key_stores.
  rewrite check_api_key_run, Hk.
  apply truthy_nonempty in Hne. rewrite Hne.
  split; [reflexivity|]. split.
  - intros Hlen. split; [apply mask_long; exact Hlen|].
    intros [H | H]; [apply mask_hides_long_secret | apply mask_hides_dotless_secret]; done.
  - apply mask_short.
Qed.

Lemma first_host : GOOGLE_API_HOSTS !! 0%nat = Some (default [] (head GOOGLE_API_HOSTS)).
Proof. vm_compute. reflexivity. Qed.

(** C10. [verify_api_key] returns a {valid, message} object whatever the
    secret and whatever the network does; it sends one request, to the first
    endpoint of the list, and [valid] is true exactly when that request is
    answered with status 200. *)
Theorem verify_probes_first_endpoint_only (request : ApiKeyRequest.t) (w : world) :
  exists v msg,
    verify_api_key request w = (Ok (VerifyResponse v msg), with_request probe_endpoint w)
    /\ (v = true <->
        exists text, net_post (length (requests w)) probe_endpoint = PostResponse 200 text).
Proof.
  unfold verify_api_key, probe_endpoint. rewrite first_host. cbv beta iota.
  set (ep := default [] (head GOOGLE_API_HOSTS) ++ _). clearbody ep.
  unfold try_except. rewrite bind_unfold. unfold client_post. cbv beta iota.
  destruct (net_post (length (requests w)) ep) as [e | code text] eqn:E.
  - eexists _, _. split; [reflexivity|]. split; [discriminate | intros [? [=]]].
  - destruct (Z.eqb_spec code 200) as [-> | Hne].
    + eexists _, _. split; [reflexivity|]. split; eauto.
    + destruct ((code =? 401) || (code =? 403)).
      * eexists _, _. split; [reflexivity|].
        split; [discriminate | intros [? [= ? _]]; congruence].
      * eexists _, _. split; [reflexivity|].
        split; [discriminate | intros [? [= ? _]]; congruence].
Qed.

(* ================================================================== *)
(** ** Key file and restart *)
(* ================================================================== *)

Lemma universal_newlines_space (s : pystr) :
  Forall (fun c => PyStr.isspace c = true) s ->
  Forall (fun c => PyStr.isspace c = true) (universal_newlines s).
Proof.
  assert (forall (n : nat) (l : pystr),
             (length l <= n)%nat ->
             Forall (fun c => PyStr.isspace c = true) l ->
             Forall (fun c => PyStr.isspace c = true) (universal_newlines l)) as H.
  { induction n as [|n IH]; intros l Hlen Hl.
    - destruct l; [constructor | cbn in Hlen; lia].
    - destruct l as [|c rest]; [constructor|].
      inversion Hl as [|? ? Hc Hrest]; subst. cbn [universal_newlines].
      cbn [length] in Hlen.
      destruct (c =? 13)%N.
      + constructor; [reflexivity|].
        destruct rest as [|d rest']; [constructor|].
        inversion Hrest as [|? ? Hd Hrest']; subst. cbn [length] in Hlen.
        destruct (d =? 10)%N; apply IH; try assumption; cbn [length]; lia.
      + constructor; [assumption|]. apply IH; [lia | assumption]. }
  intros Hs. apply (H (length s)); [lia | exact Hs].
Qed.

Lemma universal_newlines_id (s : pystr) : 13%N ∉ s -> universal_newlines s = s.
Proof.
  induction s as [|c rest IH]; intros Hs; [reflexivity|].
  cbn [universal_newlines]. destruct (N.eqb_spec c 13) as [-> | Hc].
  - exfalso. apply Hs. left.
  - f_equal. apply IH. intros Hin. apply Hs. right. exact Hin.
Qed.

Lemma set_api_key_saved (secret : pystr) (w : world) :
  snd (set_api_key (ApiKeyRequest.Build secret) None w)
  = with_key_file secret (with_key secret w).
Proof. reflexivity. Qed.

(** X1. A key stored with [set_api_key] is read back at the next start as
    the stored text with line ends normalised and surrounding whitespace
    removed, whatever NANOBANANA_API_KEY holds: a key without a carriage
    return comes back as [key.strip()], and a key made of whitespace only
    comes back empty. *)
Theorem saved_key_after_restart
    (secret : pystr) (env : option pystr) (w : world) :
  let w1 := snd (set_api_key (ApiKeyRequest.Build secret) None w) in
  let w2 := initial_world (api_key_file w1) env in
  user_api_key w1 = secret
  /\ user_api_key w2 = PyStr.strip (universal_newlines secret)
  /\ (13%N ∉ secret -> user_api_key w2 = PyStr.strip secret)
  /\ (Forall (fun c => PyStr.isspace c = true) secret -> user_api_key w2 = []).
Proof.
  cbv zeta. rewrite set_api_key_saved.
  unfold initial_world, _load_api_key.
  cbn [user_api_key api_key_file with_key_file with_key].
  split; [reflexivity|]. split; [reflexivity|]. split.
  - intros H. rewrite universal_newlines_id by exact H. reflexivity.
  - intros H. apply strip_nil_iff. apply universal_newlines_space. exact H.
Qed.


(* ================================================================== *)
(** ** Upload of a reference image *)
(* ================================================================== *)

Lemma list_ind3 {A} (P : list A -> Prop) :
  P [] -> (forall a, P [a]) -> (forall a b, P [a; b]) ->
  (forall a b c l, P l -> P (a :: b :: c :: l)) ->
  forall l, P l.
Proof.
  intros H0 H1 H2 H3.
  assert (forall (n : nat) (l : list A), (length l <= n)%nat -> P l) as H.
  { induction n as [|n IH]; intros l Hl.
    - destruct l; [exact H0 | cbn in Hl; lia].
    - destruct l as [|a [|b [|c l]]]; [exact H0 | apply H1 | apply H2 |].
      apply H3. apply IH. cbn [length] in Hl. lia. }
  intros l. apply (H (length l)). lia.
Qed.

Lemma b64_char_dot (i : N) : Re.dot (b64_char i) = true.
Proof.
  unfold Re.dot, b64_char.
  destruct (N.ltb_spec i 26); [apply negb_true_iff, N.eqb_neq; lia|].
  destruct (N.ltb_spec i 52); [apply negb_true_iff, N.eqb_neq; lia|].
  destruct (N.ltb_spec i 62); [apply negb_true_iff, N.eqb_neq; lia|].
  destruct (i =? 62)%N; reflexivity.
Qed.

Lemma b64_groups_dot (bs : list N) : Forall (fun c => Re.dot c = true) (b64_groups bs).
Proof.
  induction bs as [|a|a b|a b c l IH] using list_ind3; cbn [b64_groups app].
  - constructor.
  - repeat (constructor; [first [apply b64_char_dot | reflexivity]|]). constructor.
  - repeat (constructor; [first [apply b64_char_dot | reflexivity]|]). constructor.
  - repeat (constructor; [apply b64_char_dot|]). exact IH.
Qed.

Lemma b64_groups_length (bs : list N) :
  Z.of_nat (length (b64_groups bs)) = 4 * ((Z.of_nat (length bs) + 2) / 3).
Proof.
  induction bs as [|a|a b|a b c l IH] using list_ind3; cbn [b64_groups app length].
  - reflexivity.
  - reflexivity.
  - reflexivity.
  - rewrite !Nat2Z.inj_succ, IH.
    replace (Z.succ (Z.succ (Z.succ (Z.of_nat (length l)))) + 2)
      with (Z.of_nat (length l) + 2 + 1 * 3) by lia.
    rewrite Z.div_add by lia. lia.
Qed.

Lemma b64encode_nonempty (content : pybytes) : content <> [] -> b64encode content <> [].
Proof.
  unfold b64encode. destruct content as [|a [|b [|c l]]]; [done | discriminate..].
Qed.

(** X3. An upload is accepted exactly when its content type starts with
    "image/" and it holds at most 10 * 1024 * 1024 bytes (the bound itself is
    accepted); every other upload with a content type is refused with
    status 400. The accepted answer reports the byte count, and its data URL
    is "data:<type>;base64," followed by 4 * ceil(n / 3) characters, none of
    them a line break. *)
Theorem upload_accepted_iff (file : upload_file) (ctype : pystr) :
  content_type file = Some ctype ->
  let n := Z.of_nat (length (file_content file)) in
  let accepted := PyStr.startswith (str "image/") ctype = true /\ n <= 10485760 in
  (accepted ->
   exists data,
     upload_reference_image file
     = Ok (UploadResponse (filename file) ctype n
                          (str "data:" ++ ctype ++ str ";base64," ++ data))
     /\ data = b64encode (file_content file)
     /\ Z.of_nat (length data) = 4 * ((n + 2) / 3)
     /\ Forall (fun c => c <> 10%N) data)
  /\ (~ accepted ->
      exists detail, upload_reference_image file = Raise (HTTPException 400 detail)).
Proof.
  intros Hct n accepted. unfold upload_reference_image. rewrite Hct. split.
  - intros [Hs Hn]. rewrite Hs. cbn [negb].
    destruct (Z.ltb_spec (10 * 1024 * 1024) (Z.of_nat (length (file_content file))));
      [unfold n in Hn; lia|].
    eexists. split; [reflexivity|]. split; [reflexivity|]. split.
    + unfold b64encode. rewrite b64_groups_length, length_map. reflexivity.
    + unfold b64encode. eapply Forall_impl; [apply b64_groups_dot|].
      intros c Hc ->. discriminate Hc.
  - intros Hna. destruct (PyStr.startswith (str "image/") ctype) eqn:Hs; cbn [negb].
    + destruct (Z.ltb_spec (10 * 1024 * 1024) (Z.of_nat (length (file_content file))));
        [eexists; reflexivity|].
      exfalso. apply Hna. split; [reflexivity | unfold n; lia].
    + eexists. reflexivity.
Qed.

Lemma startswith_app (p s : pystr) : PyStr.startswith p (p ++ s) = true.
Proof.
  induction p as [|c p IH]; [reflexivity|]. cbn. rewrite N.eqb_refl. exact IH.
Qed.

Lemma word_run_unique (a a' b b' : pystr) :
  Forall (fun c => word_char c = true) a ->
  Forall (fun c => word_char c = true) a' ->
  (b = [] \/ exists c t, b = c :: t /\ word_char c = false) ->
  (b' = [] \/ exists c t, b' = c :: t /\ word_char c = false) ->
  a ++ b = a' ++ b' -> a = a' /\ b = b'.
Proof.
  intros Ha Ha' Hb Hb' E.
  destruct (take_while_unique word_char a b Ha Hb) as [T D].
  destruct (take_while_unique word_char a' b' Ha' Hb') as [T' D'].
  rewrite E in T, D. split; congruence.
Qed.

Lemma marker_starts_nonword (s : pystr) :
  exists c t, str ";base64," ++ s = c :: t /\ word_char c = false.
Proof.
  rewrite str_base64_marker. eexists _, _. split; [reflexivity | apply semicolon_not_word].
Qed.

(** X4. What [upload_reference_image] returns for a non-empty file whose
    content type is image/<word characters> is taken by [generate_image] as
    a reference image: the part built from the returned data URL carries the
    content type and the whole Base64 text. The upload of an empty file, and
    of a type whose first character outside the word class is not ';' (such
    as image/svg+xml), is accepted as well, but the builder drops the data
    URL it returns. *)
Theorem uploaded_image_is_usable (file : upload_file) (subtype : pystr) :
  content_type file = Some (str "image/" ++ subtype) ->
  Z.of_nat (length (file_content file)) <= 10485760 ->
  exists r,
    upload_reference_image file = Ok r
    /\ (subtype <> [] -> Forall (fun c => word_char c = true) subtype ->
        file_content file <> [] ->
        reference_part (up_base64 r)
        = Some (InlineData (str "image/" ++ subtype) (b64encode (file_content file))))
    /\ (Forall (fun c => word_char c = true) subtype -> file_content file = [] ->
        reference_part (up_base64 r) = None)
    /\ ((exists c, head (PyStr.drop_while word_char subtype) = Some c /\ c <> 59%N) ->
        reference_part (up_base64 r) = None).
Proof.
  intros Hct Hn. unfold upload_reference_image. rewrite Hct, startswith_app. cbn [negb].
  destruct (Z.ltb_spec (10 * 1024 * 1024) (Z.of_nat (length (file_content file)))); [lia|].
  eexists. split; [reflexivity|]. cbn [up_base64].
  split; [|split].
  - intros Hsub Hword Hne. apply reference_part_spec. eexists _, _. split; [reflexivity|].
    exists subtype, []. rewrite app_nil_r.
    split; [reflexivity|]. split; [reflexivity|]. split; [exact Hsub|].
    split; [exact Hword|]. split; [apply b64encode_nonempty; exact Hne|].
    split; [apply b64_groups_dot | left; reflexivity].
  - intros Hword Hempty. rewrite Hempty.
    destruct (reference_part _) as [p|] eqn:E; [|reflexivity]. exfalso.
    apply reference_part_spec in E
      as (mime & data & _ & sub & rest & Hs & -> & _ & Hw & Hd & _).
    apply app_inv_head in Hs. rewrite <- !app_assoc in Hs. apply app_inv_head in Hs.
    change (b64encode []) with (@nil N) in Hs. rewrite app_nil_r in Hs.
    rewrite <- (app_nil_r (str ";base64,")) in Hs at 1.
    symmetry in Hs.
    apply word_run_unique in Hs as [_ Hs];
      [| assumption | assumption | right; apply marker_starts_nonword
       | right; apply marker_starts_nonword].
    apply app_inv_head in Hs. destruct data; [done | discriminate Hs].
  - intros (c & Hc & Hne).
    destruct (reference_part _) as [p|] eqn:E; [|reflexivity]. exfalso.
    apply reference_part_spec in E
      as (mime & data & _ & sub & rest & Hs & -> & _ & Hw & _).
    apply app_inv_head in Hs. rewrite <- !app_assoc in Hs. apply app_inv_head in Hs.
    destruct (drop_while_head word_char subtype) as [Hd | (c' & t & Hd & Hc')];
      rewrite Hd in Hc; [discriminate Hc|]. injection Hc as ->.
    rewrite (take_drop_while word_char subtype), Hd, <- app_assoc in Hs.
    symmetry in Hs.
    apply word_run_unique in Hs as [_ Hs];
      [| assumption | apply take_while_Forall | right; apply marker_starts_nonword
       | right; eauto].
    rewrite str_base64_marker in Hs. injection Hs as Hs _. congruence.
Qed.

(* ================================================================== *)
(** ** Submission, status and deletion *)
(* ================================================================== *)

Lemma model_resolution (name : pystr) :
  dict_get MODELS name (dict_get MODELS (str "nano-banana-pro") [])
  = if decide (name = str "nano-banana") then str "gemini-2.5-flash-image"
    else str "gemini-3-pro-image-preview".
Proof.
  unfold MODELS. cbn [dict_get].
  destruct (decide (str "nano-banana" = str "nano-banana-pro")) as [E|_];
    [vm_compute in E; discriminate E|].
  destruct (decide (str "nano-banana-pro" = str "nano-banana-pro")) as [_|E];
    [|exfalso; apply E; reflexivity].
  destruct (decide (str "nano-banana" = name)) as [<- | Hne].
  - destruct (decide (str "nano-banana" = str "nano-banana")) as [_|E];
      [reflexivity | exfalso; apply E; reflexivity].
  - destruct (decide (name = str "nano-banana")) as [E | _];
      [exfalso; apply Hne; symmetry; exact E|].
    destruct (decide (str "nano-banana-pro" = name)); reflexivity.
Qed.

Lemma get_task_status_run (task_id : pystr) (w : world) :
  get_task_status task_id w =
  (match tasks w !! task_id with
   | Some t =>
     Ok (TaskStatusResponse.Build task_id (status t) (progress t) (result_url t)
           (result_base64 t) (error t) (created_at t) (Some (model t)))
   | None => Raise (HTTPException 404 (str "任务不存在"))
   end, w).
Proof.
  unfold get_task_status. rewrite bind_unfold. unfold gets. cbv beta iota.
  destruct (tasks w !! task_id); reflexivity.
Qed.

Lemma delete_task_run (task_id : pystr) (w : world) :
  delete_task task_id w =
  match tasks w !! task_id with
  | Some _ => (Ok (str "任务已删除"), with_tasks (delete task_id (tasks w)) w)
  | None => (Raise (HTTPException 404 (str "任务不存在")), w)
  end.
Proof.
  unfold delete_task. rewrite bind_unfold. unfold gets. cbv beta iota.
  destruct (tasks w !! task_id); reflexivity.
Qed.

(** X5. A submission with a key set and a prompt that is not blank is
    accepted: the model is gemini-2.5-flash-image for "nano-banana" and
    gemini-3-pro-image-preview for every other name, known or not; the poll
    that follows answers processing with progress 10 and no result; one job
    is scheduled, with the built payload and the key of that moment in its
    headers; the records of the other jobs are not touched and no request
    has been sent yet. *)
Theorem accepted_submission_is_pollable
    (request : GenerateRequest.t) (uuid4 now : pystr) (w : world) :
  user_api_key w <> [] ->
  PyStr.strip (GenerateRequest.prompt request) <> [] ->
  let model_name :=
    if decide (GenerateRequest.model request = str "nano-banana")
    then str "gemini-2.5-flash-image" else str "gemini-3-pro-image-preview" in
  exists w1 headers,
    generate_image request uuid4 now w =
    (Ok (GenerateResponse uuid4 processing model_name (str "任务已提交，请轮询获取结果")), w1)
    /\ get_task_status uuid4 w1 =
       (Ok (TaskStatusResponse.Build uuid4 processing 10 None None None now
              (Some model_name)), w1)
    /\ (forall id, id <> uuid4 -> tasks w1 !! id = tasks w !! id)
    /\ scheduled w1 = scheduled w ++ [Job uuid4 model_name (build_payload request) headers]
    /\ (str "x-goog-api-key", user_api_key w) ∈ headers
    /\ user_api_key w1 = user_api_key w
    /\ requests w1 = requests w.
Proof.
  intros Hk Hp model_name.
  destruct (generate_image_accepts request uuid4 now w Hk Hp) as (m & headers & Hrun).
  unfold generate_image in Hrun. rewrite bind_unfold in Hrun. unfold gets in Hrun.
  cbv beta iota in Hrun.
  apply truthy_nonempty in Hk, Hp.
  unfold generate_image. rewrite bind_unfold. unfold gets. cbv beta iota.
  rewrite Hk, Hp. cbn [negb]. rewrite model_resolution. fold model_name.
  eexists _, _. split; [reflexivity|].
  split.
  { rewrite get_task_status_run. cbn [tasks with_tasks with_scheduled].
    rewrite lookup_insert_eq. reflexivity. }
  split.
  { intros id Hid. cbn [tasks with_tasks with_scheduled].
    rewrite lookup_insert_ne by congruence. reflexivity. }
  split; [reflexivity|].
  split; [|split; reflexivity].
  right. left.
Qed.

(** X6. Deleting a job that is in the table removes its record and nothing
    else: the status of that id and a second deletion answer 404, every
    other id is answered as before, and the key, the jobs already scheduled
    and the requests sent stay as they were. *)
Theorem deleted_task_is_gone (task_id : pystr) (t : task) (w : world) :
  tasks w !! task_id = Some t ->
  exists w1,
    delete_task task_id w = (Ok (str "任务已删除"), w1)
    /\ get_task_status task_id w1 = (Raise (HTTPException 404 (str "任务不存在")), w1)
    /\ delete_task task_id w1 = (Raise (HTTPException 404 (str "任务不存在")), w1)
    /\ (forall id, id <> task_id ->
                   fst (get_task_status id w1) = fst (get_task_status id w))
    /\ user_api_key w1 = user_api_key w
    /\ scheduled w1 = scheduled w
    /\ requests w1 = requests w.
Proof.
  intros Ht. rewrite delete_task_run, Ht. eexists. split; [reflexivity|].
  rewrite get_task_status_run, delete_task_run. cbn [tasks with_tasks].
  rewrite lookup_delete_eq. split; [reflexivity|]. split; [reflexivity|].
  split; [|repeat split].
  intros id Hid. rewrite !get_task_status_run. cbn [tasks with_tasks fst].
  rewrite lookup_delete_ne by congruence. reflexivity.
Qed.

(* ================================================================== *)
(** ** The task list *)
(* ================================================================== *)

Lemma str_lt_irrefl (a : pystr) : str_lt a a = false.
Proof.
  induction a as [|x a IH]; [reflexivity|]. cbn [str_lt]. rewrite N.ltb_irrefl. exact IH.
Qed.

Lemma str_lt_asym (a b : pystr) : str_lt a b = true -> str_lt b a = false.
Proof.
  revert b. induction a as [|x a IH]; intros [|y b]; cbn [str_lt]; try done.
  destruct (N.ltb_spec x y), (N.ltb_spec y x); try done; try lia. apply IH.
Qed.

Lemma str_lt_negtrans (a b c : pystr) :
  str_lt a b = false -> str_lt b c = false -> str_lt a c = false.
Proof.
  revert b c. induction a as [|x a IH]; intros [|y b] [|z c]; cbn [str_lt]; try done.
  destruct (N.ltb_spec x y), (N.ltb_spec y x), (N.ltb_spec y z), (N.ltb_spec z y),
           (N.ltb_spec x z), (N.ltb_spec z x); try done; try lia.
  apply IH.
Qed.

Section Sorting.

Context {A : Type} (key : A -> pystr).

Lemma insert_by_key_desc_perm (x : A) (l : list A) :
  insert_by_key_desc key x l ≡ₚ x :: l.
Proof.
  induction l as [|y l IH]; cbn [insert_by_key_desc]; [reflexivity|].
  destruct (str_lt (key x) (key y)); [|reflexivity].
  rewrite IH. apply Permutation_swap.
Qed.

Lemma sorted_reverse_perm (items : list A) : sorted_reverse key items ≡ₚ items.
Proof.
  induction items as [|x items IH]; [reflexivity|].
  cbn [sorted_reverse fold_right]. rewrite insert_by_key_desc_perm.
  constructor. exact IH.
Qed.

Lemma insert_by_key_desc_sorted (x : A) (l : list A) :
  descending key l -> descending key (insert_by_key_desc key x l).
Proof.
  induction l as [|y l IH]; cbn [insert_by_key_desc descending].
  - intros _. split; [constructor | exact I].
  - intros [Hy Hl]. destruct (str_lt (key x) (key y)) eqn:E; cbn [descending].
    + split; [|apply IH; exact Hl].
      eapply Permutation_Forall; [symmetry; apply insert_by_key_desc_perm|].
      constructor; [apply str_lt_asym; exact E | exact Hy].
    + split; [|split; assumption].
      constructor; [exact E|].
      eapply Forall_impl; [exact Hy|]. intros z Hz.
      eapply str_lt_negtrans; [exact E | exact Hz].
Qed.

Lemma sorted_reverse_sorted (items : list A) : descending key (sorted_reverse key items).
Proof.
  induction items as [|x items IH]; [exact I|].
  apply insert_by_key_desc_sorted. exact IH.
Qed.

Lemma descending_lookup (l : list A) :
  descending key l ->
  forall (i j : nat) (a b : A),
    (i < j)%nat -> l !! i = Some a -> l !! j = Some b -> not_older key a b.
Proof.
  induction l as [|x l IH]; intros Hl i j a b Hij Ha Hb; [discriminate Ha|].
  destruct Hl as [Hx Hl]. destruct j as [|j]; [lia|]. cbn in Hb.
  destruct i as [|i].
  - injection Ha as <-. rewrite Forall_forall in Hx. apply Hx.
    eapply list_elem_of_lookup_2. exact Hb.
  - cbn in Ha. apply (IH Hl i j); [lia | assumption..].
Qed.

Lemma insert_by_key_desc_filter (k : pystr) (x : A) (l : list A) :
  filter (fun y => key y = k) (insert_by_key_desc key x l)
  = filter (fun y => key y = k) (x :: l).
Proof.
  induction l as [|y l IH]; cbn [insert_by_key_desc]; [reflexivity|].
  destruct (str_lt (key x) (key y)) eqn:E; [|reflexivity].
  rewrite filter_cons, IH, !filter_cons.
  destruct (decide (key y = k)) as [Hy|Hy], (decide (key x = k)) as [Hx|Hx];
    try reflexivity.
  rewrite Hy, Hx, str_lt_irrefl in E. discriminate E.
Qed.

Lemma sorted_reverse_stable (k : pystr) (items : list A) :
  filter (fun y => key y = k) (sorted_reverse key items)
  = filter (fun y => key y = k) items.
Proof.
  induction items as [|x items IH]; [reflexivity|].
  cbn [sorted_reverse fold_right]. rewrite insert_by_key_desc_filter.
  rewrite !filter_cons. fold (sorted_reverse key items). rewrite IH. reflexivity.
Qed.

End Sorting.

Lemma slice_stop_length {A} (stop : Z) (l : list A) :
  Z.of_nat (length (slice_stop stop l))
  = if 0 <=? stop then Z.min stop (Z.of_nat (length l))
    else Z.max 0 (Z.of_nat (length l) + stop).
Proof.
  unfold slice_stop. destruct (Z.leb_spec 0 stop); rewrite length_take; lia.
Qed.

(** X7. [list_tasks(limit)] returns min(limit, n) entries for a limit that
    is not negative (none for 0) and max(0, n + limit) entries for a
    negative one, n being the number of jobs in the table; each entry shows
    at most the first 50 characters of the prompt. *)
Theorem list_tasks_count (items : list (pystr * task)) (limit : Z) :
  let n := Z.of_nat (length items) in
  Z.of_nat (length (list_tasks items limit))
  = (if 0 <=? limit then Z.min limit n else Z.max 0 (n + limit))
  /\ Forall (fun entry => (length (ts_prompt entry) <= 50)%nat) (list_tasks items limit).
Proof.
  cbv zeta. unfold list_tasks. rewrite length_map, slice_stop_length.
  rewrite (Permutation_length (sorted_reverse_perm _ items)). split; [reflexivity|].
  apply Forall_map. apply Forall_forall. intros item _.
  cbn [summary_of ts_prompt]. unfold PyStr.slice_to. rewrite length_take. lia.
Qed.

(** X8. The entries [list_tasks] returns are the first ones of the table
    sorted by [created_at], latest first: the sorted sequence holds the jobs
    of the table, each once; no entry is followed by one with a greater
    [created_at]; jobs with the same [created_at] keep the order they were
    inserted in; and each entry carries the id, status, progress and result
    URL of its job. *)
Theorem list_tasks_newest_first (items : list (pystr * task)) (limit : Z) :
  exists sorted_tasks,
    list_tasks items limit = map summary_of (slice_stop limit sorted_tasks)
    /\ slice_stop limit sorted_tasks `prefix_of` sorted_tasks
    /\ sorted_tasks ≡ₚ items
    /\ (forall (i j : nat) (a b : pystr * task),
          (i < j)%nat -> sorted_tasks !! i = Some a -> sorted_tasks !! j = Some b ->
          str_lt (created_at (snd a)) (created_at (snd b)) = false)
    /\ (forall stamp,
          filter (fun item => created_at (snd item) = stamp) sorted_tasks
          = filter (fun item => created_at (snd item) = stamp) items)
    /\ (forall (i : nat) (entry : task_summary),
          list_tasks items limit !! i = Some entry ->
          exists task_id t,
            (task_id, t) ∈ items
            /\ entry = TaskSummary task_id (status t) (progress t) (result_url t)
                                   (take 50 (prompt t)) (created_at t)).
Proof.
  set (key := fun x : pystr * task => created_at (snd x)).
  exists (sorted_reverse key items).
  split; [reflexivity|].
  assert (forall l : list (pystr * task), slice_stop limit l `prefix_of` l) as Hpre.
  { intros l. unfold slice_stop. destruct (0 <=? limit); apply prefix_take. }
  split; [apply Hpre|].
  split; [apply sorted_reverse_perm|].
  split.
  { intros i j a b Hij Ha Hb.
    exact (descending_lookup key _ (sorted_reverse_sorted key items) i j a b Hij Ha Hb). }
  split; [intros stamp; apply (sorted_reverse_stable key)|].
  intros i entry Hi. unfold list_tasks in Hi. rewrite list_lookup_fmap in Hi.
  fold key in Hi.
  destruct (slice_stop limit (sorted_reverse key items) !! i) as [[task_id t]|] eqn:E;
    [|discriminate Hi].
  injection Hi as <-. exists task_id, t. split; [|reflexivity].
  apply list_elem_of_lookup_2 in E.
  destruct (Hpre (sorted_reverse key items)) as [rest Hrest].
  rewrite <- (sorted_reverse_perm key items), Hrest. apply elem_of_app. left. exact E.
Qed.

(* ================================================================== *)
(** ** The single-page front end *)
(* ================================================================== *)

Lemma str_slash : str "/" = [47%N].
Proof. vm_compute. reflexivity. Qed.

Lemma str_api : str "api" = [97; 112; 105]%N.
Proof. vm_compute. reflexivity. Qed.

(** X9. [serve_spa] answers 404 for every path that starts with "api",
    whether or not such a file exists. A path that starts with "/" is not
    looked up under FRONTEND_DIR: the file tested and served is the path
    itself, and index.html when it is no file. Every other path is joined to
    FRONTEND_DIR (with a "/" between them unless FRONTEND_DIR is empty or
    ends with one): the joined path is served when it is a file, and
    index.html of FRONTEND_DIR when it is not. *)
Theorem serve_spa_paths (FRONTEND_DIR : pystr) (isfile : pystr -> bool) (full_path : pystr) :
  (PyStr.startswith (str "api") full_path = true ->
   serve_spa FRONTEND_DIR isfile full_path = Raise (HTTPException 404 (str "Not Found")))
  /\ (PyStr.startswith (str "/") full_path = true ->
      serve_spa FRONTEND_DIR isfile full_path
      = Ok (if isfile full_path then full_path
            else path_join FRONTEND_DIR (str "index.html")))
  /\ (PyStr.startswith (str "api") full_path = false ->
      PyStr.startswith (str "/") full_path = false ->
      let sep := if negb (PyStr.truthy FRONTEND_DIR) || endswith (str "/") FRONTEND_DIR
                 then [] else str "/" in
      serve_spa FRONTEND_DIR isfile full_path
      = Ok (if isfile (FRONTEND_DIR ++ sep ++ full_path)
            then FRONTEND_DIR ++ sep ++ full_path
            else FRONTEND_DIR ++ sep ++ str "index.html")).
Proof.
  unfold serve_spa. split; [|split].
  - intros ->. reflexivity.
  - intros Hs.
    assert (PyStr.startswith (str "api") full_path = false) as ->.
    { rewrite str_slash in Hs. rewrite str_api. destruct full_path as [|c rest]; [done|].
      cbn [PyStr.startswith] in Hs |- *. apply andb_true_iff in Hs as [Hc _].
      apply N.eqb_eq in Hc. subst c. reflexivity. }
    cbv zeta.
    assert (path_join FRONTEND_DIR full_path = full_path) as ->
      by (unfold path_join; rewrite Hs; reflexivity).
    destruct (isfile full_path); reflexivity.
  - intros -> Hs. cbv zeta. unfold path_join. rewrite Hs.
    assert (PyStr.startswith (str "/") (str "index.html") = false) as ->
      by (vm_compute; reflexivity).
    destruct (negb (PyStr.truthy FRONTEND_DIR) || endswith (str "/") FRONTEND_DIR);
      cbn [app]; destruct (isfile _); reflexivity.
Qed.
(* ================================================================== *)
(** ** The background job: bookkeeping *)
(* ================================================================== *)

Section Engine.

Variable task_id : pystr.

Lemma set_progress_same (t : task) : set_progress (progress t) t = t.
Proof. destruct t; reflexivity. Qed.

Lemma set_progress_twice (p q : Z) (t : task) :
  set_progress q (set_progress p t) = set_progress q t.
Proof. reflexivity. Qed.

Lemma evolve_tasks (w : world) (t' : task) (reqs : list pystr) (snaps : list task) :
  tasks (evolve task_id w t' reqs snaps) !! task_id = Some t'.
Proof. cbn. apply lookup_insert_eq. Qed.

Lemma evolve_requests (w : world) (t' : task) (reqs : list pystr) (snaps : list task) :
  length (requests (evolve task_id w t' reqs snaps)) = (length (requests w) + length reqs)%nat.
Proof. cbn. apply length_app. Qed.

Lemma evolve_evolve (w : world) (t1 t2 : task) (r1 r2 : list pystr) (s1 s2 : list task) :
  evolve task_id (evolve task_id w t1 r1 s1) t2 r2 s2
  = evolve task_id w t2 (r1 ++ r2) (s1 ++ s2).
Proof.
  unfold evolve; cbn. rewrite insert_insert_eq, <- !app_assoc, map_app. do 2 f_equal.
  f_equal. apply map_ext. intros tk. apply insert_insert_eq.
Qed.

Lemma evolve_nil (w : world) (t : task) :
  tasks w !! task_id = Some t -> evolve task_id w t [] [] = w.
Proof.
  intros H. destruct w; unfold evolve; cbn in *. rewrite insert_id by done.
  rewrite !app_nil_r. reflexivity.
Qed.

Lemma evolve_snapshot (w : world) (t : task) :
  tasks w !! task_id = Some t -> with_observation w = evolve task_id w t [] [t].
Proof.
  intros H. destruct w; unfold evolve, with_observation; cbn in *.
  rewrite insert_id by done. rewrite !app_nil_r. reflexivity.
Qed.

Lemma runs_ret {A} (k : nat) (a : A) (t : task) :
  runs task_id k (mret a) t (Ok a) t [] [].
Proof. intros w Ht _. rewrite evolve_nil by done. reflexivity. Qed.

Lemma runs_raise {A} (k : nat) (e : py_exc) (t : task) :
  runs task_id k (raise (A:=A) e) t (Raise e) t [] [].
Proof. intros w Ht _. rewrite evolve_nil by done. reflexivity. Qed.

Lemma runs_lift {A} (k : nat) (r : res A) (t : task) :
  runs task_id k (lift r) t r t [] [].
Proof. intros w Ht _. rewrite evolve_nil by done. reflexivity. Qed.

Lemma runs_update (k : nat) (f : task -> task) (t : task) :
  runs task_id k (update_task task_id f) t (Ok tt) (f t) [] [].
Proof.
  intros w Ht _. unfold update_task. rewrite Ht.
  destruct w; unfold evolve, with_tasks; cbn. rewrite !app_nil_r. reflexivity.
Qed.

Lemma runs_suspend (k : nat) (t : task) :
  runs task_id k suspend t (Ok tt) t [] [t].
Proof. intros w Ht _. unfold suspend, modify. rewrite (evolve_snapshot w t) by done. done. Qed.

Lemma runs_client_stream (k : nat) (endpoint : pystr) (t : task) :
  runs task_id k (client_stream endpoint) t (Ok (net_stream k endpoint)) t [endpoint] [].
Proof.
  intros w Ht Hk. unfold client_stream. rewrite Hk.
  destruct w; unfold evolve, with_request; cbn in *. rewrite insert_id by done.
  rewrite app_nil_r. reflexivity.
Qed.

Lemma runs_bind_ok {A B} (k : nat) (m : M A) (f : A -> M B) (a : A) (r : res B)
    (t t1 t2 : task) (r1 r2 : list pystr) (s1 s2 : list task) :
  runs task_id k m t (Ok a) t1 r1 s1 ->
  runs task_id (k + length r1) (f a) t1 r t2 r2 s2 ->
  runs task_id k (m ≫= f) t r t2 (r1 ++ r2) (s1 ++ s2).
Proof.
  intros H1 H2 w Ht Hk. rewrite (bind_ok _ _ _ _ _ (H1 w Ht Hk)).
  rewrite H2; [f_equal; apply evolve_evolve | apply evolve_tasks | rewrite evolve_requests; lia].
Qed.

Lemma runs_bind_raise {A B} (k : nat) (m : M A) (f : A -> M B) (e : py_exc)
    (t t1 : task) (r1 : list pystr) (s1 : list task) :
  runs task_id k m t (Raise e) t1 r1 s1 ->
  runs task_id k (m ≫= f) t (Raise e) t1 r1 s1.
Proof. intros H1 w Ht Hk. apply (bind_raise _ _ _ _ _ (H1 w Ht Hk)). Qed.

Lemma runs_try_ok {A} (k : nat) (body : M A) (h : py_exc -> M A) (a : A)
    (t t1 : task) (r1 : list pystr) (s1 : list task) :
  runs task_id k body t (Ok a) t1 r1 s1 ->
  runs task_id k (try_except body h) t (Ok a) t1 r1 s1.
Proof. intros H1 w Ht Hk. unfold try_except. rewrite (H1 w Ht Hk). reflexivity. Qed.

Lemma runs_try_raise {A} (k : nat) (body : M A) (h : py_exc -> M A) (e : py_exc)
    (r : res A) (t t1 t2 : task) (r1 r2 : list pystr) (s1 s2 : list task) :
  runs task_id k body t (Raise e) t1 r1 s1 ->
  runs task_id (k + length r1) (h e) t1 r t2 r2 s2 ->
  runs task_id k (try_except body h) t r t2 (r1 ++ r2) (s1 ++ s2).
Proof.
  intros H1 H2 w Ht Hk. unfold try_except. rewrite (H1 w Ht Hk).
  rewrite H2; [f_equal; apply evolve_evolve | apply evolve_tasks | rewrite evolve_requests; lia].
Qed.

Lemma runs_with_exit {A} (k : nat) (body : M A) (r : res A)
    (t t1 : task) (r1 : list pystr) (s1 : list task) :
  runs task_id k body t r t1 r1 s1 ->
  runs task_id k (with_exit body with_observation) t r t1 r1 (s1 ++ [t1]).
Proof.
  intros H1 w Ht Hk. unfold with_exit. rewrite (H1 w Ht Hk).
  rewrite (evolve_snapshot _ t1) by apply evolve_tasks.
  rewrite evolve_evolve, app_nil_r. reflexivity.
Qed.

Lemma runs_at {A} (k k' : nat) (m : M A) (t : task) (r : res A) (t1 : task)
    (r1 : list pystr) (s1 : list task) :
  k = k' -> runs task_id k' m t r t1 r1 s1 -> runs task_id k m t r t1 r1 s1.
Proof. intros ->. done. Qed.

(** Sequencing after a step that sends no request. *)
Lemma runs_seq {A B} (k : nat) (m : M A) (f : A -> M B) (a : A) (r : res B)
    (t t1 t2 : task) (r2 : list pystr) (s1 s2 : list task) :
  runs task_id k m t (Ok a) t1 [] s1 ->
  runs task_id k (f a) t1 r t2 r2 s2 ->
  runs task_id k (m ≫= f) t r t2 r2 (s1 ++ s2).
Proof.
  intros H1 H2. change r2 with ([] ++ r2). eapply runs_bind_ok; [exact H1|].
  eapply runs_at; [|exact H2]. cbn. lia.
Qed.

(** The same run described with different (equal) outputs. *)
Lemma runs_eq {A} (k : nat) (m : M A) (t : task) (r r' : res A) (t1 t1' : task)
    (r1 r1' : list pystr) (s1 s1' : list task) :
  runs task_id k m t r t1 r1 s1 ->
  r = r' -> t1 = t1' -> r1 = r1' -> s1 = s1' ->
  runs task_id k m t r' t1' r1' s1'.
Proof. intros H -> -> -> ->. exact H. Qed.

(* ================================================================== *)
(** ** The two read loops *)
(* ================================================================== *)

Lemma runs_read_error_body (k : nat) (chunks : list pybytes) (ending : stream_end)
    (error_text : pystr) (t : task) :
  runs task_id k (read_error_body chunks ending error_text) t
       (error_body chunks ending error_text) t [] (repeat t (S (length chunks))).
Proof.
  revert error_text. induction chunks as [|chunk rest IH]; intros error_text;
    cbn [read_error_body error_body length repeat].
  - eapply runs_eq; [eapply runs_seq; [apply runs_suspend|] | | | |]; try reflexivity.
    destruct ending; [apply runs_ret | apply runs_raise].
  - eapply runs_eq; [eapply runs_seq; [apply runs_suspend | apply IH] | | | |];
      reflexivity.
Qed.

Lemma bytes_concat_ok (a b c : pybytes) :
  bytes_concat a b = Ok c -> c = a ++ b /\ Z.of_nat (length c) <= PY_SSIZE_T_MAX.
Proof.
  unfold bytes_concat.
  destruct (Z.ltb_spec PY_SSIZE_T_MAX (Z.of_nat (length a) + Z.of_nat (length b)));
    [discriminate|].
  intros [= <-]. split; [reflexivity|]. rewrite length_app. lia.
Qed.

Lemma estimate_of_length (c : pybytes) :
  Z.of_nat (length c) <= PY_SSIZE_T_MAX ->
  progress_estimate (Z.of_nat (length c)) = Ok (progress_formula (Z.of_nat (length c))).
Proof.
  intros H. apply progress_estimate_exact. unfold PY_SSIZE_T_MAX in H. lia.
Qed.

Lemma last_cons_cons {A} (a b : A) (l : list A) (d d' : A) :
  List.last (a :: b :: l) d = List.last (b :: l) d'.
Proof.
  revert b. induction l as [|c l IH]; intros b; [reflexivity|].
  change (List.last (a :: b :: c :: l) d) with (List.last (b :: c :: l) d).
  change (List.last (b :: c :: l) d) with (List.last (c :: l) d).
  change (List.last (b :: c :: l) d') with (List.last (c :: l) d').
  destruct l as [|c' l]; [reflexivity|].
  change (List.last (c :: c' :: l) d) with (List.last (c' :: l) d).
  change (List.last (c :: c' :: l) d') with (List.last (c' :: l) d').
  clear. revert c'. induction l as [|x l IH]; intros c'; [reflexivity|]. apply IH.
Qed.

(** The body loop: what it returns, the record it leaves and the snapshots a
    poller can see, one before each read. *)
Lemma runs_read_body (k : nat) (chunks : list pybytes) (ending : stream_end) :
  forall (content : pybytes) (t : task),
  let ps := progress t :: stream_progress chunks content in
  runs task_id k (read_body task_id chunks ending content) t
       (body_content chunks ending content)
       (set_progress (List.last ps (progress t)) t) []
       (map (fun p => set_progress p t) ps).
Proof.
  induction chunks as [|chunk rest IH]; intros content t ps; subst ps;
    cbn [read_body body_content stream_progress].
  - cbn [List.last map]. rewrite set_progress_same.
    eapply runs_eq; [eapply runs_seq; [apply runs_suspend|] | | | |]; try reflexivity.
    destruct ending; [apply runs_ret | apply runs_raise].
  - destruct (bytes_concat content chunk) as [content'|e] eqn:Hcat.
    + apply bytes_concat_ok in Hcat as [-> Hlen].
      set (p1 := progress_formula (Z.of_nat (length (content ++ chunk)))).
      specialize (IH (content ++ chunk) (set_progress p1 t)). cbn zeta in IH.
      cbn [progress set_progress] in IH.
      eapply runs_eq.
      * eapply runs_seq; [apply runs_suspend|].
        eapply runs_seq; [apply runs_lift|]. cbv beta.
        rewrite (estimate_of_length _ Hlen).
        eapply runs_seq; [apply runs_lift|].
        eapply runs_seq; [apply runs_update|]. exact IH.
      * reflexivity.
      * fold p1. rewrite set_progress_twice.
        rewrite (last_cons_cons (progress t) p1 _ (progress t) p1). reflexivity.
      * reflexivity.
      * fold p1. cbn [app map]. rewrite set_progress_same. do 2 f_equal.
    + cbn [List.last map]. rewrite set_progress_same.
      eapply runs_eq; [eapply runs_seq; [apply runs_suspend|] | | | |]; try reflexivity.
      eapply runs_eq; [eapply runs_bind_raise; apply runs_lift | | | |]; reflexivity.
Qed.

(* ================================================================== *)
(** ** One attempt *)
(* ================================================================== *)

(** Stepping over a pure computation whose value is known. *)
Lemma runs_lift_ok {A B} (k : nat) (a : A) (f : A -> M B) (r : res B)
    (t t' : task) (rs : list pystr) (ss : list task) :
  runs task_id k (f a) t r t' rs ss ->
  runs task_id k (lift (Ok a) ≫= f) t r t' rs ss.
Proof. intros H w Ht Hk. rewrite bind_unfold. cbn. apply H; done. Qed.

Lemma runs_update_then {B} (k : nat) (g : task -> task) (f : unit -> M B) (r : res B)
    (t t' : task) (rs : list pystr) (ss : list task) :
  runs task_id k (f tt) (g t) r t' rs ss ->
  runs task_id k (update_task task_id g ≫= f) t r t' rs ss.
Proof.
  intros H. eapply runs_eq; [eapply runs_seq; [apply runs_update | exact H] | ..];
    reflexivity.
Qed.

(** One step of a run: a primitive, or a primitive followed by the rest. *)
Ltac run_prim :=
  first [ apply runs_ret | apply runs_raise | apply runs_lift
        | apply runs_update | apply runs_suspend ].

Ltac run_step :=
  first [ run_prim
        | eapply runs_seq; [run_prim | cbv beta iota]
        | eapply runs_bind_raise; run_prim ].

Ltac run_all := eapply runs_eq; [repeat run_step | try reflexivity ..].

Lemma runs_parse_response (k : nat) (content : pybytes) (t : task) :
  runs task_id k (parse_response task_id content) t
       (parse_outcome content) (parse_task content t) [] [].
Proof.
  unfold parse_response, parse_outcome, parse_task, body_verdict.
  destruct (json_loads content) as [data|e] eqn:Hj;
    cbn [mbind res_mbind res_bind mret res_ret]; [|run_all].
  apply runs_lift_ok.
  destruct (classify data) as [[image texts | last_error]|e] eqn:Hc;
    cbn [mbind res_mbind res_bind mret res_ret]; [|run_all..].
  apply runs_lift_ok. do 3 apply runs_update_then.
  destruct (join_thinking texts) as [[joined|]|e] eqn:Hjoin;
    cbn [mbind res_mbind res_bind mret res_ret]; run_all.
Qed.

Lemma parse_outcome_ctl (content : pybytes) :
  parse_outcome content =
  match (v ← body_verdict content;
         match v with
         | Image image text_response =>
           thinking ← join_thinking text_response;
           mret (Succeeds image thinking)
         | NoImage last_error => mret (Fails last_error)
         end) with
  | Ok r => Ok (ctl_of r)
  | Raise e => Raise e
  end.
Proof.
  unfold parse_outcome. destruct (body_verdict content) as [[image texts|le]|e];
    cbn [mbind res_mbind res_bind mret res_ret]; try reflexivity.
  destruct (join_thinking texts); reflexivity.
Qed.

(** What happens between the arrival of the response and the exit from the
    [async with] blocks. *)
Lemma runs_response (k : nat) (o : net_outcome) (t : task) :
  runs task_id k
    (match o with
     | ConnectFailed e => raise e
     | Response status_code chunks ending =>
       if negb (status_code =? 200) then
         error_text ← read_error_body chunks ending [];
         mret (LoopContinue (format_api_error status_code error_text))
       else
         content ← read_body task_id chunks ending [];
         update_task task_id (set_progress 95) ;;
         parse_response task_id content
     end)
    (set_progress 30 t)
    (match attempt_result o with
     | Ok r => Ok (ctl_of r)
     | Raise e => Raise e
     end)
    (attempt_task o t) [] (read_snaps o (set_progress 30 t)).
Proof.
  destruct o as [e | status_code chunks ending];
    cbn [attempt_result attempt_task read_snaps]; [apply runs_raise|].
  destruct (negb (status_code =? 200)) eqn:Hs.
  - pose proof (runs_read_error_body k chunks ending [] (set_progress 30 t)) as Hr.
    destruct (error_body chunks ending []) as [text|e];
      cbn [mbind res_mbind res_bind mret res_ret ctl_of].
    + eapply runs_eq; [eapply runs_seq; [exact Hr | apply runs_ret] | ..];
        try reflexivity. apply app_nil_r.
    + eapply runs_bind_raise. exact Hr.
  - pose proof (runs_read_body k chunks ending [] (set_progress 30 t)) as Hr.
    cbn zeta in Hr. cbn [progress set_progress] in Hr.
    destruct (body_content chunks ending []) as [content|e];
      cbn [mbind res_mbind res_bind mret res_ret].
    + rewrite <- parse_outcome_ctl.
      eapply runs_eq;
        [eapply runs_seq; [exact Hr | apply runs_update_then; apply runs_parse_response]
        | ..]; try reflexivity. apply app_nil_r.
    + eapply runs_bind_raise. exact Hr.
Qed.

Lemma response_outcome_ctl (o : net_outcome) :
  match attempt_result o with
  | Ok r => ctl_of r
  | Raise e => LoopContinue (format_exception e)
  end = ctl_of (response_outcome o).
Proof. unfold response_outcome. destruct (attempt_result o); reflexivity. Qed.

(** One iteration of the loop over the endpoints. *)
Lemma runs_attempt (k : nat) (model_name : pystr) (pl : payload)
    (headers : list (pystr * pystr)) (host : pystr) (t : task) :
  let o := net_stream k (generation_endpoint host model_name) in
  runs task_id k (attempt task_id model_name pl headers host) t
       (Ok (ctl_of (response_outcome o))) (attempt_task o t)
       [generation_endpoint host model_name] (attempt_snaps o t).
Proof.
  intros o. unfold attempt. set (ep := generation_endpoint host model_name) in *.
  clearbody ep. rewrite <- response_outcome_ctl.
  assert (runs task_id k
            (update_task task_id (set_progress 30) ;;
             with_exit
               (response ← client_stream ep;
                suspend ;;
                match response with
                | ConnectFailed e => raise e
                | Response status_code chunks ending =>
                  if negb (status_code =? 200) then
                    error_text ← read_error_body chunks ending [];
                    mret (LoopContinue (format_api_error status_code error_text))
                  else
                    content ← read_body task_id chunks ending [];
                    update_task task_id (set_progress 95) ;;
                    parse_response task_id content
                end) with_observation)
            t
            (match attempt_result o with
             | Ok r => Ok (ctl_of r)
             | Raise e => Raise e
             end)
            (attempt_task o t) [ep] (attempt_snaps o t)) as Hbody.
  { apply runs_update_then. unfold attempt_snaps. cbn zeta.
    change (set_progress 30 t :: read_snaps o (set_progress 30 t) ++ [attempt_task o t])
      with ((set_progress 30 t :: read_snaps o (set_progress 30 t)) ++ [attempt_task o t]).
    apply runs_with_exit.
    eapply runs_eq.
    - eapply runs_bind_ok; [apply runs_client_stream|]. cbv beta.
      eapply runs_seq; [apply runs_suspend|]. apply runs_response.
    - reflexivity.
    - reflexivity.
    - reflexivity.
    - reflexivity. }
  destruct (attempt_result o) as [r|e].
  - apply runs_try_ok. exact Hbody.
  - eapply runs_eq; [eapply runs_try_raise; [exact Hbody | apply runs_ret] | ..];
      try reflexivity; apply app_nil_r.
Qed.

(* ================================================================== *)
(** ** The loop over the endpoints and the whole job *)
(* ================================================================== *)

Lemma runs_try_hosts (model_name : pystr) (pl : payload) (headers : list (pystr * pystr))
    (hosts : list pystr) :
  forall (k : nat) (t : task) (last_error : option pystr),
  runs task_id k (try_hosts task_id model_name pl headers hosts last_error) t
       (Ok (loop_result model_name k hosts last_error))
       (loop_task model_name k hosts t)
       (map (fun h => generation_endpoint h model_name)
            (take (attempted model_name k hosts) hosts))
       (concat (loop_segments model_name k hosts t)).
Proof.
  induction hosts as [|host rest IH]; intros k t last_error;
    cbn [try_hosts loop_result loop_task attempted loop_segments].
  - apply runs_ret.
  - pose proof (runs_attempt k model_name pl headers host t) as Ha. cbn zeta in Ha.
    destruct (response_outcome (net_stream k (generation_endpoint host model_name)))
      as [image thinking | e]; cbn [ctl_of] in Ha.
    + eapply runs_eq; [eapply runs_bind_ok; [exact Ha | apply runs_ret] | ..];
        reflexivity.
    + eapply runs_eq;
        [eapply runs_bind_ok;
         [exact Ha | eapply runs_at; [|apply (IH (S k))]; cbn [length]; lia] | ..];
        reflexivity.
Qed.

Lemma runs_execute (hosts : list pystr) (model_name : pystr) (pl : payload)
    (headers : list (pystr * pystr)) (k : nat) (t : task) :
  runs task_id k (execute_generation_over hosts task_id model_name pl headers) t
       (Ok tt) (final_task model_name k hosts t)
       (map (fun h => generation_endpoint h model_name)
            (take (attempted model_name k hosts) hosts))
       (concat (loop_segments model_name k hosts t)).
Proof.
  unfold execute_generation_over, final_task.
  pose proof (runs_try_hosts model_name pl headers hosts k t None) as Hl.
  destruct (loop_result model_name k hosts None) as [|last_error].
  - eapply runs_eq; [eapply runs_bind_ok; [exact Hl | apply runs_ret] | ..];
      try reflexivity; apply app_nil_r.
  - eapply runs_eq;
      [eapply runs_bind_ok;
       [exact Hl | apply runs_update_then; apply runs_update] | ..];
      try reflexivity; apply app_nil_r.
Qed.

(** The whole job, on any world in which the record exists. *)
Lemma execute_generation_run (hosts : list pystr) (model_name : pystr) (pl : payload)
    (headers : list (pystr * pystr)) (w : world) (t : task) :
  tasks w !! task_id = Some t ->
  execute_generation_over hosts task_id model_name pl headers w =
  (Ok tt,
   evolve task_id w (final_task model_name (length (requests w)) hosts t)
     (map (fun h => generation_endpoint h model_name)
          (take (attempted model_name (length (requests w)) hosts) hosts))
     (concat (loop_segments model_name (length (requests w)) hosts t))).
Proof. intros Ht. apply runs_execute; done. Qed.

(* ================================================================== *)
(** ** The progress values of one attempt *)
(* ================================================================== *)

Lemma progress_formula_range (n : Z) : 0 <= n -> 30 <= progress_formula n <= 90.
Proof.
  intros H. unfold progress_formula.
  assert (0 <= n * 60 / 50000) by (apply Z.div_pos; lia). lia.
Qed.

Lemma progress_formula_mono (n m : Z) :
  n <= m -> progress_formula n <= progress_formula m.
Proof.
  intros H. unfold progress_formula.
  assert (n * 60 / 50000 <= m * 60 / 50000) by (apply Z.div_le_mono; lia). lia.
Qed.

Lemma ascending_weaken (lo lo' : Z) (l : list Z) :
  lo' <= lo -> ascending lo l -> ascending lo' l.
Proof. destruct l; cbn; [done|]. intros H [H1 H2]. split; [lia | done]. Qed.

Lemma ascending_lower (lo : Z) (l : list Z) :
  ascending lo l -> Forall (fun x => lo <= x) l.
Proof.
  revert lo. induction l as [|x l IH]; intros lo; cbn; [constructor|].
  intros [H1 H2]. constructor; [done|].
  eapply Forall_impl; [apply (IH x H2)|]. cbn. intros; lia.
Qed.

Lemma ascending_nondecreasing (lo : Z) (l : list Z) :
  ascending lo l -> nondecreasing l.
Proof.
  revert lo. induction l as [|x l IH]; intros lo Ha i j a b Hij Hi Hj.
  - rewrite lookup_nil in Hi. discriminate.
  - destruct Ha as [Hx Hl]. destruct i as [|i], j as [|j]; cbn in Hi, Hj.
    + injection Hi as <-. injection Hj as <-. lia.
    + injection Hi as <-. pose proof (ascending_lower _ _ Hl) as Hf.
      rewrite Forall_forall in Hf. apply Hf. eapply list_elem_of_lookup_2. exact Hj.
    + lia.
    + eapply (IH x Hl i j); [lia | done | done].
Qed.

(** Appending a value that is not below the last one. *)
Lemma ascending_snoc (lo y : Z) (l : list Z) :
  ascending lo l -> List.last l lo <= y -> ascending lo (l ++ [y]).
Proof.
  revert lo. induction l as [|x l IH]; intros lo; cbn [app ascending].
  - cbn. intros _ H. split; [lia | exact I].
  - intros [Hx Hl] Hlast. split; [done|]. apply IH; [done|].
    destruct l as [|x' l]; [exact Hlast|].
    rewrite (last_cons_cons x x' l lo x) in Hlast. exact Hlast.
Qed.

Lemma ascending_last_upper (lo hi : Z) (l : list Z) :
  lo <= hi -> Forall (fun x => x <= hi) l -> List.last l lo <= hi.
Proof.
  intros Hlo Hf. revert lo Hlo. induction Hf as [|x l Hx Hf IH]; intros lo Hlo; [exact Hlo|].
  destruct l as [|x' l]; [exact Hx|].
  rewrite (last_cons_cons x x' l lo x). apply IH. exact Hx.
Qed.

Lemma stream_progress_ascending (chunks : list pybytes) :
  forall content : pybytes,
    ascending (progress_formula (Z.of_nat (length content)))
              (stream_progress chunks content).
Proof.
  induction chunks as [|chunk rest IH]; intros content; cbn [stream_progress ascending];
    [exact I|].
  destruct (bytes_concat content chunk) as [content'|e] eqn:Hcat; [|exact I].
  apply bytes_concat_ok in Hcat as [-> _]. cbn [ascending]. split; [|apply IH].
  apply progress_formula_mono. rewrite length_app. lia.
Qed.

Lemma stream_progress_range (chunks : list pybytes) :
  forall content : pybytes,
    Forall (fun p => 30 <= p <= 90) (stream_progress chunks content).
Proof.
  induction chunks as [|chunk rest IH]; intros content; cbn [stream_progress];
    [constructor|].
  destruct (bytes_concat content chunk) as [content'|e]; [|constructor].
  constructor; [apply progress_formula_range; lia | apply IH].
Qed.

Lemma last_range (lo hi d : Z) (l : list Z) :
  lo <= d <= hi -> Forall (fun p => lo <= p <= hi) l -> lo <= List.last l d <= hi.
Proof.
  intros Hd Hf. revert d Hd. induction Hf as [|x l Hx Hf IH]; intros d Hd; [exact Hd|].
  destruct l as [|x' l]; [exact Hx|].
  rewrite (last_cons_cons x x' l d x). apply IH. exact Hx.
Qed.

Lemma completed_with_fields (image : pystr) (joined : option pystr) (t : task) :
  status (completed_with image joined t) = completed
  /\ progress (completed_with image joined t) = 100
  /\ result_base64 (completed_with image joined t) = Some image
  /\ thinking (completed_with image joined t) = from_option Some (thinking t) joined
  /\ error (completed_with image joined t) = error t
  /\ same_request t (completed_with image joined t).
Proof. destruct joined; repeat split. Qed.

(** The record a parse leaves has progress 95 (nothing written) or 100 (the
    success branch was entered). *)
Lemma parse_task_progress (content : pybytes) (t : task) :
  progress t = 95 ->
  progress (parse_task content t) = 95 \/ progress (parse_task content t) = 100.
Proof.
  intros Ht. unfold parse_task.
  destruct (body_verdict content) as [[image texts|le]|e]; [right | left | left]; try done.
  apply completed_with_fields.
Qed.

(** The last value of the streaming progress, as a record's progress. *)
Lemma stream_last_range (chunks : list pybytes) :
  30 <= List.last (30 :: stream_progress chunks []) 30 <= 90.
Proof.
  apply last_range; [lia|]. constructor; [lia | apply stream_progress_range].
Qed.

Lemma attempt_task_progress (o : net_outcome) (t : task) :
  30 <= progress (attempt_task o t) <= 100.
Proof.
  unfold attempt_task. cbv zeta.
  destruct o as [e | status_code chunks ending]; [cbn [progress set_progress]; lia|].
  destruct (negb (status_code =? 200)); [cbn [progress set_progress]; lia|].
  destruct (body_content chunks ending []) as [content|e].
  - destruct (parse_task_progress content (set_progress 95 (set_progress 30 t)) eq_refl)
      as [-> | ->]; lia.
  - cbn [progress set_progress]. pose proof (stream_last_range chunks). lia.
Qed.

(** The progress values a poller can see during one attempt. *)
Lemma attempt_snaps_progress (o : net_outcome) (t : task) :
  exists middle,
    map progress (attempt_snaps o t) = 30 :: middle ++ [progress (attempt_task o t)]
    /\ ascending 30 middle
    /\ List.last middle 30 <= progress (attempt_task o t)
    /\ Forall (fun p => 30 <= p <= 90) middle.
Proof.
  unfold attempt_snaps. cbn zeta. rewrite map_cons, map_app. cbn [map progress set_progress].
  exists (map progress (read_snaps o (set_progress 30 t))). split; [reflexivity|].
  destruct o as [e | status_code chunks ending]; cbn [read_snaps attempt_task].
  - cbn. repeat split; [lia | constructor].
  - destruct (negb (status_code =? 200)).
    + assert (map progress (repeat (set_progress 30 t) (S (length chunks)))
              = repeat 30 (S (length chunks))) as ->.
      { generalize (S (length chunks)). intros n. induction n; cbn; [done | by f_equal]. }
      generalize (S (length chunks)). intros n. cbn [progress set_progress].
      split; [|split].
      * induction n as [|n IH]; cbn; [exact I | split; [lia | exact IH]].
      * apply ascending_last_upper; [lia|]. apply Forall_forall.
        intros x Hx. apply list_elem_of_In, repeat_spec in Hx. lia.
      * apply Forall_forall. intros x Hx. apply list_elem_of_In, repeat_spec in Hx. lia.
    + rewrite map_map. cbn [progress set_progress]. rewrite map_id.
      pose proof (stream_progress_ascending chunks []) as Ha.
      pose proof (stream_progress_range chunks []) as Hr.
      change (progress_formula (Z.of_nat (length (@nil Byte.byte)))) with 30 in Ha.
      split; [|split].
      * cbn [ascending]. split; [lia | exact Ha].
      * destruct (body_content chunks ending []) as [content|e].
        -- pose proof (stream_last_range chunks).
           destruct (parse_task_progress content (set_progress 95 (set_progress 30 t))
                       eq_refl) as [-> | ->]; lia.
        -- cbn [progress set_progress]. lia.
      * constructor; [lia | exact Hr].
Qed.

Lemma attempt_trace (o : net_outcome) (t : task) :
  attempt_trace_ok (map progress (attempt_snaps o t)).
Proof.
  destruct (attempt_snaps_progress o t) as (middle & -> & Ha & Hl & Hr).
  pose proof (attempt_task_progress o t) as Hp.
  split; [reflexivity|]. split.
  - constructor; [lia|]. apply Forall_app. split.
    + eapply Forall_impl; [exact Hr|]. cbn. intros; lia.
    + constructor; [exact Hp | constructor].
  - apply (ascending_nondecreasing 30). cbn [ascending]. split; [lia|].
    apply ascending_snoc; done.
Qed.

Lemma attempt_snaps_last (o : net_outcome) (t : task) :
  last (attempt_snaps o t) = Some (attempt_task o t).
Proof. unfold attempt_snaps. cbn zeta. rewrite last_cons, last_snoc. reflexivity. Qed.

(* ================================================================== *)
(** ** What one attempt does to the record *)
(* ================================================================== *)

Lemma app_nonempty_l {A} (a b : list A) : a <> [] -> a ++ b <> [].
Proof. destruct a; [done | discriminate]. Qed.

Lemma app_nonempty_r {A} (a b : list A) : b <> [] -> a ++ b <> [].
Proof. destruct a, b; done. Qed.

Ltac literal_nonempty :=
  let H := fresh in intros H; vm_compute in H; discriminate H.

Lemma format_exception_nonempty (e : py_exc) : format_exception e <> [].
Proof.
  unfold format_exception. apply app_nonempty_r, app_nonempty_l. literal_nonempty.
Qed.

Lemma format_api_error_nonempty (status_code : Z) (error_text : pystr) :
  format_api_error status_code error_text <> [].
Proof. unfold format_api_error. apply app_nonempty_l. literal_nonempty. Qed.

(** Case analysis on a computation in [res]. *)
Ltac res_cases :=
  repeat first
    [ progress cbn [mbind res_mbind res_bind mret res_ret]
    | match goal with
      | |- context [mbind _ ?x] => destruct x eqn:?
      end
    | match goal with
      | |- context [if ?b then _ else _] => destruct b eqn:?
      end
    | match goal with
      | |- context [match ?x with _ => _ end] => destruct x eqn:?
      end ].

Lemma classify_reason_nonempty (data : json) (last_error : pystr) :
  classify data = Ok (NoImage last_error) -> last_error <> [].
Proof.
  unfold classify. res_cases; intros [= <-];
    repeat (first [apply app_nonempty_l; literal_nonempty | literal_nonempty]).
Qed.

Lemma attempt_task_carried (o : net_outcome) (t : task) :
  same_request t (attempt_task o t) /\ error (attempt_task o t) = error t.
Proof.
  unfold attempt_task. cbv zeta. destruct o as [e | status_code chunks ending]; [done|].
  destruct (negb (status_code =? 200)); [done|].
  destruct (body_content chunks ending []) as [content|e]; [|done].
  unfold parse_task. destruct (body_verdict content) as [[image texts|le]|e]; [|done..].
  destruct (completed_with_fields image
              (match join_thinking texts with Ok joined => joined | Raise _ => None end)
              (set_progress 95 (set_progress 30 t))) as (_ & _ & _ & _ & He & Hs).
  split; [exact Hs | exact He].
Qed.

(** A successful attempt: the record is the one of the success branch, and
    the image is the one the parser found. *)
Lemma attempt_success (o : net_outcome) (t : task) (image : pystr)
    (joined : option pystr) :
  response_outcome o = Succeeds image joined ->
  attempt_task o t = completed_with image joined (set_progress 95 (set_progress 30 t))
  /\ found_image o = Some image.
Proof.
  unfold response_outcome, attempt_result, attempt_task, found_image. cbv zeta.
  destruct o as [e | status_code chunks ending]; [discriminate|].
  destruct (negb (status_code =? 200)).
  { destruct (error_body chunks ending []); discriminate. }
  destruct (body_content chunks ending []) as [content|e];
    cbn [mbind res_mbind res_bind mret res_ret]; [|discriminate].
  unfold parse_task.
  destruct (body_verdict content) as [[img texts|le]|e];
    cbn [mbind res_mbind res_bind mret res_ret]; [|discriminate..].
  destruct (join_thinking texts) as [th|e];
    cbn [mbind res_mbind res_bind mret res_ret]; [|discriminate].
  intros [= -> ->]. done.
Qed.

(** A failed attempt records a non-empty reason and never touches
    [thinking]; it leaves status and result alone and the progress between 30
    and 95, unless the parser had found an image and joining the text
    raised, in which case the three writes of the success branch stay. *)
Lemma attempt_failure (o : net_outcome) (t : task) (last_error : pystr) :
  response_outcome o = Fails last_error ->
  last_error <> [] /\ thinking (attempt_task o t) = thinking t
  /\ match found_image o with
     | None =>
       status (attempt_task o t) = status t
       /\ result_base64 (attempt_task o t) = result_base64 t
       /\ 30 <= progress (attempt_task o t) <= 95
     | Some image =>
       status (attempt_task o t) = completed
       /\ progress (attempt_task o t) = 100
       /\ result_base64 (attempt_task o t) = Some image
     end.
Proof.
  unfold response_outcome, attempt_result, attempt_task, found_image. cbv zeta.
  destruct o as [e | status_code chunks ending].
  { intros [= <-]. split; [apply format_exception_nonempty|].
    cbn [thinking status result_base64 progress set_progress]. repeat split; lia. }
  destruct (negb (status_code =? 200)).
  { destruct (error_body chunks ending []) as [text|e];
      cbn [mbind res_mbind res_bind mret res_ret]; intros [= <-];
      (split; [first [apply format_exception_nonempty | apply format_api_error_nonempty]|]);
      cbn [thinking status result_base64 progress set_progress]; repeat split; lia. }
  destruct (body_content chunks ending []) as [content|e];
    cbn [mbind res_mbind res_bind mret res_ret].
  2:{ intros [= <-]. split; [apply format_exception_nonempty|].
      cbn [thinking status result_base64 progress set_progress].
      pose proof (stream_last_range chunks). repeat split; lia. }
  unfold parse_task, body_verdict.
  destruct (json_loads content) as [data|e]; cbn [mbind res_mbind res_bind mret res_ret].
  2:{ intros [= <-]. split; [apply format_exception_nonempty|].
      cbn [thinking status result_base64 progress set_progress]. repeat split; lia. }
  destruct (classify data) as [[img texts|le]|e] eqn:Hc;
    cbn [mbind res_mbind res_bind mret res_ret].
  - destruct (join_thinking texts) as [th|e];
      cbn [mbind res_mbind res_bind mret res_ret]; [discriminate|].
    intros [= <-]. split; [apply format_exception_nonempty|].
    destruct (completed_with_fields img None (set_progress 95 (set_progress 30 t)))
      as (Hs & Hp & Hr & Ht & _ & _).
    split; [exact Ht|]. done.
  - intros [= <-]. split; [eapply classify_reason_nonempty; exact Hc|].
    cbn [thinking status result_base64 progress set_progress]. repeat split; lia.
  - intros [= <-]. split; [apply format_exception_nonempty|].
    cbn [thinking status result_base64 progress set_progress]. repeat split; lia.
Qed.

(* ================================================================== *)
(** ** The loop over the endpoints *)
(* ================================================================== *)

Section Loop.

Variable model_name : pystr.

Let ep (host : pystr) : pystr := generation_endpoint host model_name.

Lemma same_request_trans (t1 t2 t3 : task) :
  same_request t1 t2 -> same_request t2 t3 -> same_request t1 t3.
Proof. unfold same_request. intros (?&?&?&?) (?&?&?&?). repeat split; congruence. Qed.

Lemma loop_task_carried (hosts : list pystr) :
  forall (k : nat) (t : task),
    same_request t (loop_task model_name k hosts t)
    /\ error (loop_task model_name k hosts t) = error t.
Proof.
  induction hosts as [|host rest IH]; intros k t; cbn [loop_task]; [done|]. cbv zeta.
  destruct (attempt_task_carried (net_stream k (generation_endpoint host model_name)) t)
    as [Hs He].
  destruct (response_outcome (net_stream k (generation_endpoint host model_name)));
    [done|].
  destruct (IH (S k) (attempt_task (net_stream k (generation_endpoint host model_name)) t))
    as [Hs' He'].
  split; [eapply same_request_trans; eassumption | congruence].
Qed.

(** The first endpoint with an image ends the loop. *)
Lemma loop_first_success (M : nat) :
  forall (hosts : list pystr) (k : nat) (t : task) (last_error : option pystr)
         (host image : pystr) (joined : option pystr),
    hosts !! M = Some host ->
    (forall i h, (i < M)%nat -> hosts !! i = Some h ->
                 attempt_fails (net_stream (k + i) (ep h))) ->
    response_outcome (net_stream (k + M) (ep host)) = Succeeds image joined ->
    loop_result model_name k hosts last_error = Returned
    /\ attempted model_name k hosts = S M
    /\ exists t0, loop_task model_name k hosts t = completed_with image joined t0
                  /\ same_request t t0 /\ error t0 = error t /\ thinking t0 = thinking t.
Proof.
  induction M as [|M IH]; intros hosts k t last_error host image joined Hh Hf Hs;
    destruct hosts as [|h0 rest]; try discriminate; cbn in Hh;
    cbn [loop_result attempted loop_task]; cbv zeta.
  - injection Hh as ->. rewrite Nat.add_0_r in Hs. unfold ep in Hs. rewrite Hs.
    destruct (attempt_success _ t _ _ Hs) as [-> _].
    split; [done|]. split; [done|]. eexists. split; [reflexivity|]. done.
  - destruct (Hf 0%nat h0) as [e He]; [lia | done|].
    rewrite Nat.add_0_r in He. unfold ep in He. rewrite He.
    destruct (IH rest (S k) (attempt_task (net_stream k (generation_endpoint h0 model_name)) t)
                (Some e) host image joined Hh) as (Hr & Ha & t0 & Ht0 & Hsr & Her & Hth).
    { intros i h Hi Hl. replace (S k + i)%nat with (k + S i)%nat by lia.
      apply Hf; [lia | done]. }
    { replace (S k + M)%nat with (k + S M)%nat by lia. exact Hs. }
    destruct (attempt_task_carried (net_stream k (generation_endpoint h0 model_name)) t)
      as [Hc1 Hc2].
    destruct (attempt_failure _ t _ He) as (_ & Hth0 & _).
    split; [done|]. split; [lia|]. exists t0. split; [done|].
    split; [eapply same_request_trans; eassumption|]. split; congruence.
Qed.

(** When every endpoint fails, all of them are tried and the reason kept is
    the one of the last attempt. *)
Lemma loop_all_fail (hosts : list pystr) :
  forall (k : nat) (last_error : option pystr),
    (forall i h, hosts !! i = Some h -> attempt_fails (net_stream (k + i) (ep h))) ->
    attempted model_name k hosts = length hosts
    /\ exists last_error',
        loop_result model_name k hosts last_error = Exhausted last_error'
        /\ match last hosts with
           | None => last_error' = last_error
           | Some h =>
             exists e,
               response_outcome (net_stream (k + length hosts - 1) (ep h)) = Fails e
               /\ last_error' = Some e /\ e <> []
           end.
Proof.
  induction hosts as [|h0 rest IH]; intros k last_error Hf;
    cbn [loop_result attempted length].
  - split; [done|]. eexists. split; [reflexivity|]. reflexivity.
  - destruct (Hf 0%nat h0) as [e He]; [done|].
    rewrite Nat.add_0_r in He. unfold ep in He. rewrite He.
    destruct (IH (S k) (Some e)) as (Ha & le' & Hr & Hl).
    { intros i h Hl. replace (S k + i)%nat with (k + S i)%nat by lia. apply Hf. done. }
    split; [lia|]. exists le'. split; [done|]. rewrite last_cons.
    destruct (last rest) as [h'|] eqn:Hlast.
    + destruct Hl as (e' & He' & -> & Hne). exists e'.
      assert (rest <> []) by (intros ->; discriminate).
      destruct rest; [done|]. cbn [length] in *.
      replace (k + S (S (length rest)) - 1)%nat with (S k + S (length rest) - 1)%nat by lia.
      done.
    + subst le'. exists e. replace (k + S (length rest) - 1)%nat with k.
      * split; [exact He|]. split; [done|].
        destruct (attempt_failure _ (Task processing 0 None None None [] [] [] None) _ He)
          as (Hne & _). exact Hne.
      * apply last_None in Hlast. subst rest. cbn. lia.
Qed.

(** Where the progress stands when the loop is over. *)
Lemma loop_progress (hosts : list pystr) :
  forall (k : nat) (t : task) (last_error : option pystr),
    match loop_result model_name k hosts last_error with
    | Returned =>
      status (loop_task model_name k hosts t) = completed
      /\ progress (loop_task model_name k hosts t) = 100
    | Exhausted _ =>
      match last hosts with
      | None => loop_task model_name k hosts t = t
      | Some h =>
        match found_image (net_stream (k + length hosts - 1) (ep h)) with
        | None => 30 <= progress (loop_task model_name k hosts t) <= 95
        | Some _ => progress (loop_task model_name k hosts t) = 100
        end
      end
    end.
Proof.
  induction hosts as [|h0 rest IH]; intros k t last_error;
    cbn [loop_result loop_task length]; [reflexivity|]. cbv zeta.
  destruct (response_outcome (net_stream k (generation_endpoint h0 model_name)))
    as [image joined | e] eqn:Ho.
  - destruct (attempt_success _ t _ _ Ho) as [-> _].
    split; apply completed_with_fields.
  - specialize (IH (S k) (attempt_task (net_stream k (generation_endpoint h0 model_name)) t)
                  (Some e)).
    destruct (loop_result model_name (S k) rest (Some e)); [exact IH|].
    rewrite last_cons. destruct (last rest) as [h'|] eqn:Hlast.
    + assert (rest <> []) by (intros ->; discriminate).
      destruct rest; [done|]. cbn [length] in *.
      replace (k + S (S (length rest)) - 1)%nat with (S k + S (length rest) - 1)%nat by lia.
      exact IH.
    + apply last_None in Hlast. subst rest. cbn [loop_task length] in *.
      replace (k + 1 - 1)%nat with k by lia. unfold ep.
      destruct (attempt_failure _ t _ Ho) as (_ & _ & Hcase).
      destruct (found_image (net_stream k (generation_endpoint h0 model_name)));
        [apply Hcase | apply Hcase].
Qed.

Lemma loop_segments_ok (hosts : list pystr) :
  forall (k : nat) (t : task),
    length (loop_segments model_name k hosts t) = attempted model_name k hosts
    /\ Forall (fun seg => attempt_trace_ok (map progress seg))
              (loop_segments model_name k hosts t).
Proof.
  induction hosts as [|h0 rest IH]; intros k t; cbn [loop_segments attempted length];
    [split; [done | constructor]|]. cbv zeta.
  destruct (response_outcome (net_stream k (generation_endpoint h0 model_name))).
  - split; [done|]. constructor; [apply attempt_trace | constructor].
  - destruct (IH (S k) (attempt_task (net_stream k (generation_endpoint h0 model_name)) t))
      as [Hl Hf].
    split; [cbn [length]; lia|]. constructor; [apply attempt_trace | exact Hf].
Qed.

(** What the last suspension of the loop shows is the record the loop
    leaves. *)
Lemma loop_segments_last (hosts : list pystr) :
  forall (k : nat) (t : task) (seg : list task),
    last (loop_segments model_name k hosts t) = Some seg ->
    last seg = Some (loop_task model_name k hosts t).
Proof.
  induction hosts as [|h0 rest IH]; intros k t seg;
    cbn [loop_segments loop_task]; [discriminate|]. cbv zeta.
  destruct (response_outcome (net_stream k (generation_endpoint h0 model_name))).
  - intros [= <-]. apply attempt_snaps_last.
  - rewrite last_cons.
    destruct (last (loop_segments model_name (S k) rest
                      (attempt_task (net_stream k (generation_endpoint h0 model_name)) t)))
      as [seg'|] eqn:Hlast.
    + intros [= <-]. apply IH. exact Hlast.
    + intros [= <-]. apply last_None in Hlast.
      destruct rest as [|h1 rest]; [apply attempt_snaps_last|].
      cbn [loop_segments] in Hlast. discriminate.
Qed.

End Loop.

(* ================================================================== *)
(** ** The job as a poller sees it *)
(* ================================================================== *)

Lemma poll_lookup (w : world) (ts : gmap pystr task) :
  poll task_id w ts =
  match ts !! task_id with
  | Some t => Ok (snapshot_of task_id t)
  | None => Raise (HTTPException 404 (str "任务不存在"))
  end.
Proof.
  unfold poll, get_task_status. rewrite bind_unfold. unfold gets. cbn [tasks with_tasks].
  destruct (ts !! task_id); reflexivity.
Qed.

Lemma polled_progress_evolve (w : world) (t' : task) (reqs : list pystr)
    (snaps : list task) :
  polled_progress task_id (evolve task_id w t' reqs snaps)
  = seen_before task_id w ++ map progress snaps ++ [progress t'].
Proof.
  unfold polled_progress, polls, seen_before.
  set (w' := evolve task_id w t' reqs snaps).
  assert (forall l : list (gmap pystr task),
            omap (fun r => match r with
                           | Ok resp => Some (TaskStatusResponse.progress resp)
                           | Raise _ => None
                           end) (map (poll task_id w') l)
            = omap (fun ts : gmap pystr task => progress <$> ts !! task_id) l) as Hl.
  { intros l. induction l as [|ts l IH]; [reflexivity|].
    cbn [map omap list_omap]. rewrite poll_lookup.
    change (list_omap ?f ?l) with (omap f l). rewrite IH.
    destruct (ts !! task_id); reflexivity. }
  rewrite Hl. unfold w', evolve. cbn [observable tasks]. clear Hl w'.
  rewrite <- !app_assoc, !omap_app. f_equal. f_equal.
  - induction snaps as [|s snaps IH]; [reflexivity|].
    cbn [map omap list_omap]. rewrite lookup_insert_eq. cbn [fmap option_fmap option_map].
    f_equal. exact IH.
  - cbn [omap list_omap]. rewrite lookup_insert_eq. reflexivity.
Qed.

Lemma py_or_some (e d : pystr) : e <> [] -> py_or (Some e) d = e.
Proof. intros H. apply truthy_nonempty in H. unfold py_or. rewrite H. reflexivity. Qed.

(* ================================================================== *)
(** ** Failover *)
(* ================================================================== *)

(** X16. With the first M endpoints failing (in whatever way an attempt can
    fail) and endpoint M+1 answering with a response in which the parser
    finds an image and whose text parts are joined without an exception, the
    job ends completed with progress 100 and that image as its result; the
    endpoints contacted are the first M+1 and no other. *)
Theorem first_image_completes_job
    (hosts : list pystr) (model_name : pystr) (pl : payload)
    (headers : list (pystr * pystr)) (w : world) (t : task)
    (M : nat) (host image : pystr) (joined : option pystr) :
  tasks w !! task_id = Some t ->
  hosts !! M = Some host ->
  (forall i h, (i < M)%nat -> hosts !! i = Some h ->
     attempt_fails (net_stream (length (requests w) + i) (generation_endpoint h model_name))) ->
  response_outcome (net_stream (length (requests w) + M)
                               (generation_endpoint host model_name))
  = Succeeds image joined ->
  exists w' t',
    execute_generation_over hosts task_id model_name pl headers w = (Ok tt, w')
    /\ tasks w' !! task_id = Some t'
    /\ status t' = completed /\ progress t' = 100
    /\ result_base64 t' = Some image
    /\ thinking t' = from_option Some (thinking t) joined
    /\ error t' = error t
    /\ requests w' = requests w ++ map (fun h => generation_endpoint h model_name)
                                       (take (S M) hosts)
    /\ poll task_id w' (tasks w') = Ok (snapshot_of task_id t').
Proof.
  intros Ht Hh Hf Hs.
  destruct (loop_first_success model_name M hosts (length (requests w)) t None
              host image joined Hh Hf Hs) as (Hr & Ha & t0 & Ht0 & Hsr & He & Hth).
  rewrite (execute_generation_run hosts model_name pl headers w t Ht).
  unfold final_task. rewrite Hr, Ha, Ht0.
  destruct (completed_with_fields image joined t0) as (F1 & F2 & F3 & F4 & F5 & F6).
  eexists _, _. split; [reflexivity|].
  split; [apply evolve_tasks|].
  split; [exact F1|]. split; [exact F2|]. split; [exact F3|].
  split; [rewrite F4, Hth; reflexivity|]. split; [congruence|].
  split; [reflexivity|].
  rewrite poll_lookup, evolve_tasks. reflexivity.
Qed.

(** C4. When every endpoint attempt fails, the job ends failed; its error is
    the reason recorded by the last attempt, or the generic message when no
    endpoint is configured; the job returns normally and the poll that
    follows answers with the record, error included. *)
Theorem all_endpoints_fail_job
    (hosts : list pystr) (model_name : pystr) (pl : payload)
    (headers : list (pystr * pystr)) (w : world) (t : task) :
  tasks w !! task_id = Some t ->
  (forall i h, hosts !! i = Some h ->
     attempt_fails (net_stream (length (requests w) + i) (generation_endpoint h model_name))) ->
  exists w' t' reason,
    execute_generation_over hosts task_id model_name pl headers w = (Ok tt, w')
    /\ tasks w' !! task_id = Some t'
    /\ status t' = failed
    /\ error t' = Some reason
    /\ match last hosts with
       | None => reason = str "所有主机都失败"
       | Some h =>
         response_outcome (net_stream (length (requests w) + length hosts - 1)
                                      (generation_endpoint h model_name))
         = Fails reason
       end
    /\ requests w' = requests w ++ map (fun h => generation_endpoint h model_name) hosts
    /\ poll task_id w' (tasks w') = Ok (snapshot_of task_id t')
    /\ TaskStatusResponse.error (snapshot_of task_id t') = Some reason.
Proof.
  intros Ht Hf.
  destruct (loop_all_fail model_name hosts (length (requests w)) None Hf)
    as (Ha & le' & Hr & Hl).
  rewrite (execute_generation_run hosts model_name pl headers w t Ht).
  unfold final_task. rewrite Hr, Ha, firstn_all.
  eexists _, _, (py_or le' (str "所有主机都失败")). split; [reflexivity|].
  split; [apply evolve_tasks|]. split; [reflexivity|]. split; [reflexivity|].
  split.
  - destruct (last hosts) as [h|].
    + destruct Hl as (e & He & -> & Hne). rewrite py_or_some by done. exact He.
    + subst le'. reflexivity.
  - split; [reflexivity|]. split; [|reflexivity].
    rewrite poll_lookup, evolve_tasks. reflexivity.
Qed.

(* ================================================================== *)
(** ** Progress *)
(* ================================================================== *)

(** C1, amended. Within one endpoint attempt the progress a poller reads
    never goes down: it starts at 30 and stays between 30 and 100; every
    further attempt starts again at 30. The job ends completed or failed;
    when it ends completed its progress is 100; when it ends failed its
    progress is the last value written, which is at most 95 when the last
    attempt found no image (and the value at creation when no endpoint is
    configured). *)
Theorem progress_monotone_within_attempt
    (hosts : list pystr) (model_name : pystr) (pl : payload)
    (headers : list (pystr * pystr)) (w : world) (t : task) :
  tasks w !! task_id = Some t ->
  exists w' t' segs,
    execute_generation_over hosts task_id model_name pl headers w = (Ok tt, w')
    /\ tasks w' !! task_id = Some t'
    /\ polled_progress task_id w' = seen_before task_id w ++ concat segs ++ [progress t']
    /\ length segs = attempted model_name (length (requests w)) hosts
    /\ Forall attempt_trace_ok segs
    /\ (forall seg, last segs = Some seg -> last seg = Some (progress t'))
    /\ (status t' = completed \/ status t' = failed)
    /\ (status t' = completed -> progress t' = 100)
    /\ (status t' = failed ->
        match last hosts with
        | None => progress t' = progress t
        | Some h =>
          found_image (net_stream (length (requests w) + length hosts - 1)
                                  (generation_endpoint h model_name)) = None ->
          30 <= progress t' <= 95
        end).
Proof.
  intros Ht. set (k := length (requests w)).
  rewrite (execute_generation_run hosts model_name pl headers w t Ht). fold k.
  destruct (loop_segments_ok model_name hosts k t) as [Hlen Hok].
  pose proof (loop_segments_last model_name hosts k t) as Hlast.
  pose proof (loop_progress model_name hosts k t None) as Hp.
  assert (progress (final_task model_name k hosts t)
          = progress (loop_task model_name k hosts t)) as Hfp.
  { unfold final_task. destruct (loop_result model_name k hosts None); reflexivity. }
  eexists _, _, (map (map progress) (loop_segments model_name k hosts t)).
  split; [reflexivity|]. split; [apply evolve_tasks|].
  split.
  { rewrite polled_progress_evolve, concat_map. reflexivity. }
  split; [rewrite length_map; exact Hlen|].
  split; [apply Forall_map; exact Hok|].
  split.
  { intros seg Hseg. rewrite Hfp.
    change (last (map (map progress) (loop_segments model_name k hosts t)))
      with (last (map progress <$> loop_segments model_name k hosts t)) in Hseg.
    rewrite fmap_last in Hseg.
    destruct (last (loop_segments model_name k hosts t)) as [seg0|] eqn:E; [|discriminate].
    injection Hseg as <-.
    change (last (map progress seg0)) with (last (progress <$> seg0)).
    rewrite fmap_last, (Hlast seg0 eq_refl). reflexivity. }
  unfold final_task in *.
  destruct (loop_result model_name k hosts None) as [|le].
  - destruct Hp as [Hs Hpr]. split; [left; exact Hs|]. split; [intros _; exact Hpr|].
    rewrite Hs. discriminate.
  - split; [right; reflexivity|]. split; [discriminate|]. intros _.
    cbn [progress set_error set_status].
    destruct (last hosts) as [h|]; [|rewrite Hp; reflexivity].
    intros Hnone. rewrite Hnone in Hp. exact Hp.
Qed.

(* ================================================================== *)
(** ** Streaming *)
(* ================================================================== *)

Lemma bytes_concat_fits (a b : pybytes) :
  Z.of_nat (length (a ++ b)) <= PY_SSIZE_T_MAX -> bytes_concat a b = Ok (a ++ b).
Proof.
  intros H. unfold bytes_concat. rewrite length_app in H.
  destruct (Z.ltb_spec PY_SSIZE_T_MAX (Z.of_nat (length a) + Z.of_nat (length b)));
    [lia | reflexivity].
Qed.

(** The progress after the [j]-th chunk is the formula at the number of bytes
    received so far. *)
Lemma stream_progress_formula (chunks : list pybytes) :
  forall content : pybytes,
    Z.of_nat (length (content ++ concat chunks)) <= PY_SSIZE_T_MAX ->
    stream_progress chunks content =
    map (fun j => progress_formula
                    (Z.of_nat (length (content ++ concat (take j chunks)))))
        (seq 1 (length chunks)).
Proof.
  induction chunks as [|chunk rest IH]; intros content Hlen; [reflexivity|].
  cbn [stream_progress length seq map concat] in *.
  rewrite bytes_concat_fits.
  2:{ rewrite !length_app in *. lia. }
  f_equal.
  - cbn [take concat]. rewrite app_nil_r. reflexivity.
  - rewrite IH by (rewrite <- app_assoc; exact Hlen).
    rewrite <- (seq_shift (length rest) 1), map_map. apply map_ext. intros j.
    cbn [take concat]. rewrite <- app_assoc. reflexivity.
Qed.

(** C7. While a 200 response is streamed, the progress written after each
    chunk is min(30 + floor(bytes_so_far / 50000 * 60), 90), computed in
    binary64 as the source does; the value is at most 90 for every byte
    count; and 95 is reached only when the stream has ended: an attempt whose
    stream breaks stays at 90 or below. *)
Theorem streaming_progress_capped
    (model_name : pystr) (pl : payload) (headers : list (pystr * pystr))
    (host : pystr) (chunks : list pybytes) (ending : stream_end)
    (w : world) (t : task) :
  tasks w !! task_id = Some t ->
  net_stream (length (requests w)) (generation_endpoint host model_name)
  = Response 200 chunks ending ->
  let t30 := set_progress 30 t in
  let written := stream_progress chunks [] in
  exists ctl t',
    attempt task_id model_name pl headers host w =
    (Ok ctl,
     evolve task_id w t' [generation_endpoint host model_name]
            (t30 :: map (fun p => set_progress p t30) (30 :: written) ++ [t']))
    /\ (Z.of_nat (length (concat chunks)) <= PY_SSIZE_T_MAX ->
        written =
        map (fun j =>
               Z.min (30 + Z.of_nat (length (concat (take j chunks))) * 60 / 50000) 90)
            (seq 1 (length chunks)))
    /\ (forall n, 0 <= n <= PY_SSIZE_T_MAX ->
                  progress_estimate n = Ok (Z.min (30 + n * 60 / 50000) 90))
    /\ (forall n p, progress_estimate n = Ok p -> p <= 90)
    /\ Forall (fun p => 30 <= p <= 90) written
    /\ match body_content chunks ending [] with
       | Ok _ => 95 <= progress t'
       | Raise _ => progress t' <= 90
       end.
Proof.
  intros Ht Hnet t30 written.
  pose proof (runs_attempt (length (requests w)) model_name pl headers host t w Ht eq_refl)
    as Hrun.
  cbv zeta in Hrun. rewrite Hnet in Hrun.
  eexists _, _. split; [exact Hrun|].
  split.
  { intros Hlen. unfold written. rewrite stream_progress_formula by exact Hlen.
    reflexivity. }
  split.
  { intros n Hn. apply progress_estimate_exact. unfold PY_SSIZE_T_MAX in Hn. lia. }
  split.
  { intros n p. unfold progress_estimate.
    destruct (int_truediv n 50000) as [q|]; cbn [mbind res_mbind res_bind]; [|discriminate].
    destruct (int_of_float (float_mul_int q 60)) as [v|];
      cbn [mbind res_mbind res_bind mret res_ret]; [|discriminate].
    intros [= <-]. lia. }
  split; [apply stream_progress_range|].
  cbn [attempt_task negb Z.eqb Pos.eqb]. cbv zeta.
  destruct (body_content chunks ending []) as [content|e].
  - destruct (parse_task_progress content (set_progress 95 (set_progress 30 t)) eq_refl)
      as [-> | ->]; lia.
  - cbn [progress set_progress]. pose proof (stream_last_range chunks). lia.
Qed.

(* ================================================================== *)
(** ** Inline parts of a response *)
(* ================================================================== *)

Lemma scan_parts_cons (part : json) (rest : list json) (image_data : option pystr)
    (text_response : list json) :
  scan_parts (part :: rest) image_data text_response =
  scan_step part image_data text_response ≫= fun it => scan_parts rest (fst it) (snd it).
Proof.
  cbn [scan_parts]. unfold scan_step, inline_image.
  destruct (Json.contains (str "inlineData") part) as [[|]|];
    cbn [mbind res_mbind res_bind mret res_ret]; [| |reflexivity].
  - destruct (getitem part (str "inlineData")) as [inline_data|];
      cbn [mbind res_mbind res_bind mret res_ret]; [|reflexivity].
    destruct (Json.get inline_data (str "mimeType") (JStr (str "image/png")));
      cbn [mbind res_mbind res_bind mret res_ret]; [|reflexivity].
    destruct (Json.get inline_data (str "data") (JStr []));
      cbn [mbind res_mbind res_bind mret res_ret]; [|reflexivity].
    destruct (Json.len a0); reflexivity.
  - destruct (Json.contains (str "text") part) as [[|]|];
      cbn [mbind res_mbind res_bind mret res_ret]; [| reflexivity..].
    destruct (getitem part (str "text")); reflexivity.
Qed.

Lemma scan_parts_app (before after : list json) :
  forall (image_data : option pystr) (text_response : list json)
         (r : option pystr * list json),
    scan_parts (before ++ after) image_data text_response = Ok r ->
    exists i1 t1, scan_parts before image_data text_response = Ok (i1, t1)
                  /\ scan_parts after i1 t1 = Ok r.
Proof.
  induction before as [|p before IH]; intros image_data text_response r H.
  - eexists _, _. split; [reflexivity | exact H].
  - change ((p :: before) ++ after) with (p :: (before ++ after)) in H.
    rewrite scan_parts_cons in H. rewrite scan_parts_cons.
    destruct (scan_step p image_data text_response) as [[i t]|];
      cbn [mbind res_mbind res_bind fst snd] in *; [|discriminate].
    apply IH. exact H.
Qed.

(** Parts without the key [inlineData] leave the image found so far alone. *)
Lemma scan_parts_keeps_image (after : list json) :
  forall (image_data : option pystr) (text_response : list json)
         (r : option pystr * list json),
    Forall (fun q => Json.contains (str "inlineData") q = Ok false) after ->
    scan_parts after image_data text_response = Ok r ->
    fst r = image_data.
Proof.
  induction after as [|q after IH]; intros image_data text_response r Hf H.
  - cbn in H. injection H as <-. reflexivity.
  - inversion Hf as [|? ? Hq Hf']; subst. revert H.
    rewrite scan_parts_cons. unfold scan_step. rewrite Hq.
    cbn [mbind res_mbind res_bind mret res_ret].
    destruct (Json.contains (str "text") q) as [[|]|];
      cbn [mbind res_mbind res_bind mret res_ret fst snd]; [| |discriminate].
    + destruct (getitem q (str "text"));
        cbn [mbind res_mbind res_bind mret res_ret fst snd]; [|discriminate].
      intros H. eapply IH; eassumption.
    + intros H. eapply IH; eassumption.
Qed.

Lemma lookup_head (key : pystr) (v : json) (rest : list (pystr * json)) :
  Json.lookup key ((key, v) :: rest) = Some v.
Proof. cbn. destruct (decide (key = key)); [reflexivity | contradiction]. Qed.

Lemma truthy_data_prefix (s : pystr) : PyStr.truthy (str "data:" ++ s) = true.
Proof.
  apply truthy_nonempty. apply app_nonempty_l. intros H. vm_compute in H. discriminate H.
Qed.

(** A response whose first candidate was scanned to an image is an image
    result, whatever else the document holds. *)
Lemma classify_first_candidate (data : json) (content_parts : list json) (image : pystr)
    (text_response : list json) :
  first_candidate_parts data content_parts ->
  scan_parts content_parts None [] = Ok (Some image, text_response) ->
  image <> [] ->
  classify data = Ok (Image image text_response).
Proof.
  intros (fields & cfields & others & ofields & -> & Hc & Ho & Hp) Hscan Hne.
  unfold classify. cbn [Json.get]. rewrite Hc.
  cbn [from_option id mbind res_mbind res_bind Json.truthy negb Json.index0 Json.get].
  rewrite Ho. cbn [from_option id mbind res_mbind res_bind Json.get].
  rewrite Hp. cbn [from_option id mbind res_mbind res_bind Json.iter].
  rewrite Hscan. cbn [mbind res_mbind res_bind image_found].
  apply truthy_nonempty in Hne. rewrite Hne. reflexivity.
Qed.

Lemma inline_image_nonempty (part : json) (image : pystr) :
  inline_image part = Ok image -> image <> [].
Proof.
  unfold inline_image.
  destruct (getitem part (str "inlineData")) as [inline_data|];
    cbn [mbind res_mbind res_bind]; [|discriminate].
  destruct (Json.get inline_data (str "mimeType") (JStr (str "image/png"))) as [mime|];
    cbn [mbind res_mbind res_bind]; [|discriminate].
  destruct (Json.get inline_data (str "data") (JStr [])) as [data|];
    cbn [mbind res_mbind res_bind]; [|discriminate].
  destruct (Json.len data); cbn [mbind res_mbind res_bind mret res_ret]; [|discriminate].
  intros [= <-]. apply app_nonempty_l. intros H. vm_compute in H. discriminate H.
Qed.

(** The image the scan is left with is the one of the last inline part. *)
Lemma scan_parts_last_inline (before after : list json) (part : json)
    (image0 image_data : option pystr) (text0 text_response : list json) :
  scan_parts (before ++ part :: after) image0 text0 = Ok (image_data, text_response) ->
  Json.contains (str "inlineData") part = Ok true ->
  Forall (fun q => Json.contains (str "inlineData") q = Ok false) after ->
  exists image, inline_image part = Ok image /\ image_data = Some image.
Proof.
  intros Hscan Hin Hafter.
  apply scan_parts_app in Hscan as (i1 & t1 & _ & Hscan).
  rewrite scan_parts_cons in Hscan. unfold scan_step in Hscan. rewrite Hin in Hscan.
  cbn [mbind res_mbind res_bind] in Hscan.
  destruct (inline_image part) as [image|];
    cbn [mbind res_mbind res_bind mret res_ret fst snd] in Hscan; [|discriminate].
  exists image. split; [reflexivity|].
  apply (scan_parts_keeps_image after _ _ _ Hafter) in Hscan. exact Hscan.
Qed.

(** The data URL of an inline part whose [data] is missing or empty. *)
Lemma inline_image_empty_data (part : json) (fields : list (pystr * json)) (image : pystr) :
  inline_image part = Ok image ->
  getitem part (str "inlineData") = Ok (JObj fields) ->
  Json.lookup (str "data") fields = None \/
  Json.lookup (str "data") fields = Some (JStr []) ->
  image = str "data:"
          ++ py_str (default (JStr (str "image/png")) (Json.lookup (str "mimeType") fields))
          ++ str ";base64,".
Proof.
  intros Hi Hg Hdata. unfold inline_image in Hi. rewrite Hg in Hi.
  cbn [mbind res_mbind res_bind Json.get] in Hi.
  assert (from_option id (JStr []) (Json.lookup (str "data") fields) = JStr []) as Hd
    by (destruct Hdata as [-> | ->]; reflexivity).
  rewrite Hd in Hi. cbn [mbind res_mbind res_bind mret res_ret Json.len py_str] in Hi.
  injection Hi as <-. rewrite app_nil_r. reflexivity.
Qed.

(** X17. Let endpoint M+1 be the first that does not fail, and let it answer
    200 with a document whose first candidate holds several parts, scanned
    without an exception, the text parts joined without one. Then the job
    ends completed with progress 100 and its result is the data URL of the
    last part that has the key [inlineData]: each later inline part replaces
    what an earlier one gave. When [data] of that part is missing or empty,
    the result is data:<mime>;base64, with nothing after the comma. *)
Theorem last_inline_part_wins
    (hosts : list pystr) (model_name : pystr) (pl : payload)
    (headers : list (pystr * pystr)) (w : world) (t : task)
    (M : nat) (host : pystr) (chunks : list pybytes) (ending : stream_end)
    (content : pybytes) (data : json) (before after : list json) (part : json)
    (image_data : option pystr) (text_response : list json) (joined : option pystr) :
  tasks w !! task_id = Some t ->
  hosts !! M = Some host ->
  (forall i h, (i < M)%nat -> hosts !! i = Some h ->
     attempt_fails (net_stream (length (requests w) + i) (generation_endpoint h model_name))) ->
  net_stream (length (requests w) + M) (generation_endpoint host model_name)
  = Response 200 chunks ending ->
  body_content chunks ending [] = Ok content ->
  json_loads content = Ok data ->
  first_candidate_parts data (before ++ part :: after) ->
  scan_parts (before ++ part :: after) None [] = Ok (image_data, text_response) ->
  join_thinking text_response = Ok joined ->
  Json.contains (str "inlineData") part = Ok true ->
  Forall (fun q => Json.contains (str "inlineData") q = Ok false) after ->
  exists image w' t',
    inline_image part = Ok image
    /\ (forall fields,
          getitem part (str "inlineData") = Ok (JObj fields) ->
          Json.lookup (str "data") fields = None \/
          Json.lookup (str "data") fields = Some (JStr []) ->
          image = str "data:"
                  ++ py_str (default (JStr (str "image/png"))
                                     (Json.lookup (str "mimeType") fields))
                  ++ str ";base64,")
    /\ execute_generation_over hosts task_id model_name pl headers w = (Ok tt, w')
    /\ tasks w' !! task_id = Some t'
    /\ status t' = completed /\ progress t' = 100
    /\ result_base64 t' = Some image
    /\ requests w' = requests w ++ map (fun h => generation_endpoint h model_name)
                                       (take (S M) hosts).
Proof.
  intros Ht Hh Hf Hnet Hbody Hjson Hdoc Hscan Hjoin Hin Hafter.
  destruct (scan_parts_last_inline _ _ _ _ _ _ _ Hscan Hin Hafter) as (image & Hi & ->).
  pose proof (classify_first_candidate _ _ _ _ Hdoc Hscan (inline_image_nonempty _ _ Hi))
    as Hc.
  assert (response_outcome (net_stream (length (requests w) + M)
                                       (generation_endpoint host model_name))
          = Succeeds image joined) as Hs.
  { rewrite Hnet. unfold response_outcome, attempt_result.
    cbn [negb Z.eqb Pos.eqb]. rewrite Hbody. cbn [mbind res_mbind res_bind].
    unfold body_verdict. rewrite Hjson. cbn [mbind res_mbind res_bind].
    rewrite Hc. cbn [mbind res_mbind res_bind]. rewrite Hjoin. reflexivity. }
  destruct (loop_first_success model_name M hosts (length (requests w)) t None
              host image joined Hh Hf Hs) as (Hr & Ha & t0 & Ht0 & _).
  rewrite (execute_generation_run hosts model_name pl headers w t Ht).
  unfold final_task. rewrite Hr, Ha, Ht0.
  destruct (completed_with_fields image joined t0) as (F1 & F2 & F3 & _).
  exists image. eexists _, _. split; [exact Hi|].
  split; [intros fields Hg Hdata; exact (inline_image_empty_data _ _ _ Hi Hg Hdata)|].
  split; [reflexivity|]. split; [apply evolve_tasks|].
  split; [exact F1|]. split; [exact F2|]. split; [exact F3 | reflexivity].
Qed.

(* ================================================================== *)
(** ** The job and the rest of the process *)
(* ================================================================== *)

Lemma attempt_without_record (model_name : pystr) (pl : payload)
    (headers : list (pystr * pystr)) (host : pystr) (w : world) :
  tasks w !! task_id = None ->
  attempt task_id model_name pl headers host w
  = (Ok (LoopContinue (format_exception (Exc (str "KeyError") (repr (JStr task_id))))), w).
Proof.
  intros Ht. unfold attempt, try_except. cbv zeta. rewrite bind_unfold.
  unfold update_task at 1. rewrite Ht. reflexivity.
Qed.

Lemma try_hosts_without_record (model_name : pystr) (pl : payload)
    (headers : list (pystr * pystr)) (hosts : list pystr) (w : world) :
  tasks w !! task_id = None ->
  forall last_error,
    exists last_error',
      try_hosts task_id model_name pl headers hosts last_error w
      = (Ok (Exhausted last_error'), w).
Proof.
  intros Ht. induction hosts as [|host rest IH]; intros last_error; cbn [try_hosts].
  - eexists. reflexivity.
  - rewrite bind_unfold, attempt_without_record by exact Ht. cbv beta iota. apply IH.
Qed.

(** X10. When the record of the job is not in the table (it was deleted),
    [_execute_generation] contacts no endpoint: every round of the loop
    fails on its first write, and the write after the loop raises KeyError
    out of the job; the process state is left as it was. *)
Theorem job_without_record
    (hosts : list pystr) (model_name : pystr) (pl : payload)
    (headers : list (pystr * pystr)) (w : world) :
  tasks w !! task_id = None ->
  execute_generation_over hosts task_id model_name pl headers w
  = (Raise (Exc (str "KeyError") (repr (JStr task_id))), w).
Proof.
  intros Ht. unfold execute_generation_over. rewrite bind_unfold.
  destruct (try_hosts_without_record model_name pl headers hosts w Ht None) as [le ->].
  cbv beta iota. rewrite bind_unfold. unfold update_task at 1. rewrite Ht. reflexivity.
Qed.

Lemma attempted_le (model_name : pystr) (hosts : list pystr) :
  forall k, (attempted model_name k hosts <= length hosts)%nat.
Proof.
  induction hosts as [|host rest IH]; intros k; cbn [attempted length]; [lia|].
  destruct (response_outcome _); [lia|]. specialize (IH (S k)). lia.
Qed.

(** X11. A run of the job writes the record of its own job and nothing
    else: the records of the other jobs, the key, the key file and the list
    of scheduled jobs are as before; in its record, [created_at], [prompt],
    [model] and [result_url] keep their values; and the requests it sends
    go to the first n endpoints of the list, in order and once each. *)
Theorem job_writes_own_record_only
    (hosts : list pystr) (model_name : pystr) (pl : payload)
    (headers : list (pystr * pystr)) (w : world) (t : task) :
  tasks w !! task_id = Some t ->
  exists w' t' n,
    execute_generation_over hosts task_id model_name pl headers w = (Ok tt, w')
    /\ tasks w' = <[task_id := t']> (tasks w)
    /\ (forall id, id <> task_id -> tasks w' !! id = tasks w !! id)
    /\ created_at t' = created_at t /\ prompt t' = prompt t
    /\ model t' = model t /\ result_url t' = result_url t
    /\ user_api_key w' = user_api_key w
    /\ api_key_file w' = api_key_file w
    /\ scheduled w' = scheduled w
    /\ (n <= length hosts)%nat
    /\ requests w' = requests w
                     ++ map (fun h => generation_endpoint h model_name) (take n hosts).
Proof.
  intros Ht. rewrite (execute_generation_run hosts model_name pl headers w t Ht).
  eexists _, _, _. split; [reflexivity|].
  split; [reflexivity|].
  split.
  { intros id Hid. cbn [evolve tasks]. rewrite lookup_insert_ne by congruence. reflexivity. }
  destruct (loop_task_carried model_name hosts (length (requests w)) t)
    as [(H1 & H2 & H3 & H4) _].
  assert (forall t0 : task,
             created_at (final_task model_name (length (requests w)) hosts t)
             = created_at (loop_task model_name (length (requests w)) hosts t)
             /\ prompt (final_task model_name (length (requests w)) hosts t)
                = prompt (loop_task model_name (length (requests w)) hosts t)
             /\ model (final_task model_name (length (requests w)) hosts t)
                = model (loop_task model_name (length (requests w)) hosts t)
             /\ result_url (final_task model_name (length (requests w)) hosts t)
                = result_url (loop_task model_name (length (requests w)) hosts t))
    as Hfin.
  { intros _. unfold final_task.
    destruct (loop_result model_name (length (requests w)) hosts None); repeat split. }
  destruct (Hfin t) as (F1 & F2 & F3 & F4).
  split; [congruence|]. split; [congruence|]. split; [congruence|]. split; [congruence|].
  split; [reflexivity|]. split; [reflexivity|]. split; [reflexivity|].
  split; [apply attempted_le | reflexivity].
Qed.

(** X12. Only the first candidate of a response is read: the remaining
    candidates, and the other fields of the document (a block reason
    included), do not change how the response is classified. *)
Theorem only_first_candidate_counts
    (fields : list (pystr * json)) (candidate : json) (others : list json) :
  Json.lookup (str "candidates") fields = Some (JArr (candidate :: others)) ->
  classify (JObj fields) = classify (JObj [(str "candidates", JArr [candidate])]).
Proof.
  intros H. unfold classify. cbn [Json.get]. rewrite H, (lookup_head (str "candidates")).
  reflexivity.
Qed.

Lemma refused_attempt (o : net_outcome) (t : task) :
  refused o ->
  attempt_task o t = set_progress 30 t
  /\ (exists e, response_outcome o = Fails e)
  /\ Forall (fun s => progress s = 30) (attempt_snaps o t).
Proof.
  intros Ho. unfold attempt_snaps, attempt_task, read_snaps, response_outcome, attempt_result.
  cbv zeta. destruct o as [e | status_code chunks ending].
  - split; [reflexivity|]. split; [eexists; reflexivity|].
    repeat constructor.
  - cbn [refused] in Ho. apply Z.eqb_neq in Ho. rewrite Ho. cbn [negb].
    split; [reflexivity|]. split.
    + destruct (error_body chunks ending []); eexists; reflexivity.
    + constructor; [reflexivity|]. apply Forall_app. split; [|repeat constructor].
      apply Forall_forall. intros s Hs. apply list_elem_of_In, repeat_spec in Hs.
      subst s. reflexivity.
Qed.

Lemma refused_loop (model_name : pystr) (hosts : list pystr) :
  forall (k : nat) (t : task) (last_error : option pystr),
    (forall i h, hosts !! i = Some h ->
                 refused (net_stream (k + i) (generation_endpoint h model_name))) ->
    (exists last_error', loop_result model_name k hosts last_error = Exhausted last_error')
    /\ attempted model_name k hosts = length hosts
    /\ loop_task model_name k hosts t = match hosts with [] => t | _ => set_progress 30 t end
    /\ Forall (fun s => progress s = 30) (concat (loop_segments model_name k hosts t)).
Proof.
  induction hosts as [|host rest IH]; intros k t last_error Hr;
    cbn [loop_result attempted loop_task loop_segments length concat].
  - split; [eexists; reflexivity|]. repeat split. constructor.
  - cbv zeta.
    destruct (refused_attempt (net_stream k (generation_endpoint host model_name)) t)
      as (Ht & [e He] & Hs).
    { specialize (Hr 0%nat host eq_refl). rewrite Nat.add_0_r in Hr. exact Hr. }
    rewrite He, Ht.
    destruct (IH (S k) (set_progress 30 t) (Some e)) as (Hres & Ha & Hl & Hseg).
    { intros i h Hi. replace (S k + i)%nat with (k + S i)%nat by lia. apply Hr. exact Hi. }
    split; [exact Hres|]. split; [lia|]. split.
    + rewrite Hl. destruct rest; reflexivity.
    + apply Forall_app. split; [exact Hs | exact Hseg].
Qed.

(** X13. When every endpoint of a non-empty list is out of reach or answers
    with a status other than 200, the job ends failed with progress 30 and
    the result it had; every endpoint is contacted once, and every poll
    made while the job runs reads progress 30. *)
Theorem refused_everywhere_stays_at_30
    (hosts : list pystr) (model_name : pystr) (pl : payload)
    (headers : list (pystr * pystr)) (w : world) (t : task) :
  tasks w !! task_id = Some t ->
  hosts <> [] ->
  (forall i h, hosts !! i = Some h ->
     refused (net_stream (length (requests w) + i) (generation_endpoint h model_name))) ->
  exists w' t' during,
    execute_generation_over hosts task_id model_name pl headers w = (Ok tt, w')
    /\ tasks w' !! task_id = Some t'
    /\ status t' = failed /\ progress t' = 30
    /\ result_base64 t' = result_base64 t
    /\ requests w' = requests w ++ map (fun h => generation_endpoint h model_name) hosts
    /\ polled_progress task_id w' = seen_before task_id w ++ during
    /\ Forall (fun p => p = 30) during.
Proof.
  intros Ht Hne Hr.
  rewrite (execute_generation_run hosts model_name pl headers w t Ht).
  destruct (refused_loop model_name hosts (length (requests w)) t None Hr)
    as ([le Hres] & Ha & Hl & Hseg).
  unfold final_task. rewrite Hres, Ha, Hl, firstn_all.
  destruct hosts as [|host rest]; [done|].
  eexists _, _, _. split; [reflexivity|]. split; [apply evolve_tasks|].
  split; [reflexivity|]. split; [reflexivity|]. split; [reflexivity|].
  split; [reflexivity|].
  split; [apply polled_progress_evolve|].
  apply Forall_app. split.
  - apply Forall_map. exact Hseg.
  - repeat constructor.
Qed.

Lemma loop_last_found (model_name : pystr) (hosts : list pystr) :
  forall (k : nat) (t : task) (h image : pystr),
    (forall i h', hosts !! i = Some h' ->
       attempt_fails (net_stream (k + i) (generation_endpoint h' model_name))) ->
    last hosts = Some h ->
    found_image (net_stream (k + length hosts - 1) (generation_endpoint h model_name))
    = Some image ->
    status (loop_task model_name k hosts t) = completed
    /\ progress (loop_task model_name k hosts t) = 100
    /\ result_base64 (loop_task model_name k hosts t) = Some image.
Proof.
  induction hosts as [|h0 rest IH]; intros k t h image Hf Hlast Hfound; [discriminate Hlast|].
  cbn [loop_task]. cbv zeta.
  destruct (Hf 0%nat h0 eq_refl) as [e He]. rewrite Nat.add_0_r in He. rewrite He.
  destruct rest as [|h1 rest'].
  - injection Hlast as <-. cbn [loop_task length] in *.
    replace (k + 1 - 1)%nat with k in Hfound by lia.
    pose proof (attempt_failure _ t _ He) as (_ & _ & Hcase).
    rewrite Hfound in Hcase. exact Hcase.
  - apply (IH (S k) _ h image).
    + intros i h' Hi. replace (S k + i)%nat with (k + S i)%nat by lia. apply Hf. exact Hi.
    + exact Hlast.
    + cbn [length] in *.
      replace (S k + S (length rest') - 1)%nat with (k + S (S (length rest')) - 1)%nat by lia.
      exact Hfound.
Qed.

(** X15. A job can end failed with progress 100 and a result: when every
    attempt fails and the parser had found an image in the response of the
    last endpoint (the attempt failed after the image was stored, while the
    text parts were joined), the record is failed, its progress is 100, its
    result is that image and its error is the reason of that attempt. *)
Theorem failed_job_keeps_stored_image
    (hosts : list pystr) (model_name : pystr) (pl : payload)
    (headers : list (pystr * pystr)) (w : world) (t : task) (h image : pystr) :
  tasks w !! task_id = Some t ->
  (forall i h', hosts !! i = Some h' ->
     attempt_fails (net_stream (length (requests w) + i)
                               (generation_endpoint h' model_name))) ->
  last hosts = Some h ->
  found_image (net_stream (length (requests w) + length hosts - 1)
                          (generation_endpoint h model_name)) = Some image ->
  exists w' t' reason,
    execute_generation_over hosts task_id model_name pl headers w = (Ok tt, w')
    /\ tasks w' !! task_id = Some t'
    /\ status t' = failed /\ progress t' = 100
    /\ result_base64 t' = Some image
    /\ error t' = Some reason
    /\ response_outcome (net_stream (length (requests w) + length hosts - 1)
                                    (generation_endpoint h model_name)) = Fails reason.
Proof.
  intros Ht Hf Hlast Hfound.
  rewrite (execute_generation_run hosts model_name pl headers w t Ht).
  destruct (loop_all_fail model_name hosts (length (requests w)) None Hf)
    as (_ & le' & Hr & Hl).
  destruct (loop_last_found model_name hosts (length (requests w)) t h image Hf Hlast Hfound)
    as (_ & Hp & Hres).
  unfold final_task. rewrite Hr. rewrite Hlast in Hl. destruct Hl as (e & He & -> & Hne).
  eexists _, _, e. split; [reflexivity|]. split; [apply evolve_tasks|].
  split; [reflexivity|]. split; [exact Hp|]. split; [exact Hres|].
  split; [|exact He].
  cbn [error set_error]. rewrite py_or_some by exact Hne. reflexivity.
Qed.
End Engine.


(* ================================================================== *)
(** ** From the submission to the terminal state *)
(* ================================================================== *)

Lemma loop_returned_result (model_name : pystr) (hosts : list pystr) :
  forall (k : nat) (t : task) (last_error : option pystr),
    loop_result model_name k hosts last_error = Returned ->
    status (loop_task model_name k hosts t) = completed
    /\ progress (loop_task model_name k hosts t) = 100
    /\ is_Some (result_base64 (loop_task model_name k hosts t)).
Proof.
  induction hosts as [|host rest IH]; intros k t last_error;
    cbn [loop_result loop_task]; [discriminate|]. cbv zeta.
  destruct (response_outcome (net_stream k (generation_endpoint host model_name)))
    as [image joined | e] eqn:Ho.
  - intros _. destruct (attempt_success _ t _ _ Ho) as [-> _].
    destruct (completed_with_fields image joined (set_progress 95 (set_progress 30 t)))
      as (F1 & F2 & F3 & _).
    rewrite F1, F2, F3. eauto.
  - apply IH.
Qed.

Lemma py_or_nonempty (last_error : option pystr) :
  py_or last_error (str "所有主机都失败") <> [].
Proof.
  unfold py_or. destruct last_error as [s|].
  - destruct (PyStr.truthy s) eqn:E; [apply truthy_nonempty; exact E|].
    intros H. vm_compute in H. discriminate H.
  - intros H. vm_compute in H. discriminate H.
Qed.

(** X14. An accepted submission, once the event loop has run the job it
    scheduled, is in a terminal state: the job returns without an exception
    after at most one request to each of the two endpoints, in their order;
    the record is completed with progress 100 and a result, or failed with a
    non-empty error; it still carries the creation time, the prompt and the
    model of the submission, and the status endpoint answers with it. *)
Theorem submitted_job_reaches_terminal_state
    (request : GenerateRequest.t) (uuid4 now : pystr) (w : world) :
  user_api_key w <> [] ->
  PyStr.strip (GenerateRequest.prompt request) <> [] ->
  exists resp w1 j w2 t' n,
    generate_image request uuid4 now w = (Ok resp, w1)
    /\ scheduled w1 = scheduled w ++ [j]
    /\ run_job j w1 = (Ok tt, w2)
    /\ tasks w2 !! uuid4 = Some t'
    /\ fst (get_task_status uuid4 w2) = Ok (snapshot_of uuid4 t')
    /\ (status t' = completed /\ progress t' = 100 /\ is_Some (result_base64 t')
        \/ status t' = failed /\ exists reason, error t' = Some reason /\ reason <> [])
    /\ created_at t' = now
    /\ prompt t' = GenerateRequest.prompt request
    /\ model t' = gr_model resp
    /\ (n <= 2)%nat
    /\ requests w2 = requests w
                     ++ map (fun h => generation_endpoint h (gr_model resp))
                            (take n GOOGLE_API_HOSTS).
Proof.
  intros Hk Hp.
  destruct (generate_image_accepts request uuid4 now w Hk Hp) as (m & headers & Hgen).
  rewrite Hgen.
  set (w1 := World _ _ _ _ _ _).
  set (t0 := submitted_task request now m).
  assert (tasks w1 !! uuid4 = Some t0) as Ht0 by apply lookup_insert_eq.
  eexists _, w1, (Job uuid4 m (build_payload request) headers), _, _, _.
  split; [reflexivity|]. split; [reflexivity|].
  unfold run_job, _execute_generation. cbn [job_task_id job_model_name job_payload job_headers].
  rewrite (execute_generation_run uuid4 GOOGLE_API_HOSTS m (build_payload request) headers
             w1 t0 Ht0).
  split; [reflexivity|]. split; [apply evolve_tasks|].
  split.
  { rewrite get_task_status_run, evolve_tasks. reflexivity. }
  destruct (loop_task_carried m GOOGLE_API_HOSTS (length (requests w1)) t0)
    as [(H1 & H2 & H3 & _) _].
  split.
  { unfold final_task.
    destruct (loop_result m (length (requests w1)) GOOGLE_API_HOSTS None) as [|le] eqn:E.
    - left. eapply loop_returned_result. exact E.
    - right. split; [reflexivity|]. eexists. split; [reflexivity|]. apply py_or_nonempty. }
  assert (forall f : task -> pystr,
             (forall v s, f (set_error v s) = f s) -> (forall v s, f (set_status v s) = f s) ->
             f (final_task m (length (requests w1)) GOOGLE_API_HOSTS t0)
             = f (loop_task m (length (requests w1)) GOOGLE_API_HOSTS t0)) as Hfin.
  { intros f He Hs. unfold final_task.
    destruct (loop_result m (length (requests w1)) GOOGLE_API_HOSTS None);
      [reflexivity|]. rewrite He, Hs. reflexivity. }
  split; [rewrite (Hfin created_at) by reflexivity; exact H1|].
  split; [rewrite (Hfin prompt) by reflexivity; exact H2|].
  split; [rewrite (Hfin model) by reflexivity; exact H3|].
  split; [apply (attempted_le m GOOGLE_API_HOSTS)|].
  reflexivity.
Qed.
End Backend.

(* ================================================================== *)
(** ** Examples *)
(* ================================================================== *)

(** Two reference images and a prompt. *)
Lemma request_builder_example :
  build_payload example_alnum example_request =
  Payload [Content [InlineData (str "image/jpeg") (str "REVG");
                    InlineData (str "image/png") (str "QUJD");
                    TextPart (str "a banana")]].
Proof.
  apply (request_builder_reverses_images example_alnum example_request
           (str "data:image/png;base64,QUJD") (str "data:image/jpeg;base64,REVG")
           (str "image/png") (str "QUJD") (str "image/jpeg") (str "REVG")).
  - reflexivity.
  - exists (str "png"), [].
    split; [vm_compute; reflexivity|]. split; [vm_compute; reflexivity|].
    split; [vm_compute; discriminate|]. split; [vm_compute; repeat constructor|].
    split; [vm_compute; discriminate|]. split; [vm_compute; repeat constructor|].
    left; reflexivity.
  - exists (str "jpeg"), [].
    split; [vm_compute; reflexivity|]. split; [vm_compute; reflexivity|].
    split; [vm_compute; discriminate|]. split; [vm_compute; repeat constructor|].
    split; [vm_compute; discriminate|]. split; [vm_compute; repeat constructor|].
    left; reflexivity.
Defined.

(** An SVG data URL is well formed, but its subtype is not made of word
    characters: the builder drops it, and the parts are the PNG and the
    text. *)
Lemma svg_reference_image_dropped :
  build_payload example_alnum svg_request =
  Payload [Content [InlineData (str "image/png") (str "QUJD"); TextPart (str "a banana")]]
  /\ ~ request_builder_claim example_alnum.
Proof.
  assert (build_payload example_alnum svg_request =
          Payload [Content [InlineData (str "image/png") (str "QUJD");
                            TextPart (str "a banana")]]) as Hrun
    by (vm_compute; reflexivity).
  split; [exact Hrun|]. intros Hclaim.
  specialize (Hclaim svg_request (str "data:image/svg+xml;base64,PHN2Zy8+")
                (str "data:image/png;base64,QUJD")
                (str "image/svg+xml") (str "PHN2Zy8+") (str "image/png") (str "QUJD")
                eq_refl).
  rewrite Hrun in Hclaim.
  assert (forall s mime subtype data : pystr,
             s = str "data:" ++ mime ++ str ";base64," ++ data ->
             mime = str "image/" ++ subtype ->
             subtype <> [] -> forallb subtype_char subtype = true ->
             data <> [] -> forallb base64_char data = true ->
             well_formed_image_data_url s mime data) as Hwf.
  { intros s mime subtype data Hs Hm Hsub Hchars Hd Hdchars. exists subtype.
    split; [exact Hs|]. split; [exact Hm|]. split; [exact Hsub|].
    split; [apply Forall_forall; intros c Hc; apply list_elem_of_In in Hc;
            exact (proj1 (forallb_forall _ _) Hchars c Hc)|].
    split; [exact Hd|].
    apply Forall_forall; intros c Hc; apply list_elem_of_In in Hc;
      exact (proj1 (forallb_forall _ _) Hdchars c Hc). }
  assert (Payload [Content [InlineData (str "image/png") (str "QUJD");
                            TextPart (str "a banana")]]
          = Payload [Content [InlineData (str "image/png") (str "QUJD");
                              InlineData (str "image/svg+xml") (str "PHN2Zy8+");
                              TextPart (GenerateRequest.prompt svg_request)]]) as Habs.
  { apply Hclaim.
    - apply (Hwf _ _ (str "svg+xml")); vm_compute; first [reflexivity | discriminate].
    - apply (Hwf _ _ (str "png")); vm_compute; first [reflexivity | discriminate]. }
  vm_compute in Habs. discriminate Habs.
Qed.

(** A prompt of blanks is refused and nothing is stored. *)
Lemma blank_prompt_rejected_example :
  exists detail,
    generate_image example_alnum
      (GenerateRequest.Build (str "  ") None (str "nano-banana-pro") None None)
      (str "job-2") (str "2025-01-01T00:00:01") example_world
    = (Raise (HTTPException 400 detail), example_world).
Proof.
  apply (invalid_submission_rejected example_alnum
           (GenerateRequest.Build (str "  ") None (str "nano-banana-pro") None None)
           (str "job-2") (str "2025-01-01T00:00:01") example_world).
  right. vm_compute. repeat constructor.
Defined.

(** A key of 26 characters is stored, reported and masked. *)
Lemma credential_round_trip_example :
  let secret := str "AIzaSyExampleKey0123456789" in
  let w1 := snd (set_api_key (ApiKeyRequest.Build secret) None example_world) in
  exists masked,
    check_api_key w1 = (Ok (CheckKeyResponse true masked), w1)
    /\ ((12 < length secret)%nat ->
        masked = take 8 secret ++ str "..." ++ PyStr.slice_last 4 secret
        /\ ((15 < length secret)%nat \/ 46%N ∉ secret -> ~ PyStr.substring secret masked))
    /\ ((length secret <= 12)%nat -> masked = str "***").
Proof.
  apply (credential_round_trip (str "AIzaSyExampleKey0123456789") None example_world).
  vm_compute. discriminate.
Defined.

(** The empty secret is reported as no key, and the mask of a short secret
    that ends in dots contains the secret. *)
Lemma credential_round_trip_fails :
  ~ credential_round_trip_claim []
  /\ ~ credential_round_trip_claim (str "sk-12345.....")
  /\ mask (str "sk-12345.....") = str "sk-12345.......".
Proof.
  split; [|split].
  - intros H. destruct (H None example_world) as (masked & Hc & _).
    vm_compute in Hc. discriminate Hc.
  - intros H. destruct (H None example_world) as (masked & Hc & Hlong & _).
    vm_compute in Hc. injection Hc as <-.
    destruct Hlong as [_ Hn]; [vm_compute; lia|].
    apply Hn. exists [], (str ".."). vm_compute. reflexivity.
  - vm_compute. reflexivity.
Qed.

(** The first mirror answers with text only, the second with an image, the
    third is not contacted. *)
Lemma failover_example :
  let hosts := [mirror "text"; mirror "image"; mirror "down"] in
  let model_name := str "gemini-3-pro-image-preview" in
  exists w' t',
    execute_generation_over example_json_loads example_decode example_repr example_stream
      hosts (str "job-1") model_name (build_payload example_alnum example_request)
      example_headers example_world = (Ok tt, w')
    /\ tasks w' !! str "job-1" = Some t'
    /\ status t' = completed /\ progress t' = 100
    /\ result_base64 t' = Some (str "data:image/png;base64,QUJD")
    /\ thinking t' = from_option Some (thinking example_task) None
    /\ error t' = error example_task
    /\ requests w' = requests example_world
                     ++ map (fun h => generation_endpoint h model_name) (take 2 hosts)
    /\ poll (str "job-1") w' (tasks w') = Ok (snapshot_of (str "job-1") t').
Proof.
  intros hosts model_name.
  apply (first_image_completes_job example_json_loads example_decode example_repr
           example_stream (str "job-1") hosts model_name
           (build_payload example_alnum example_request) example_headers example_world
           example_task 1 (mirror "image") (str "data:image/png;base64,QUJD") None).
  - vm_compute. reflexivity.
  - reflexivity.
  - intros i h Hi Hh. destruct i as [|i]; [|lia].
    injection Hh as <-. eexists. vm_compute. reflexivity.
  - vm_compute. reflexivity.
Defined.

(** A mirror that answers 503 and one that cannot be reached: the job fails
    with the reason of the second. *)
Lemma all_fail_example :
  let hosts := [mirror "busy"; mirror "down"] in
  let model_name := str "gemini-3-pro-image-preview" in
  exists w' t' reason,
    execute_generation_over example_json_loads example_decode example_repr example_stream
      hosts (str "job-1") model_name (build_payload example_alnum example_request)
      example_headers example_world = (Ok tt, w')
    /\ tasks w' !! str "job-1" = Some t'
    /\ status t' = failed
    /\ error t' = Some reason
    /\ match last hosts with
       | None => reason = str "所有主机都失败"
       | Some h =>
         response_outcome example_json_loads example_decode example_repr
           (example_stream (length (requests example_world) + length hosts - 1)
                           (generation_endpoint h model_name))
         = Fails reason
       end
    /\ requests w' = requests example_world
                     ++ map (fun h => generation_endpoint h model_name) hosts
    /\ poll (str "job-1") w' (tasks w') = Ok (snapshot_of (str "job-1") t')
    /\ TaskStatusResponse.error (snapshot_of (str "job-1") t') = Some reason.
Proof.
  intros hosts model_name.
  apply (all_endpoints_fail_job example_json_loads example_decode example_repr
           example_stream (str "job-1") hosts model_name
           (build_payload example_alnum example_request) example_headers example_world
           example_task).
  - vm_compute. reflexivity.
  - intros i h Hh. destruct i as [|[|i]]; [| |discriminate Hh].
    + injection Hh as <-. eexists. vm_compute. reflexivity.
    + injection Hh as <-. eexists. vm_compute. reflexivity.
Defined.

(** A stream that stalls after two chunks, then a mirror that delivers: the
    poller reads 54 and 90 during the first attempt and 30 again when the
    second begins. *)
Lemma progress_drops_on_failover :
  let w' := snd (execute_generation_over example_json_loads example_decode example_repr
                   example_stream [mirror "stalled"; mirror "image"] (str "job-1")
                   (str "gemini-3-pro-image-preview")
                   (build_payload example_alnum example_request) example_headers
                   example_world) in
  polled_progress (str "job-1") w' = [30; 30; 54; 90; 90; 30; 30; 30; 30; 100; 100]
  /\ (status <$> tasks w' !! str "job-1") = Some completed
  /\ ~ nondecreasing (polled_progress (str "job-1") w')
  /\ ~ progress_claim (str "job-1") w'.
Proof.
  intros w'.
  assert (polled_progress (str "job-1") w' = [30; 30; 54; 90; 90; 30; 30; 30; 30; 100; 100])
    as Hp by (vm_compute; reflexivity).
  assert (~ nondecreasing (polled_progress (str "job-1") w')) as Hn.
  { rewrite Hp. intros H.
    assert (90 <= 30) by (apply (H 4%nat 5%nat); [lia | reflexivity | reflexivity]).
    lia. }
  split; [exact Hp|]. split; [vm_compute; reflexivity|]. split; [exact Hn|].
  intros [H _]. exact (Hn H).
Qed.

(** The same run, read attempt by attempt. *)
Lemma progress_within_attempt_example :
  let hosts := [mirror "stalled"; mirror "image"] in
  let model_name := str "gemini-3-pro-image-preview" in
  exists w' t' segs,
    execute_generation_over example_json_loads example_decode example_repr example_stream
      hosts (str "job-1") model_name (build_payload example_alnum example_request)
      example_headers example_world = (Ok tt, w')
    /\ tasks w' !! str "job-1" = Some t'
    /\ polled_progress (str "job-1") w'
       = seen_before (str "job-1") example_world ++ concat segs ++ [progress t']
    /\ length segs = attempted example_json_loads example_decode example_repr example_stream
                       model_name (length (requests example_world)) hosts
    /\ Forall attempt_trace_ok segs
    /\ (forall seg, last segs = Some seg -> last seg = Some (progress t'))
    /\ (status t' = completed \/ status t' = failed)
    /\ (status t' = completed -> progress t' = 100)
    /\ (status t' = failed ->
        match last hosts with
        | None => progress t' = progress example_task
        | Some h =>
          found_image example_json_loads example_repr
            (example_stream (length (requests example_world) + length hosts - 1)
                            (generation_endpoint h model_name)) = None ->
          30 <= progress t' <= 95
        end).
Proof.
  intros hosts model_name.
  apply (progress_monotone_within_attempt example_json_loads example_decode example_repr
           example_stream (str "job-1") hosts model_name
           (build_payload example_alnum example_request) example_headers example_world
           example_task).
  vm_compute. reflexivity.
Defined.

(** Two chunks of 20000 and 40000 bytes, then the stream breaks: 54, 90, and
    95 is never written. *)
Lemma streaming_example :
  stream_progress [padding 20000; padding 40000] [] = [54; 90]
  /\ exists ctl t',
      fst (attempt example_json_loads example_decode example_repr example_stream
             (str "job-1") (str "gemini-3-pro-image-preview")
             (build_payload example_alnum example_request) example_headers
             (mirror "stalled") example_world) = Ok ctl
      /\ tasks (snd (attempt example_json_loads example_decode example_repr example_stream
                       (str "job-1") (str "gemini-3-pro-image-preview")
                       (build_payload example_alnum example_request) example_headers
                       (mirror "stalled") example_world)) !! str "job-1" = Some t'
      /\ progress t' <= 90.
Proof.
  split; [vm_compute; reflexivity|].
  destruct (streaming_progress_capped example_json_loads example_decode example_repr
              example_stream (str "job-1") (str "gemini-3-pro-image-preview")
              (build_payload example_alnum example_request) example_headers
              (mirror "stalled") [padding 20000; padding 40000]
              (Broken (Exc (str "ReadTimeout") (str "The read operation timed out")))
              example_world example_task)
    as (ctl & t' & Hrun & _ & _ & _ & _ & Hend).
  - vm_compute. reflexivity.
  - unfold example_stream.
    repeat match goal with
           | |- context [served_by ?name ?url] =>
             destruct (served_by name url) eqn:E;
             [try (vm_compute in E; discriminate E) | try (vm_compute in E; discriminate E)];
             clear E
           end.
    reflexivity.
  - exists ctl, t'. rewrite Hrun. split; [reflexivity|].
    split; [cbn [snd evolve tasks]; apply lookup_insert_eq|].
    destruct (body_content _ _ _) as [content|e] eqn:E in Hend; [|exact Hend].
    vm_compute in E. discriminate E.
Defined.

(** A full response behind a mirror that answers 503: the JPEG, which comes
    second among the inline parts, is stored. A part without [data] gives an
    empty payload. *)
Lemma last_inline_part_example :
  (exists w' t',
     execute_generation_over extended_json_loads example_decode example_repr
       extended_stream [mirror "busy"; mirror "full"; mirror "down"] (str "job-1")
       (str "gemini-3-pro-image-preview") (build_payload example_alnum example_request)
       example_headers example_world = (Ok tt, w')
     /\ tasks w' !! str "job-1" = Some t'
     /\ status t' = completed /\ progress t' = 100
     /\ result_base64 t' = Some (str "data:image/jpeg;base64,REVG"))
  /\ (exists w' t',
       execute_generation_over extended_json_loads example_decode example_repr
         extended_stream [mirror "empty-image"] (str "job-1")
         (str "gemini-3-pro-image-preview") (build_payload example_alnum example_request)
         example_headers example_world = (Ok tt, w')
       /\ tasks w' !! str "job-1" = Some t'
       /\ status t' = completed /\ progress t' = 100
       /\ result_base64 t' = Some (str "data:image/webp;base64,")).
Proof.
  split.
  - destruct (last_inline_part_wins extended_json_loads example_decode example_repr
                extended_stream (str "job-1")
                [mirror "busy"; mirror "full"; mirror "down"]
                (str "gemini-3-pro-image-preview")
                (build_payload example_alnum example_request) example_headers
                example_world example_task 1 (mirror "full") [body_full] EndOfStream
                body_full full_document
                [inline_part (str "image/png") [(str "data", JStr (str "QUJD"))];
                 text_part (str "second try")]
                [text_part (str "done")]
                (inline_part (str "image/jpeg") [(str "data", JStr (str "REVG"))])
                (Some (str "data:image/jpeg;base64,REVG"))
                [JStr (str "second try"); JStr (str "done")]
                (Some (str "second try" ++ [10%N] ++ str "done")))
      as (image & w' & t' & Hi & _ & Hrun & Ht & Hs & Hp & Hr & _).
    + vm_compute. reflexivity.
    + reflexivity.
    + intros i h Hlt Hh. destruct i as [|i]; [|lia].
      injection Hh as <-. eexists. vm_compute. reflexivity.
    + vm_compute. reflexivity.
    + vm_compute. reflexivity.
    + vm_compute. reflexivity.
    + eexists _, _, _, _. split; [reflexivity|].
      split; [vm_compute; reflexivity|]. split; vm_compute; reflexivity.
    + vm_compute. reflexivity.
    + vm_compute. reflexivity.
    + vm_compute. reflexivity.
    + repeat constructor.
    + assert (image = str "data:image/jpeg;base64,REVG") as ->
        by (vm_compute in Hi; injection Hi as <-; vm_compute; reflexivity).
      exists w', t'. repeat split; assumption.
  - destruct (last_inline_part_wins extended_json_loads example_decode example_repr
                extended_stream (str "job-1") [mirror "empty-image"]
                (str "gemini-3-pro-image-preview")
                (build_payload example_alnum example_request) example_headers
                example_world example_task 0 (mirror "empty-image")
                [body_empty_image] EndOfStream body_empty_image
                (single_candidate [inline_part (str "image/webp") []])
                [] [] (inline_part (str "image/webp") [])
                (Some (str "data:image/webp;base64,")) [] None)
      as (image & w' & t' & _ & Himg & Hrun & Ht & Hs & Hp & Hr & _).
    + vm_compute. reflexivity.
    + reflexivity.
    + intros i h Hlt. lia.
    + vm_compute. reflexivity.
    + vm_compute. reflexivity.
    + vm_compute. reflexivity.
    + eexists _, _, _, _. split; [reflexivity|].
      split; [vm_compute; reflexivity|]. split; vm_compute; reflexivity.
    + vm_compute. reflexivity.
    + reflexivity.
    + vm_compute. reflexivity.
    + constructor.
    + rewrite (Himg [(str "mimeType", JStr (str "image/webp"))]) in Hr.
      * exists w', t'. split; [exact Hrun|]. split; [exact Ht|]. split; [exact Hs|].
        split; [exact Hp|]. rewrite Hr. vm_compute. reflexivity.
      * unfold inline_part. cbn [getitem]. rewrite lookup_head. reflexivity.
      * left. vm_compute. reflexivity.
Defined.

(** A PNG of three bytes is accepted and encoded. *)
Lemma upload_example :
  upload_reference_image example_upload
  = Ok (UploadResponse (Some (str "banana.png")) (str "image/png") 3
                       (str "data:image/png;base64,QUJD")).
Proof.
  destruct (upload_accepted_iff example_upload (str "image/png") eq_refl) as [Hacc _].
  destruct Hacc as (data & Hrun & Hdata & _).
  - split; [vm_compute; reflexivity | vm_compute; discriminate].
  - rewrite Hrun, Hdata. vm_compute. reflexivity.
Defined.

(** The data URL returned for it is taken as a reference image. *)
Lemma uploaded_image_example :
  exists r,
    upload_reference_image example_upload = Ok r
    /\ reference_part example_alnum (up_base64 r)
       = Some (InlineData (str "image/png") (str "QUJD")).
Proof.
  destruct (uploaded_image_is_usable example_alnum example_upload (str "png"))
    as (r & Hrun & Huse & _).
  - vm_compute. reflexivity.
  - vm_compute. discriminate.
  - exists r. split; [exact Hrun|]. rewrite Huse.
    + vm_compute. reflexivity.
    + vm_compute. discriminate.
    + vm_compute. repeat constructor.
    + vm_compute. discriminate.
Defined.

(** A submission to the example process, and the poll that follows. *)
Lemma accepted_submission_example :
  exists w1,
    fst (generate_image example_alnum example_request (str "job-2")
           (str "2025-01-01T00:00:01") example_world)
    = Ok (GenerateResponse (str "job-2") processing (str "gemini-3-pro-image-preview")
            (str "任务已提交，请轮询获取结果"))
    /\ get_task_status (str "job-2") w1 =
       (Ok (TaskStatusResponse.Build (str "job-2") processing 10 None None None
              (str "2025-01-01T00:00:01") (Some (str "gemini-3-pro-image-preview"))), w1).
Proof.
  destruct (accepted_submission_is_pollable example_alnum example_request (str "job-2")
              (str "2025-01-01T00:00:01") example_world)
    as (w1 & headers & Hgen & Hpoll & _).
  - vm_compute. discriminate.
  - vm_compute. discriminate.
  - assert ((if decide (GenerateRequest.model example_request = str "nano-banana")
             then str "gemini-2.5-flash-image" else str "gemini-3-pro-image-preview")
            = str "gemini-3-pro-image-preview") as Hm by (vm_compute; reflexivity).
    rewrite Hm in Hgen, Hpoll.
    exists w1. rewrite Hgen. split; [reflexivity | exact Hpoll].
Defined.

(** The job of the example process is deleted. *)
Lemma deleted_task_example :
  exists w1,
    delete_task (str "job-1") example_world = (Ok (str "任务已删除"), w1)
    /\ get_task_status (str "job-1") w1
       = (Raise (HTTPException 404 (str "任务不存在")), w1).
Proof.
  destruct (deleted_task_is_gone (str "job-1") example_task example_world)
    as (w1 & Hdel & Hget & _).
  - vm_compute. reflexivity.
  - exists w1. split; assumption.
Defined.

(** A job whose record is missing. *)
Lemma job_without_record_example :
  execute_generation_over example_json_loads example_decode example_repr example_stream
    [mirror "image"] (str "job-9") (str "gemini-3-pro-image-preview")
    (build_payload example_alnum example_request) example_headers example_world
  = (Raise (Exc (str "KeyError") (str "'job-9'")), example_world).
Proof.
  rewrite (job_without_record example_json_loads example_decode example_repr example_stream
             (str "job-9") [mirror "image"] (str "gemini-3-pro-image-preview")
             (build_payload example_alnum example_request) example_headers example_world).
  - vm_compute. reflexivity.
  - vm_compute. reflexivity.
Defined.

(** The failover run leaves everything but the record of job-1 alone. *)
Lemma job_frame_example :
  exists w' t',
    execute_generation_over example_json_loads example_decode example_repr example_stream
      [mirror "text"; mirror "image"; mirror "down"] (str "job-1")
      (str "gemini-3-pro-image-preview") (build_payload example_alnum example_request)
      example_headers example_world = (Ok tt, w')
    /\ tasks w' = <[str "job-1" := t']> (tasks example_world)
    /\ prompt t' = str "a banana"
    /\ user_api_key w' = user_api_key example_world.
Proof.
  destruct (job_writes_own_record_only example_json_loads example_decode example_repr
              example_stream (str "job-1") [mirror "text"; mirror "image"; mirror "down"]
              (str "gemini-3-pro-image-preview")
              (build_payload example_alnum example_request) example_headers example_world
              example_task)
    as (w' & t' & n & Hrun & Htasks & _ & _ & Hprompt & _ & _ & Hkey & _).
  - vm_compute. reflexivity.
  - exists w', t'. split; [exact Hrun|]. split; [exact Htasks|].
    split; [exact Hprompt | exact Hkey].
Defined.

(** A document whose second candidate holds an image and whose first holds
    text: no image. *)
Lemma first_candidate_example :
  classify example_repr (JObj two_candidates)
  = Ok (NoImage (str "响应中没有图像数据 (模型回复: no...)")).
Proof.
  rewrite (only_first_candidate_counts example_repr two_candidates
             (JObj [(str "content", JObj [(str "parts", JArr [text_part (str "no")])])])
             [JObj [(str "content",
                     JObj [(str "parts",
                            JArr [inline_part (str "image/png")
                                              [(str "data", JStr (str "QUJD"))]])])]]).
  - vm_compute. reflexivity.
  - vm_compute. reflexivity.
Defined.

(** A mirror that answers 503 and one out of reach. *)
Lemma refused_everywhere_example :
  exists w' t',
    execute_generation_over example_json_loads example_decode example_repr example_stream
      [mirror "busy"; mirror "down"] (str "job-1") (str "gemini-3-pro-image-preview")
      (build_payload example_alnum example_request) example_headers example_world
    = (Ok tt, w')
    /\ tasks w' !! str "job-1" = Some t'
    /\ status t' = failed /\ progress t' = 30.
Proof.
  destruct (refused_everywhere_stays_at_30 example_json_loads example_decode example_repr
              example_stream (str "job-1") [mirror "busy"; mirror "down"]
              (str "gemini-3-pro-image-preview")
              (build_payload example_alnum example_request) example_headers example_world
              example_task)
    as (w' & t' & during & Hrun & Ht & Hs & Hp & _).
  - vm_compute. reflexivity.
  - discriminate.
  - intros i h Hh. destruct i as [|[|i]]; [| |discriminate Hh].
    + injection Hh as <-. vm_compute. discriminate.
    + injection Hh as <-. vm_compute. exact I.
  - exists w', t'. split; [exact Hrun|]. split; [exact Ht|]. split; assumption.
Defined.

(** A submission followed by the run of its job, the two endpoints of the
    service being out of reach. *)
Lemma submitted_job_example :
  exists resp w1 j w2 t',
    generate_image example_alnum example_request (str "job-2")
      (str "2025-01-01T00:00:01") example_world = (Ok resp, w1)
    /\ run_job example_json_loads example_decode example_repr example_stream j w1
       = (Ok tt, w2)
    /\ tasks w2 !! str "job-2" = Some t'
    /\ (status t' = completed \/ status t' = failed).
Proof.
  destruct (submitted_job_reaches_terminal_state example_alnum example_json_loads
              example_decode example_repr example_stream example_request (str "job-2")
              (str "2025-01-01T00:00:01") example_world)
    as (resp & w1 & j & w2 & t' & n & Hgen & _ & Hrun & Ht & _ & Hst & _).
  - vm_compute. discriminate.
  - vm_compute. discriminate.
  - exists resp, w1, j, w2, t'. split; [exact Hgen|]. split; [exact Hrun|].
    split; [exact Ht|]. destruct Hst as [[Hs _] | [Hs _]]; [left | right]; exact Hs.
Defined.

(** An image followed by a text part that holds a number: the join raises
    after the image is stored. *)
Lemma failed_with_image_example :
  exists w' t',
    execute_generation_over number_text_json_loads example_decode example_repr
      number_text_stream [mirror "busy"; mirror "number-text"] (str "job-1")
      (str "gemini-3-pro-image-preview") (build_payload example_alnum example_request)
      example_headers example_world = (Ok tt, w')
    /\ tasks w' !! str "job-1" = Some t'
    /\ status t' = failed /\ progress t' = 100
    /\ result_base64 t' = Some (str "data:image/png;base64,QUJD")
    /\ error t' = Some (str "TypeError: sequence item 0: expected str instance, int found").
Proof.
  destruct (failed_job_keeps_stored_image number_text_json_loads example_decode example_repr
              number_text_stream (str "job-1") [mirror "busy"; mirror "number-text"]
              (str "gemini-3-pro-image-preview")
              (build_payload example_alnum example_request) example_headers example_world
              example_task (mirror "number-text") (str "data:image/png;base64,QUJD"))
    as (w' & t' & reason & Hrun & Ht & Hs & Hp & Hres & Herr & Hreason).
  - vm_compute. reflexivity.
  - intros i h' Hh. destruct i as [|[|i]]; [| |discriminate Hh].
    + injection Hh as <-. eexists. vm_compute. reflexivity.
    + injection Hh as <-. eexists. vm_compute. reflexivity.
  - reflexivity.
  - vm_compute. reflexivity.
  - exists w', t'. split; [exact Hrun|]. split; [exact Ht|]. split; [exact Hs|].
    split; [exact Hp|]. split; [exact Hres|]. rewrite Herr. f_equal.
    vm_compute in Hreason. injection Hreason as <-. vm_compute. reflexivity.
Defined.

(** C3. The first endpoint of the service answers with an image and a
    text part that holds a number: the parser classifies the response as an
    image result, yet the job goes on to the second endpoint and ends with
    the image of that one, two requests having been sent. *)
Lemma image_with_number_text_fails_over :
  let model_name := str "gemini-3-pro-image-preview" in
  let run := _execute_generation extended_json_loads example_decode example_repr
               number_then_images_stream (str "job-1") model_name
               (build_payload example_alnum example_request) example_headers
               example_world in
  found_image extended_json_loads example_repr
    (number_then_images_stream 0
       (generation_endpoint (str "https://api.zzz-api.top/google") model_name))
  = Some (str "data:image/png;base64,QUJD")
  /\ fst run = Ok tt
  /\ (status <$> tasks (snd run) !! str "job-1") = Some completed
  /\ (result_base64 <$> tasks (snd run) !! str "job-1")
     = Some (Some (str "data:image/jpeg;base64,REVG"))
  /\ requests (snd run)
     = [generation_endpoint (str "https://api.zzz-api.top/google") model_name;
        generation_endpoint (str "https://api.zhizengzeng.com/google") model_name].
Proof.
  cbv zeta. repeat split; vm_compute; reflexivity.
Qed.

(** C9. Both endpoints of the service answer with an inline part that has
    no [data] and a text part that holds a number: the parser classifies the
    response as an image result and the result data:image/webp;base64, is
    stored, yet the job ends failed, with progress 100. *)
Lemma empty_image_with_number_text_fails :
  let model_name := str "gemini-3-pro-image-preview" in
  let run := _execute_generation extended_json_loads example_decode example_repr
               no_data_stream (str "job-1") model_name
               (build_payload example_alnum example_request) example_headers
               example_world in
  found_image extended_json_loads example_repr
    (no_data_stream 0
       (generation_endpoint (str "https://api.zzz-api.top/google") model_name))
  = Some (str "data:image/webp;base64,")
  /\ fst run = Ok tt
  /\ (status <$> tasks (snd run) !! str "job-1") = Some failed
  /\ (progress <$> tasks (snd run) !! str "job-1") = Some 100
  /\ (result_base64 <$> tasks (snd run) !! str "job-1")
     = Some (Some (str "data:image/webp;base64,"))
  /\ (error <$> tasks (snd run) !! str "job-1")
     = Some (Some (str "TypeError: sequence item 0: expected str instance, int found")).
Proof.
  cbv zeta. repeat split; vm_compute; reflexivity.
Qed.
